(** * apinator-io/sdk-js: connection state machine, channel registry and
      presence reconciliation

    A shallow embedding of [src/connection.ts], [src/channel.ts] and
    [src/index.ts].  Every method of the three classes is a function over an
    explicit record of the object's fields; what a method does to the outside
    world (callbacks invoked, frames written to the socket, timers armed or
    cancelled) is collected in a trace of effects.

    Modelling boundaries, stated once:
    - JavaScript values that come off the wire are JSON values ([value]);
      numbers are rationals (no NaN or infinities occur in JSON text);
    - property reads see own properties only (members inherited from
      [Object.prototype] and [Array.prototype] are not modelled);
    - [JSON.parse], [JSON.stringify] and the coercions of ill-typed operands
      are primitives of the host, collected in the class [JSRuntime];
    - user callbacks are opaque: invoking one is an effect of the trace and
      does not re-enter the client;
    - a payload that passed the check of its TypeScript type is held at that
      type: a [PresenceInfo] is its [user_id] and [user_info], and properties
      a payload has beyond those of its type are not carried further;
    - [console.warn] is recorded with its text, without the value logged
      after it. *)

From Stdlib Require Import ZArith QArith Lia.
From stdpp Require Import base strings list gmap pretty.

Set Warnings "-register-all".

(** ** JavaScript values *)

Module JS.

Inductive value :=
| VUndefined
| VNull
| VBool (b : bool)
| VNum (q : Q)
| VStr (s : string)
| VArr (items : list value)
| VObj (fields : list (string * value)).

(** A JavaScript number: a rational or NaN. *)
Inductive number := Finite (q : Q) | NaN.

Inductive exn := TypeError | SyntaxError | Error (message : string).

Inductive jstype := TUndefined | TObject | TBoolean | TNumber | TString.

Definition typeof (v : value) : jstype :=
  match v with
  | VUndefined => TUndefined
  | VNull | VArr _ | VObj _ => TObject
  | VBool _ => TBoolean
  | VNum _ => TNumber
  | VStr _ => TString
  end.

Definition is_string (v : value) : bool :=
  match v with VStr _ => true | _ => false end.

Definition is_number (v : value) : bool :=
  match v with VNum _ => true | _ => false end.

Definition is_object (v : value) : bool :=
  match v with VNull | VArr _ | VObj _ => true | _ => false end.

Definition isArray (v : value) : bool :=
  match v with VArr _ => true | _ => false end.

(** [v == null] *)
Definition nullish (v : value) : bool :=
  match v with VUndefined | VNull => true | _ => false end.

(** ToBoolean. *)
Definition truthy (v : value) : bool :=
  match v with
  | VUndefined | VNull => false
  | VBool b => b
  | VNum q => negb (Qeq_bool q 0)
  | VStr s => negb (String.eqb s "")
  | VArr _ | VObj _ => true
  end.

Definition num_of_nat (n : nat) : Q := inject_Z (Z.of_nat n).

Fixpoint assoc (k : string) (kvs : list (string * value)) : option value :=
  match kvs with
  | [] => None
  | (k', v) :: rest => if String.eqb k k' then Some v else assoc k rest
  end.

(** Own properties of an indexed object (array or string): the canonical
    decimal indices and [length]. *)
Fixpoint index_from (i : nat) (items : list value) (k : string) : option value :=
  match items with
  | [] => None
  | x :: rest => if String.eqb k (pretty i) then Some x else index_from (S i) rest k
  end.

Definition indexed (items : list value) (k : string) : value :=
  if String.eqb k "length" then VNum (num_of_nat (length items))
  else default VUndefined (index_from 0 items k).

Fixpoint chars (s : string) : list value :=
  match s with
  | EmptyString => []
  | String c rest => VStr (String c EmptyString) :: chars rest
  end.

(** [v[k]]: reading a property of [null] or [undefined] is a TypeError
    ([None]); a missing property reads as [undefined]. *)
Definition prop (v : value) (k : string) : option value :=
  match v with
  | VUndefined | VNull => None
  | VBool _ | VNum _ => Some VUndefined
  | VStr s => Some (indexed (chars s) k)
  | VArr items => Some (indexed items k)
  | VObj fields => Some (default VUndefined (assoc k fields))
  end.

(** An object proper: what is truthy and has [typeof] ["object"]. *)
Inductive obj := OArr (items : list value) | OObj (fields : list (string * value)).

Definition obj_value (o : obj) : value :=
  match o with OArr items => VArr items | OObj fields => VObj fields end.

(** [o[k]] *)
Definition get (o : obj) (k : string) : value :=
  match o with
  | OArr items => indexed items k
  | OObj fields => default VUndefined (assoc k fields)
  end.

(** [v ?? {}], read at the type of objects. *)
Definition obj_or_empty (v : value) : obj :=
  match v with
  | VArr items => OArr items
  | VObj fields => OObj fields
  | _ => OObj []
  end.

(** Own enumerable properties, as the spread [{...v}] copies them. *)
Fixpoint enumerate_from (i : nat) (items : list value) : list (string * value) :=
  match items with
  | [] => []
  | x :: rest => (pretty i, x) :: enumerate_from (S i) rest
  end.

Definition spread (o : obj) : list (string * value) :=
  match o with
  | OObj fields => fields
  | OArr items => enumerate_from 0 items
  end.

(** [{...o, [k]: v}] *)
Fixpoint without (k : string) (kvs : list (string * value)) : list (string * value) :=
  match kvs with
  | [] => []
  | (k', v') :: rest =>
      if String.eqb k k' then without k rest else (k', v') :: without k rest
  end.

Fixpoint upsert (k : string) (v : value) (kvs : list (string * value))
  : list (string * value) :=
  match kvs with
  | [] => [(k, v)]
  | (k', v') :: rest =>
      if String.eqb k k' then (k, v) :: without k rest
      else (k', v') :: upsert k v rest
  end.

(** [s.startsWith(p)] *)
Fixpoint startsWith (p s : string) : bool :=
  match p, s with
  | EmptyString, _ => true
  | String a p', String b s' => Ascii.eqb a b && startsWith p' s'
  | String _ _, EmptyString => false
  end.

(** The double-quote character, and a text between two. *)
Definition dq : string :=
  String (Ascii.Ascii false true false false false true false false) EmptyString.

Definition quoted (s : string) : string := dq +:+ s +:+ dq.

(** [l.includes(x)] on strings. *)
Definition includes (x : string) (l : list string) : bool :=
  existsb (String.eqb x) l.

(** The host primitives the SDK calls and does not define. *)
Class JSRuntime := {
  (** [JSON.parse] on a string; [None] is a SyntaxError. *)
  JSON_parse : string -> option value;
  (** [JSON.stringify]. *)
  JSON_stringify : value -> string;
  (** ToString of a value that is not a string. *)
  ToString_other : value -> string;
  (** ToNumber of a value that is not a number. *)
  ToNumber_other : value -> number;
  (** whether [new WebSocket(url)] returns (it throws on a URL it rejects). *)
  WebSocket_accepts : string -> bool
}.

Section Coercions.
Context `{JSRuntime}.

Definition ToString (v : value) : string :=
  match v with VStr s => s | _ => ToString_other v end.

Definition ToNumber (v : value) : number :=
  match v with VNum q => Finite q | _ => ToNumber_other v end.

(** [JSON.parse(v)] applies ToString to its argument first. *)
Definition parse (v : value) : option value := JSON_parse (ToString v).

(** [v >= lo && v <= hi] against two number literals. *)
Definition between (lo hi : Q) (v : value) : bool :=
  match ToNumber v with
  | Finite q => Qle_bool lo q && Qle_bool q hi
  | NaN => false
  end.
End Coercions.

End JS.

Import JS.

(** ** A state-and-trace monad with exceptions

    A method runs on the fields [S] of its object, may throw, and leaves a
    trace of effects [E]; what was done before a throw stays done. *)

Module Mon.

Inductive outcome (A : Type) := Done (a : A) | Raised (e : exn).
Arguments Done {A} a.
Arguments Raised {A} e.

Definition M (E S A : Type) : Type := S -> outcome A * S * list E.

Section Ops.
Context {E S : Type}.

Definition ret {A} (a : A) : M E S A := fun s => (Done a, s, []).

Definition andThen {A B} (m : M E S A) (k : A -> M E S B) : M E S B :=
  fun s =>
    match m s with
    | (Done a, s1, t1) =>
        match k a s1 with (r, s2, t2) => (r, s2, t1 ++ t2) end
    | (Raised e, s1, t1) => (Raised e, s1, t1)
    end.

Definition raise {A} (e : exn) : M E S A := fun s => (Raised e, s, []).

Definition gets {A} (f : S -> A) : M E S A := fun s => (Done (f s), s, []).

Definition modify (f : S -> S) : M E S unit := fun s => (Done tt, f s, []).

Definition tell (e : E) : M E S unit := fun s => (Done tt, s, [e]).

(** [try { m } catch { h }] *)
Definition catch {A} (m : M E S A) (h : exn -> M E S A) : M E S A :=
  fun s =>
    match m s with
    | (Done a, s1, t1) => (Done a, s1, t1)
    | (Raised e, s1, t1) =>
        match h e s1 with (r, s2, t2) => (r, s2, t1 ++ t2) end
    end.

(** A value that may be a TypeError or SyntaxError. *)
Definition orThrow {A} (e : exn) (o : option A) : M E S A :=
  match o with Some a => ret a | None => raise e end.

Fixpoint forEach {A} (l : list A) (body : A -> M E S unit) : M E S unit :=
  match l with
  | [] => ret tt
  | x :: rest => andThen (body x) (fun _ => forEach rest body)
  end.

Definition stateOf {A} (r : outcome A * S * list E) : S := snd (fst r).
Definition traceOf {A} (r : outcome A * S * list E) : list E := snd r.
Definition outcomeOf {A} (r : outcome A * S * list E) : outcome A := fst (fst r).

(** A relation on states that every run of a computation respects. *)
Definition respects {A} (R : S -> S -> Prop) (m : M E S A) : Prop :=
  forall s, R s (stateOf (m s)).

(** A computation all of whose effects pass the test [f]. *)
Definition quiet {A} (f : E -> bool) (m : M E S A) : Prop :=
  forall s, forallb f (traceOf (m s)) = true.
End Ops.

End Mon.

Import Mon.

Declare Scope mon_scope.
Delimit Scope mon_scope with mon.
Notation "'let*' x ':=' m 'in' k" := (andThen m (fun x => k))
  (at level 10, x name, m at level 100, k at level 200) : mon_scope.
Notation "m ';;' k" := (andThen m (fun _ => k))
  (at level 100, k at level 200, right associativity) : mon_scope.

(** ** src/types.ts *)

Module Types.

Record RealtimeOptions := {
  cluster : string;
  appKey : string;
  authEndpoint : option string;
  authHeaders : option (list (string * string))
}.

Record PresenceInfo := { user_id : string; user_info : value }.

(** [{ user_id, user_info }] as a value. *)
Definition PresenceInfo_value (i : PresenceInfo) : value :=
  VObj [("user_id", VStr (user_id i)); ("user_info", user_info i)].

(** An [EventCallback] is a function of the user, known by its identity, or
    the closure [Apinator.subscribe] binds to ["__internal_trigger"]. *)
Inductive EventCallback :=
| UserCallback (n : nat)
| ForwardTrigger (channelName : string).

Global Instance EventCallback_eq_dec : EqDecision EventCallback.
Proof. solve_decision. Defined.

Record AuthResponse := { auth : string; channel_data : option string }.

(** A [Message] literal built by the SDK; [channel] is left out when absent. *)
Definition Message (event : string) (channel : option string) (data : string) : value :=
  VObj (("event", VStr event)
        :: match channel with Some c => [("channel", VStr c)] | None => [] end
        ++ [("data", VStr data)]).

(** [v === s] for a string literal [s]. *)
Definition is_str (v : value) (s : string) : bool :=
  match v with VStr s' => String.eqb s' s | _ => false end.

End Types.

Import Types.

(** ** src/auth.ts *)

Module Auth.

Record AuthOptions := {
  endpoint : string;
  headers : option (list (string * string))
}.

(** What [fetch] is called with, and what it resolves with: of a
    [Response], the fields the function reads and the text of the body. *)
Record Request := {
  url : string;
  method : string;
  request_headers : list (string * string);
  body : string
}.

Record Response := {
  ok : bool;
  status : nat;
  statusText : string;
  text : string
}.

(** [o[k]] and [o[k] = v] on an object whose values are strings. *)
Fixpoint header (k : string) (l : list (string * string)) : option string :=
  match l with
  | [] => None
  | (k', v) :: rest => if String.eqb k k' then Some v else header k rest
  end.

Fixpoint put (k v : string) (l : list (string * string)) : list (string * string) :=
  match l with
  | [] => [(k, v)]
  | (k', v') :: rest =>
      if String.eqb k k' then (k, v) :: rest else (k', v') :: put k v rest
  end.

(** [{ ...a, ...b }] *)
Definition assign (a b : list (string * string)) : list (string * string) :=
  foldl (fun acc kv => put kv.1 kv.2 acc) a b.

(** *** fetchAuth, up to its [await]: the request *)
Definition request `{JSRuntime} (socketId : value) (channelName : string)
    (options : AuthOptions) : Request :=
  {| url := endpoint options;
     method := "POST";
     request_headers :=
       assign [("Content-Type", "application/json")] (default [] (headers options));
     body := JSON_stringify (VObj [("socket_id", socketId);
                                   ("channel_name", VStr channelName)]) |}.

(** *** fetchAuth, from its [await] on: [None] is a [fetch] that rejected,
    which it does with a TypeError *)
Definition settle `{JSRuntime} (fetched : option Response) : outcome value :=
  match fetched with
  | None => Raised TypeError
  | Some response =>
      if negb (ok response) then
        Raised (Error ("Auth failed: " +:+ pretty (status response) +:+ " "
                       +:+ statusText response))
      else
        match JSON_parse (text response) with
        | Some v => Done v
        | None => Raised SyntaxError
        end
  end.

End Auth.

(** ** src/connection.ts *)

Module Connection.

Inductive ConnectionState :=
  initialized | connecting | connected | unavailable | disconnected.

Global Instance ConnectionState_eq_dec : EqDecision ConnectionState.
Proof. solve_decision. Defined.

Inductive readyState := CONNECTING | OPEN | CLOSING | CLOSED.

Record WebSocket := { url : string; ready : readyState }.

(** The three closures the class hands to [setTimeout]. *)
Inductive callback :=
| CbReconnect   (* () => this.connect() *)
| CbPing        (* sends the ping and arms the grace timer *)
| CbGrace.      (* if (this.ws) this.ws.close() *)

Record timer := { tid : nat; delay : number; cb : callback }.

Inductive effect :=
| OnStateChange (prev cur : ConnectionState)
| OnMessage (msg : value)
| NewWebSocket (u : string)
| WsSend (msg : value)                 (* this.ws.send(JSON.stringify(msg)) *)
| WsClose (code : option (Z * string))
| SetTimeout (tm : timer)
| ClearTimeout (id : nat).

(** The fields of a [Connection], followed by the host's table of pending
    timers.  A timer handle is truthy (a positive integer), so a field that
    holds one is [Some]; the field keeps a handle after its timer has fired,
    as in the source. *)
Record t := {
  ws : option WebSocket;
  state : ConnectionState;
  options : RealtimeOptions;
  reconnectAttempts : nat;
  reconnectTimer : option nat;
  activityTimer : option nat;
  socketId : value;
  timers : list timer;
  nextTimer : nat
}.

Definition new (o : RealtimeOptions) : t :=
  {| ws := None; state := initialized; options := o; reconnectAttempts := 0;
     reconnectTimer := None; activityTimer := None; socketId := VNull;
     timers := []; nextTimer := 1 |}.

Definition set_ws (w : option WebSocket) (c : t) : t :=
  {| ws := w; state := state c; options := options c;
     reconnectAttempts := reconnectAttempts c; reconnectTimer := reconnectTimer c;
     activityTimer := activityTimer c; socketId := socketId c;
     timers := timers c; nextTimer := nextTimer c |}.

Definition set_state (s : ConnectionState) (c : t) : t :=
  {| ws := ws c; state := s; options := options c;
     reconnectAttempts := reconnectAttempts c; reconnectTimer := reconnectTimer c;
     activityTimer := activityTimer c; socketId := socketId c;
     timers := timers c; nextTimer := nextTimer c |}.

Definition set_reconnectAttempts (n : nat) (c : t) : t :=
  {| ws := ws c; state := state c; options := options c;
     reconnectAttempts := n; reconnectTimer := reconnectTimer c;
     activityTimer := activityTimer c; socketId := socketId c;
     timers := timers c; nextTimer := nextTimer c |}.

Definition set_reconnectTimer (r : option nat) (c : t) : t :=
  {| ws := ws c; state := state c; options := options c;
     reconnectAttempts := reconnectAttempts c; reconnectTimer := r;
     activityTimer := activityTimer c; socketId := socketId c;
     timers := timers c; nextTimer := nextTimer c |}.

Definition set_activityTimer (a : option nat) (c : t) : t :=
  {| ws := ws c; state := state c; options := options c;
     reconnectAttempts := reconnectAttempts c; reconnectTimer := reconnectTimer c;
     activityTimer := a; socketId := socketId c;
     timers := timers c; nextTimer := nextTimer c |}.

Definition set_socketId (v : value) (c : t) : t :=
  {| ws := ws c; state := state c; options := options c;
     reconnectAttempts := reconnectAttempts c; reconnectTimer := reconnectTimer c;
     activityTimer := activityTimer c; socketId := v;
     timers := timers c; nextTimer := nextTimer c |}.

Definition set_timers (l : list timer) (n : nat) (c : t) : t :=
  {| ws := ws c; state := state c; options := options c;
     reconnectAttempts := reconnectAttempts c; reconnectTimer := reconnectTimer c;
     activityTimer := activityTimer c; socketId := socketId c;
     timers := l; nextTimer := n |}.

Definition Meth := M effect t.

Local Open Scope mon_scope.

(** *** The host's timers *)

Definition setTimeout (k : callback) (d : number) : Meth nat :=
  let* id := gets nextTimer in
  let tm := {| tid := id; delay := d; cb := k |} in
  modify (fun c => set_timers (timers c ++ [tm]) (S id) c) ;;
  tell (SetTimeout tm) ;;
  ret id.

Definition clearTimeout (id : nat) : Meth unit :=
  modify (fun c => set_timers (filter (fun tm => tid tm <> id) (timers c)) (nextTimer c) c) ;;
  tell (ClearTimeout id).

(** *** get id / get currentState *)

Definition id (c : t) : value := socketId c.
Definition currentState (c : t) : ConnectionState := state c.

Definition resolveWSHost (c : t) : string :=
  "wss://ws-" +:+ cluster (options c) +:+ ".apinator.io".

(** *** private setState *)
Definition setState (s : ConnectionState) : Meth unit :=
  let* prev := gets state in
  modify (set_state s) ;;
  if decide (prev = s) then ret tt else tell (OnStateChange prev s).

(** *** private clearTimers *)
Definition clearTimers : Meth unit :=
  let* r := gets reconnectTimer in
  match r with
  | Some i => clearTimeout i ;; modify (set_reconnectTimer None)
  | None => ret tt
  end ;;
  let* a := gets activityTimer in
  match a with
  | Some i => clearTimeout i ;; modify (set_activityTimer None)
  | None => ret tt
  end.

(** Backoff of the [n]-th consecutive attempt:
    [Math.min(1000 * Math.pow(2, n), 30000)]. *)
Definition backoff (n : nat) : Z := Z.min (1000 * 2 ^ Z.of_nat n) 30000.

(** *** private handleDisconnect *)
Definition handleDisconnect : Meth unit :=
  modify (set_ws None) ;;
  clearTimers ;;
  let* s := gets state in
  if decide (s = disconnected) then ret tt else
  let* n := gets reconnectAttempts in
  if decide (n < 6)%nat then
    setState connecting ;;
    let d := Finite (inject_Z (backoff n)) in
    modify (set_reconnectAttempts (S n)) ;;
    let* i := setTimeout CbReconnect d in
    modify (set_reconnectTimer (Some i))
  else
    setState unavailable.

(** *** send *)
Definition send (msg : value) : Meth unit :=
  let* w := gets ws in
  match w with
  | Some {| ready := OPEN |} => tell (WsSend msg)
  | _ => ret tt
  end.

(** [this.ws.close(...)] as the host carries it out: a socket that is
    connecting or open starts its closing handshake. *)
Definition closing (w : WebSocket) : WebSocket :=
  match ready w with
  | CONNECTING | OPEN => {| url := url w; ready := CLOSING |}
  | _ => w
  end.

(** *** disconnect *)
Definition disconnect : Meth unit :=
  clearTimers ;;
  setState disconnected ;;
  let* w := gets ws in
  match w with
  | Some _ => tell (WsClose (Some (1000%Z, "client disconnect"))) ;; modify (set_ws None)
  | None => ret tt
  end.

(** *** connect *)
(** The handlers the method installs on the new socket are [onopen],
    [onmessage] and [onclose] below. *)
Definition socket_url (c : t) : string :=
  resolveWSHost c +:+ "/app/" +:+ appKey (options c)
  +:+ "?protocol=7&client=js&version=1.0.0".

Definition connect `{JSRuntime} : Meth unit :=
  let* s := gets state in
  if bool_decide (s = connected) || bool_decide (s = connecting) then ret tt else
  setState connecting ;;
  let* u := gets socket_url in
  tell (NewWebSocket u) ;;
  if WebSocket_accepts u then
    modify (set_ws (Some {| url := u; ready := CONNECTING |}))
  else
    handleDisconnect.

(** *** private resetActivityTimer *)
(** [timeoutSeconds * 1000] *)
Definition millis `{JSRuntime} (timeoutSeconds : value) : number :=
  match ToNumber timeoutSeconds with
  | Finite q => Finite (q * 1000)
  | NaN => NaN
  end.

Definition resetActivityTimer `{JSRuntime} (timeoutSeconds : value) : Meth unit :=
  let* a := gets activityTimer in
  match a with Some i => clearTimeout i | None => ret tt end ;;
  let* i := setTimeout CbPing (millis timeoutSeconds) in
  modify (set_activityTimer (Some i)).

(** *** private handleMessage *)
(** The method returns early on a fatal error; [forward] tells whether
    control reaches the call of [onMessage] on its last line. *)
Definition handleMessage `{JSRuntime} (msg : value) : Meth unit :=
  let* event := orThrow TypeError (prop msg "event") in
  let* forward :=
    if is_str event "realtime:connection_established" then
      let* raw := orThrow TypeError (prop msg "data") in
      let* data := orThrow SyntaxError (parse raw) in
      let* sid := orThrow TypeError (prop data "socket_id") in
      modify (set_socketId sid) ;;
      let* at_ := orThrow TypeError (prop data "activity_timeout") in
      let timeout := if truthy at_ then at_ else VNum 120 in
      setState connected ;;
      resetActivityTimer timeout ;;
      ret true
    else if is_str event "realtime:pong" then
      (* Activity timeout reset handled by receiving any message *)
      ret true
    else if is_str event "realtime:error" then
      let* raw := orThrow TypeError (prop msg "data") in
      let* data := orThrow SyntaxError (parse raw) in
      let* code := orThrow TypeError (prop data "code") in
      if between 4000 4004 code then
        (* Fatal error, don't reconnect *)
        disconnect ;; ret false
      else ret true
    else ret true in
  if forward then tell (OnMessage msg) else ret tt.

(** *** The socket's handlers *)

Definition onopen : Meth unit := modify (set_reconnectAttempts 0).

Definition onmessage `{JSRuntime} (text : string) : Meth unit :=
  match JSON_parse text with
  | None => ret tt   (* Ignore malformed messages *)
  | Some msg => handleMessage msg
  end.

Definition onclose : Meth unit := handleDisconnect.

(** *** The timer callbacks *)

Definition run_callback `{JSRuntime} (k : callback) : Meth unit :=
  match k with
  | CbReconnect => connect
  | CbPing =>
      send (Message "realtime:ping" None "{}") ;;
      (* If no pong within 30s, reconnect *)
      let* i := setTimeout CbGrace (Finite 30000) in
      modify (set_activityTimer (Some i))
  | CbGrace =>
      let* w := gets ws in
      match w with
      | Some sock => tell (WsClose None) ;; modify (set_ws (Some (closing sock)))
      | None => ret tt
      end
  end.

(** *** What can happen to a connection *)

Inductive event :=
| Connect                     (* connect() *)
| Disconnect                  (* disconnect() *)
| Send (msg : value)          (* send(msg) *)
| Opened                      (* the socket opened *)
| Frame (text : string)       (* the socket delivered a text frame *)
| Closed                      (* the socket closed *)
| Elapsed (id : nat).         (* the delay of pending timer [id] ran out *)

Definition opened (w : WebSocket) : WebSocket := {| url := url w; ready := OPEN |}.

Definition step `{JSRuntime} (e : event) : Meth unit :=
  match e with
  | Connect => connect
  | Disconnect => disconnect
  | Send msg => send msg
  | Opened => modify (fun c => set_ws (opened <$> ws c) c) ;; onopen
  | Frame text => onmessage text
  | Closed => onclose
  | Elapsed i =>
      let* pending := gets timers in
      match find (fun tm => bool_decide (tid tm = i)) pending with
      | Some tm =>
          modify (fun c => set_timers (filter (fun tm => tid tm <> i) (timers c)) (nextTimer c) c) ;;
          run_callback (cb tm)
      | None => ret tt
      end
  end.

(** A run: the events one after the other.  An exception thrown by a handler
    is reported by the host and does not stop the events that follow. *)
Fixpoint run `{JSRuntime} (es : list event) (c : t) : t * list effect :=
  match es with
  | [] => (c, [])
  | e :: rest =>
      let r := step e c in
      let r' := run rest (stateOf r) in
      (fst r', traceOf r ++ snd r')
  end.

(** *** Reading a trace *)

Definition armed (tr : list effect) : list timer :=
  omap (fun e => match e with SetTimeout tm => Some tm | _ => None end) tr.

Definition cancelled (tr : list effect) : list nat :=
  omap (fun e => match e with ClearTimeout i => Some i | _ => None end) tr.

Definition forwarded (tr : list effect) : list value :=
  omap (fun e => match e with OnMessage m => Some m | _ => None end) tr.

Definition opened_sockets (tr : list effect) : list string :=
  omap (fun e => match e with NewWebSocket u => Some u | _ => None end) tr.

Definition closes (tr : list effect) : list (option (Z * string)) :=
  omap (fun e => match e with WsClose k => Some k | _ => None end) tr.

(** The frames written to the socket. *)
Definition sent (tr : list effect) : list value :=
  omap (fun e => match e with WsSend msg => Some msg | _ => None end) tr.

(** The state-change notifications of a trace, followed from the state [s]:
    each one leaves the state the one before it reached, for another state.
    [None] when one does not. *)
Fixpoint transitions (s : ConnectionState) (tr : list effect) : option ConnectionState :=
  match tr with
  | [] => Some s
  | OnStateChange prev cur :: rest =>
      if bool_decide (prev = s) && negb (bool_decide (cur = s))
      then transitions cur rest else None
  | _ :: rest => transitions s rest
  end.

(** Handles are handed out in increasing order, and no two pending timers
    share one. *)
Definition fresh_timers (c : t) : Prop :=
  NoDup (tid <$> timers c) /\ forall tm, tm ∈ timers c -> tid tm < nextTimer c.

Definition is_reconnect (tm : timer) : bool :=
  match cb tm with CbReconnect => true | _ => false end.

Definition is_ping (tm : timer) : bool :=
  match cb tm with CbPing => true | _ => false end.



(** What may still happen to a connection once it is disconnected, short of
    the user calling [connect] again. *)
Definition after_disconnect (e : event) : bool :=
  match e with Closed | Elapsed _ | Send _ | Disconnect => true | _ => false end.

(** The timer handles the connection holds. *)
Definition held (c : t) : list nat :=
  option_list (reconnectTimer c) ++ option_list (activityTimer c).

(** Every pending timer is the one its field holds the handle of: a
    reconnection timer in [reconnectTimer], a ping or grace timer in
    [activityTimer]. *)
Definition tracked (c : t) : Prop :=
  forall tm, tm ∈ timers c ->
    match cb tm with
    | CbReconnect => reconnectTimer c = Some (tid tm)
    | CbPing | CbGrace => activityTimer c = Some (tid tm)
    end.

(** A reconnection timer is pending only while the state is [connecting] or
    [connected]. *)
Definition reconnect_pending_ok (c : t) : Prop :=
  forall tm, tm ∈ timers c -> cb tm = CbReconnect ->
    state c = connecting \/ state c = connected.

Definition wf (c : t) : Prop := tracked c /\ reconnect_pending_ok c.

(** Disconnected, with no timer pending. *)
Definition at_rest (c : t) : Prop := state c = disconnected /\ timers c = [].


(** After the last attempt: [unavailable], and no timer pending. *)
Definition gave_up (c : t) : Prop := state c = unavailable /\ timers c = [].

(** What [handleMessage] makes of a decoded frame: it throws before it has
    changed anything, or takes the frame as connection-established with an
    identifier and an activity timeout, or as a fatal error, or as a frame
    that is only forwarded. *)
Inductive kind :=
| Throws (e : exn)
| Establishes (sid timeout : value)
| Fatal
| Forward.

Definition decoded `{JSRuntime} (msg : value) : option value :=
  raw ← prop msg "data"; parse raw.

Definition classify `{JSRuntime} (msg : value) : kind :=
  match prop msg "event" with
  | None => Throws TypeError
  | Some event =>
      if is_str event "realtime:connection_established" then
        match decoded msg with
        | None => Throws SyntaxError
        | Some data =>
            match prop data "socket_id", prop data "activity_timeout" with
            | Some sid, Some at_ => Establishes sid (if truthy at_ then at_ else VNum 120)
            | _, _ => Throws TypeError
            end
        end
      else if is_str event "realtime:pong" then Forward
      else if is_str event "realtime:error" then
        match decoded msg with
        | None => Throws SyntaxError
        | Some data =>
            match prop data "code" with
            | Some code => if between 4000 4004 code then Fatal else Forward
            | None => Throws TypeError
            end
        end
      else Forward
  end.

(** [data.socket_id] of a frame that [handleMessage] takes as a
    connection-established frame and decodes. *)
Definition establishes `{JSRuntime} (text : string) : option value :=
  msg ← JSON_parse text;
  match classify msg with Establishes sid _ => Some sid | _ => None end.

(** The identifier the last connection-established frame of a run carried. *)
Fixpoint last_established `{JSRuntime} (es : list event) (before : value) : value :=
  match es with
  | [] => before
  | Frame text :: rest => last_established rest (default before (establishes text))
  | _ :: rest => last_established rest before
  end.

(** The keepalive pings among the frames written, the ping timers among
    the pending ones, and the connection-established frames of a run that
    [handleMessage] decodes. *)
Definition is_ping_frame (msg : value) : bool :=
  match prop msg "event" with
  | Some event => is_str event "realtime:ping"
  | None => false
  end.

Definition pings (tr : list effect) : list value := List.filter is_ping_frame (sent tr).

Definition pending_pings (c : t) : nat := length (List.filter is_ping (timers c)).

Definition establishments `{JSRuntime} (es : list event) : nat :=
  length (omap (fun e => match e with Frame text => establishes text | _ => None end) es).

(** The caller of [send] writes no ping of its own. *)
Definition sends_no_ping (e : event) : bool :=
  match e with Send msg => negb (is_ping_frame msg) | _ => true end.

(** A fatal protocol error: a [realtime:error] frame whose code is in the
    range 4000 to 4004. *)
Definition fatal `{JSRuntime} (msg : value) : bool :=
  match classify msg with Fatal => true | _ => false end.

End Connection.

(** ** src/channel.ts *)

Module Channel.

Inductive effect :=
| Call (f : EventCallback) (data : value)   (* cb(data), inside try/catch *)
| Warn (text : string).                     (* console.warn *)

(** [PresenceData["presence"]] *)
Record Presence := { count : Q; ids : list string; hash : obj }.

(** The fields [PresenceChannel] adds to [Channel]. *)
Record PresenceFields := { presence : Presence; self : option PresenceInfo }.

(** An instance of [Channel]; [ext] holds the fields of the subclass when
    the instance is a [PresenceChannel]. *)
Record t := {
  name : string;
  bindings : gmap string (list EventCallback);
  _subscribed : bool;
  ext : option PresenceFields
}.

Definition empty_presence : Presence := {| count := 0; ids := []; hash := OObj [] |}.

(** [new Channel(name)] *)
Definition new (n : string) : t :=
  {| name := n; bindings := ∅; _subscribed := false; ext := None |}.

(** [new PresenceChannel(name)] *)
Definition newPresence (n : string) : t :=
  {| name := n; bindings := ∅; _subscribed := false;
     ext := Some {| presence := empty_presence; self := None |} |}.

Definition instanceofPresenceChannel (c : t) : bool :=
  match ext c with Some _ => true | None => false end.

Definition set_bindings (b : gmap string (list EventCallback)) (c : t) : t :=
  {| name := name c; bindings := b; _subscribed := _subscribed c; ext := ext c |}.

Definition set_subscribed (b : bool) (c : t) : t :=
  {| name := name c; bindings := bindings c; _subscribed := b; ext := ext c |}.

Definition set_ext (x : option PresenceFields) (c : t) : t :=
  {| name := name c; bindings := bindings c; _subscribed := _subscribed c; ext := x |}.

Definition set_presence (p : Presence) (f : PresenceFields) : PresenceFields :=
  {| presence := p; self := self f |}.

Definition set_self (i : option PresenceInfo) (f : PresenceFields) : PresenceFields :=
  {| presence := presence f; self := i |}.

Definition Meth := M effect t.

Local Open Scope mon_scope.

Definition subscribed (c : t) : bool := _subscribed c.

(** [set.add(f)]: a [Set] keeps insertion order and no duplicate. *)
Definition set_add (f : EventCallback) (l : list EventCallback) : list EventCallback :=
  if bool_decide (f ∈ l) then l else l ++ [f].

Definition set_delete (f : EventCallback) (l : list EventCallback) : list EventCallback :=
  filter (fun g => g <> f) l.

(** *** bind *)
Definition bind (event : string) (f : EventCallback) : Meth unit :=
  modify (fun c =>
    set_bindings (<[event := set_add f (default [] (bindings c !! event))]> (bindings c)) c).

(** *** unbind *)
Definition unbind (event : string) (f : option EventCallback) : Meth unit :=
  match f with
  | None => modify (fun c => set_bindings (delete event (bindings c)) c)
  | Some g => modify (fun c => set_bindings (alter (set_delete g) event (bindings c)) c)
  end.

(** *** unbindAll *)
Definition unbindAll : Meth unit := modify (set_bindings ∅).

(** *** protected emit *)
Definition emit (event : string) (data : value) : Meth unit :=
  let* callbacks := gets (fun c => bindings c !! event) in
  match callbacks with
  | Some l => forEach l (fun f => tell (Call f data))
  | None => ret tt
  end.

(** *** trigger *)
Definition trigger (event : string) (data : value) : Meth unit :=
  if negb (startsWith "client-" event) then
    raise (Error ("Client events must be prefixed with " +:+ quoted "client-"))
  else
  let* n := gets name in
  if negb (startsWith "private-" n) && negb (startsWith "presence-" n) then
    raise (Error "Client events can only be triggered on private or presence channels")
  else
  emit "__internal_trigger" (VObj [("event", VStr event); ("data", data)]).

(** *** handleEvent *)
Definition handleEvent (event : string) (data : value) : Meth unit := emit event data.

(** *** handleError *)
Definition handleError (data : value) : Meth unit :=
  modify (set_subscribed false) ;;
  emit "realtime:subscription_error" data.

(** *** PresenceChannel: me, memberCount, getMembers, getMember *)

Definition me (f : PresenceFields) : option PresenceInfo := self f.

Definition memberCount (f : PresenceFields) : Q := count (presence f).

Definition getMembers (f : PresenceFields) : list PresenceInfo :=
  omap (fun userId =>
          let userInfo := get (hash (presence f)) userId in
          if negb (truthy userInfo) then None
          else Some {| user_id := userId; user_info := userInfo |})
       (ids (presence f)).

Definition getMember (f : PresenceFields) (userId : string) : option PresenceInfo :=
  let userInfo := get (hash (presence f)) userId in
  if negb (truthy userInfo) then None
  else Some {| user_id := userId; user_info := userInfo |}.

(** *** PresenceChannel.clearPresenceState *)
Definition clearPresenceState (f : PresenceFields) : PresenceFields :=
  {| presence := empty_presence; self := None |}.

(** *** isPresenceData *)
(** [data] and [data.presence] are read only once they are known to be
    objects, so the reads cannot fail. *)
Definition isPresenceData (data : value) : bool :=
  if negb (truthy data) || negb (is_object data) then false else
  match prop data "presence" with
  | None => false
  | Some maybePresence =>
      if negb (truthy maybePresence) || negb (is_object maybePresence) then false else
      match prop maybePresence "count", prop maybePresence "ids", prop maybePresence "hash" with
      | Some c, Some i, Some h => is_number c && isArray i && truthy h && is_object h
      | _, _, _ => false
      end
  end.

(** [data.presence.k], for [data] that passed [isPresenceData]. *)
Definition presence_field (data : value) (k : string) : value :=
  default VUndefined (p ← prop data "presence"; prop p k).

Definition strings (l : value) : list string :=
  match l with
  | VArr items => omap (fun v => match v with VStr s => Some s | _ => None end) items
  | _ => []
  end.

Definition number_of (v : value) : Q := match v with VNum q => q | _ => 0 end.

(** The [Channel] part of [handleSubscribed], reached through [super]. *)
Definition super_handleSubscribed (data : value) : Meth unit :=
  modify (set_subscribed true) ;;
  emit "realtime:subscription_succeeded" data.

(** *** PresenceChannel.handleSubscribed *)
Definition presence_handleSubscribed (f : PresenceFields) (data : value)
    (self_ : option PresenceInfo) : Meth unit :=
  let f := clearPresenceState f in
  let f := match self_ with Some i => set_self (Some i) f | None => f end in
  (if isPresenceData data then
     let ids_ := if isArray (presence_field data "ids")
                 then presence_field data "ids" else VArr [] in
     let hash_ := obj_or_empty (presence_field data "hash") in
     let p := {| count := number_of (presence_field data "count");
                 ids := strings ids_;
                 hash := hash_ |} in
     (* Keep count consistent with IDs when backend payload is malformed. *)
     let p := {| count := num_of_nat (length (ids p)); ids := ids p; hash := hash p |} in
     (modify (set_ext (Some (set_presence p f))) : Meth unit)
   else
     modify (set_ext (Some f)) ;;
     if nullish data then ret tt
     else
       let* n := gets name in
       tell (Warn ("PresenceChannel " +:+ quoted n +:+
                   " received malformed presence snapshot in realtime:subscription_succeeded"))) ;;
  super_handleSubscribed data.

(** *** handleSubscribed, as the call [channel.handleSubscribed(data, self)]
    dispatches it on the class of the instance *)
Definition handleSubscribed (data : value) (self_ : option PresenceInfo) : Meth unit :=
  let* x := gets ext in
  match x with
  | Some f => presence_handleSubscribed f data self_
  | None => super_handleSubscribed data
  end.

(** A method of [PresenceChannel] called on an instance: a plain [Channel]
    has no such method. *)
Definition asPresence : Meth PresenceFields :=
  let* x := gets ext in orThrow TypeError x.

(** *** PresenceChannel.handleMemberAdded *)
Definition handleMemberAdded (info : PresenceInfo) : Meth unit :=
  let* f := asPresence in
  let p := presence f in
  let ids_ := if negb (includes (user_id info) (ids p))
              then ids p ++ [user_id info] else ids p in
  let hash_ := OObj (upsert (user_id info) (user_info info) (spread (hash p))) in
  let p := {| count := num_of_nat (length ids_); ids := ids_; hash := hash_ |} in
  modify (set_ext (Some (set_presence p f))) ;;
  emit "realtime:member_added" (PresenceInfo_value info).

(** *** PresenceChannel.handleMemberRemoved *)
Definition handleMemberRemoved (userId : string) : Meth unit :=
  let* f := asPresence in
  let p := presence f in
  let ids_ := filter (fun i => i <> userId) (ids p) in
  let hash_ := OObj (without userId (spread (hash p))) in
  let p := {| count := num_of_nat (length ids_); ids := ids_; hash := hash_ |} in
  modify (set_ext (Some (set_presence p f))) ;;
  emit "realtime:member_removed" (VObj [("user_id", VStr userId)]).

(** No method changes the name of an instance. *)
Definition same_name (c c' : t) : Prop := name c' = name c.

(** The callbacks bound to [event], in the order [emit] calls them. *)
Definition listeners (c : t) (event : string) : list EventCallback :=
  default [] (bindings c !! event).

(** The callbacks a trace called, each with its argument, and its warnings. *)
Definition called (tr : list effect) : list (EventCallback * value) :=
  omap (fun e => match e with Call f data => Some (f, data) | _ => None end) tr.

Definition warnings (tr : list effect) : list string :=
  omap (fun e => match e with Warn text => Some text | _ => None end) tr.

(** A hash that is an object proper, not an array. *)
Definition plain (o : obj) : bool := match o with OObj _ => true | OArr _ => false end.

(** *** The operations on a channel's presence state *)

Inductive op :=
| Clear
| Snapshot (data : value) (self_ : option PresenceInfo)
| Added (info : PresenceInfo)
| Removed (userId : string).

Definition apply (o : op) : Meth unit :=
  match o with
  | Clear => modify (fun c => set_ext (clearPresenceState <$> ext c) c)
  | Snapshot data self_ => handleSubscribed data self_
  | Added info => handleMemberAdded info
  | Removed userId => handleMemberRemoved userId
  end.

Definition after (ops : list op) (c : t) : t :=
  foldl (fun c o => stateOf (apply o c)) c ops.


End Channel.

(** ** src/index.ts *)

Module Client.

(** How a call of [fetchAuth] settles: the promise resolves with the decoded
    response, or rejects with an error whose [String(err)] is [err]. *)
Inductive authOutcome := Resolved (resp : AuthResponse) | Rejected (err : string).

Inductive effect :=
| Conn (e : Connection.effect)                (* what the connection did *)
| Chan (ref : nat) (e : Channel.effect)       (* what channel [ref] did *)
| Global (f : EventCallback) (data : value)   (* a global binding, called *)
| Warn (text : string)                        (* console.warn *)
| FetchAuth (req : nat) (socketId : value) (channelName endpoint : string).

(** The fields of an [Apinator].  [channels] is the [Map] in insertion order,
    from a name to a reference into [heap], the instances created so far;
    [awaiting] lists the calls of [sendSubscribe] suspended at their [await],
    each with the channel instance it captured. *)
Record t := {
  connection : Connection.t;
  channels : list (string * nat);
  pendingPresenceSelf : gmap string PresenceInfo;
  options : RealtimeOptions;
  globalBindings : gmap string (list EventCallback);
  heap : gmap nat Channel.t;
  nextRef : nat;
  awaiting : list (nat * nat);
  nextReq : nat
}.

Definition new (o : RealtimeOptions) : t :=
  {| connection := Connection.new o; channels := []; pendingPresenceSelf := ∅;
     options := o; globalBindings := ∅; heap := ∅; nextRef := 0;
     awaiting := []; nextReq := 0 |}.

Definition set_connection (c : Connection.t) (a : t) : t :=
  {| connection := c; channels := channels a;
     pendingPresenceSelf := pendingPresenceSelf a; options := options a;
     globalBindings := globalBindings a; heap := heap a; nextRef := nextRef a;
     awaiting := awaiting a; nextReq := nextReq a |}.

Definition set_channels (l : list (string * nat)) (a : t) : t :=
  {| connection := connection a; channels := l;
     pendingPresenceSelf := pendingPresenceSelf a; options := options a;
     globalBindings := globalBindings a; heap := heap a; nextRef := nextRef a;
     awaiting := awaiting a; nextReq := nextReq a |}.

Definition set_pendingPresenceSelf (m : gmap string PresenceInfo) (a : t) : t :=
  {| connection := connection a; channels := channels a;
     pendingPresenceSelf := m; options := options a;
     globalBindings := globalBindings a; heap := heap a; nextRef := nextRef a;
     awaiting := awaiting a; nextReq := nextReq a |}.

Definition set_globalBindings (b : gmap string (list EventCallback)) (a : t) : t :=
  {| connection := connection a; channels := channels a;
     pendingPresenceSelf := pendingPresenceSelf a; options := options a;
     globalBindings := b; heap := heap a; nextRef := nextRef a;
     awaiting := awaiting a; nextReq := nextReq a |}.

Definition set_heap (h : gmap nat Channel.t) (n : nat) (a : t) : t :=
  {| connection := connection a; channels := channels a;
     pendingPresenceSelf := pendingPresenceSelf a; options := options a;
     globalBindings := globalBindings a; heap := h; nextRef := n;
     awaiting := awaiting a; nextReq := nextReq a |}.

Definition set_awaiting (l : list (nat * nat)) (n : nat) (a : t) : t :=
  {| connection := connection a; channels := channels a;
     pendingPresenceSelf := pendingPresenceSelf a; options := options a;
     globalBindings := globalBindings a; heap := heap a; nextRef := nextRef a;
     awaiting := l; nextReq := n |}.

Definition Meth := M effect t.

Local Open Scope mon_scope.

(** [map.get(k)] and [map.delete(k)] on the channel map. *)
Fixpoint lookup_channel (k : string) (l : list (string * nat)) : option nat :=
  match l with
  | [] => None
  | (k', r) :: rest => if String.eqb k k' then Some r else lookup_channel k rest
  end.

Definition delete_channel (k : string) (l : list (string * nat)) : list (string * nat) :=
  filter (fun kr => kr.1 <> k) l.

Section WithRuntime.
Context `{JSRuntime}.

(** [this.connection.send(msg)] *)
Definition connection_send (msg : value) : Meth unit :=
  fun a =>
    match Connection.send msg (connection a) with
    | (r, c, tr) => (r, set_connection c a, Conn <$> tr)
    end.

(** The closure bound to ["__internal_trigger"], called on [payload]. *)
Definition forwardTrigger (channelName : string) (payload : value) : Meth unit :=
  let* event := orThrow TypeError (prop payload "event") in
  let* data := orThrow TypeError (prop payload "data") in
  connection_send
    (VObj [("event", event); ("channel", VStr channelName);
           ("data", VStr (JSON_stringify data))]).

(** What the effects of a channel method amount to in the client: each is
    recorded, and a call of the forwarding closure runs its body, inside
    the [try]/[catch] of [Channel.emit]. *)
Definition channel_effect (ref : nat) (e : Channel.effect) : Meth unit :=
  tell (Chan ref e) ;;
  match e with
  | Channel.Call (ForwardTrigger n) payload =>
      catch (forwardTrigger n payload) (fun _ => ret tt)
  | _ => ret tt
  end.

(** [channel.m(...)] for the instance at [ref]. *)
Definition onChannel {A} (ref : nat) (m : Channel.Meth A) : Meth A :=
  let* h := gets heap in
  let* ch := orThrow TypeError (h !! ref) in
  match m ch with
  | (r, ch', tr) =>
      modify (fun a => set_heap (<[ref := ch']> (heap a)) (nextRef a) a) ;;
      forEach tr (channel_effect ref) ;;
      match r with Done x => ret x | Raised e => raise e end
  end.

Definition channel_clearPresenceState : Channel.Meth unit :=
  modify (fun c => Channel.set_ext (Channel.clearPresenceState <$> Channel.ext c) c).

Definition pending_delete (channelName : string) : Meth unit :=
  modify (fun a => set_pendingPresenceSelf (delete channelName (pendingPresenceSelf a)) a).

Definition AuthError (reason : string) : value :=
  VObj [("type", VStr "AuthError"); ("error", VStr reason); ("status", VNum 403)].

(** *** parsePresenceSelf *)
Definition parsePresenceSelf (channelData : string) : option PresenceInfo :=
  parsed ← JSON_parse channelData;
  uid ← prop parsed "user_id";
  info ← prop parsed "user_info";
  match uid with
  | VStr s =>
      if String.eqb s "" || negb (truthy info) || negb (is_object info) || isArray info
      then None
      else Some {| user_id := s; user_info := info |}
  | _ => None
  end.

(** *** isPresenceInfo *)
Definition isPresenceInfo (data : value) : bool :=
  if negb (truthy data) || negb (is_object data) then false else
  match prop data "user_id", prop data "user_info" with
  | Some (VStr s), Some info =>
      negb (String.eqb s "") && truthy info && is_object info && negb (isArray info)
  | _, _ => false
  end.

(** *** isPresenceMemberRemovedData *)
Definition isPresenceMemberRemovedData (data : value) : bool :=
  if negb (truthy data) || negb (is_object data) then false else
  match prop data "user_id" with
  | Some (VStr s) => negb (String.eqb s "")
  | _ => false
  end.

(** [data.user_id] of a payload that passed one of the two checks. *)
Definition user_id_of (data : value) : string :=
  match prop data "user_id" with Some (VStr s) => s | _ => "" end.

(** [data] that passed [isPresenceInfo], at its type. *)
Definition asPresenceInfo (data : value) : PresenceInfo :=
  {| user_id := user_id_of data;
     user_info := default VUndefined (prop data "user_info") |}.

(** *** private parseData *)
Definition parseData (data : value) : value := default data (parse data).

(** *** private sendSubscribe, up to its [await] *)
Definition sendSubscribe (ref : nat) : Meth unit :=
  let* h := gets heap in
  let* ch := orThrow TypeError (h !! ref) in
  let n := Channel.name ch in
  let isPrivate := startsWith "private-" n in
  let isPresence := startsWith "presence-" n in
  if isPrivate || isPresence then
    (* Need to authenticate first *)
    let* ep := gets (fun a => authEndpoint (options a)) in
    match ep with
    | Some endpoint =>
        if String.eqb endpoint "" then
          onChannel ref (Channel.handleError (AuthError "No auth endpoint configured"))
        else
        let* sid := gets (fun a => Connection.id (connection a)) in
        if negb (truthy sid) then
          onChannel ref (Channel.handleError (AuthError "Not connected"))
        else
        let* req := gets nextReq in
        tell (FetchAuth req sid n endpoint) ;;
        modify (fun a => set_awaiting (awaiting a ++ [(req, ref)]) (S req) a)
    | None =>
        onChannel ref (Channel.handleError (AuthError "No auth endpoint configured"))
    end
  else
    (* Public channel *)
    connection_send
      (Message "realtime:subscribe" None (JSON_stringify (VObj [("channel", VStr n)]))).

(** *** private sendSubscribe, from its [await] on: the body of the [try]
    when the promise resolved, the [catch] when it rejected *)
Definition sendSubscribe_resume (ref : nat) (o : authOutcome) : Meth unit :=
  let* h := gets heap in
  let* ch := orThrow TypeError (h !! ref) in
  let n := Channel.name ch in
  let isPresence := startsWith "presence-" n in
  match o with
  | Resolved authResp =>
      let subscribeData := [("channel", VStr n); ("auth", VStr (auth authResp))] in
      let subscribe fields :=
        connection_send (Message "realtime:subscribe" None (JSON_stringify (VObj fields))) in
      if isPresence then
        match channel_data authResp with
        | Some cd =>
            if String.eqb cd "" then
              pending_delete n ;;
              onChannel ref (Channel.handleError
                               (AuthError "channel_data required for presence channels"))
            else
            match parsePresenceSelf cd with
            | None =>
                pending_delete n ;;
                onChannel ref (Channel.handleError (AuthError "invalid channel_data"))
            | Some self_ =>
                modify (fun a => set_pendingPresenceSelf
                                   (<[n := self_]> (pendingPresenceSelf a)) a) ;;
                subscribe (subscribeData ++ [("channel_data", VStr cd)])
            end
        | None =>
            pending_delete n ;;
            onChannel ref (Channel.handleError
                             (AuthError "channel_data required for presence channels"))
        end
      else
        match channel_data authResp with
        | Some cd =>
            if String.eqb cd "" then subscribe subscribeData
            else subscribe (subscribeData ++ [("channel_data", VStr cd)])
        | None => subscribe subscribeData
        end
  | Rejected err =>
      pending_delete n ;;
      onChannel ref (Channel.handleError (AuthError err))
  end.

(** *** private clearPresenceState *)
Definition clearPresenceState : Meth unit :=
  modify (set_pendingPresenceSelf ∅) ;;
  let* l := gets channels in
  forEach l (fun kr => onChannel kr.2 channel_clearPresenceState).

Definition state_name (s : Connection.ConnectionState) : string :=
  match s with
  | Connection.initialized => "initialized"
  | Connection.connecting => "connecting"
  | Connection.connected => "connected"
  | Connection.unavailable => "unavailable"
  | Connection.disconnected => "disconnected"
  end.

(** *** private handleStateChange *)
Definition handleStateChange (_prev curr : Connection.ConnectionState) : Meth unit :=
  (if bool_decide (_prev = Connection.connected) && bool_decide (curr = Connection.connecting)
      || bool_decide (curr = Connection.disconnected)
      || bool_decide (curr = Connection.unavailable)
   then clearPresenceState else ret tt) ;;
  (if bool_decide (curr = Connection.connected) then
     (* Resubscribe to all channels *)
     let* l := gets channels in
     forEach l (fun kr => sendSubscribe kr.2)
   else ret tt) ;;
  (* Fire state change event *)
  let* cbs := gets (fun a => globalBindings a !! "state_change") in
  match cbs with
  | Some l =>
      forEach l (fun f =>
        tell (Global f (VObj [("previous", VStr (state_name _prev));
                              ("current", VStr (state_name curr))])))
  | None => ret tt
  end.

(** *** private handleMessage *)
Definition route (channelName : string) (ref : nat) (event data : value) : Meth unit :=
  let* h := gets heap in
  let* ch := orThrow TypeError (h !! ref) in
  let isPresence := Channel.instanceofPresenceChannel ch in
  if is_str event "realtime:subscription_succeeded" then
    if isPresence then
      let* self_ := gets (fun a => pendingPresenceSelf a !! channelName) in
      onChannel ref (Channel.handleSubscribed data self_) ;;
      pending_delete channelName
    else
      onChannel ref (Channel.handleSubscribed data None)
  else if is_str event "realtime:subscription_error" then
    pending_delete channelName ;;
    (if isPresence then onChannel ref channel_clearPresenceState else ret tt) ;;
    onChannel ref (Channel.handleError data)
  else if is_str event "realtime:member_added" && isPresence then
    if negb (isPresenceInfo data) then
      tell (Warn ("PresenceChannel " +:+ quoted (Channel.name ch) +:+
                  " received malformed realtime:member_added payload"))
    else onChannel ref (Channel.handleMemberAdded (asPresenceInfo data))
  else if is_str event "realtime:member_removed" && isPresence then
    if negb (isPresenceMemberRemovedData data) then
      tell (Warn ("PresenceChannel " +:+ quoted (Channel.name ch) +:+
                  " received malformed realtime:member_removed payload"))
    else onChannel ref (Channel.handleMemberRemoved (user_id_of data))
  else
    match event with
    | VStr e => onChannel ref (Channel.handleEvent e data)
    | _ => ret tt   (* no binding has a key that is not a string *)
    end.

Definition handleMessage (msg : value) : Meth unit :=
  let* event := orThrow TypeError (prop msg "event") in
  let* raw := orThrow TypeError (prop msg "data") in
  (* Fire global bindings *)
  let* globalCbs := gets (fun a => match event with
                                   | VStr e => globalBindings a !! e
                                   | _ => None
                                   end) in
  match globalCbs with
  | Some l => let parsed := parseData raw in forEach l (fun f => tell (Global f parsed))
  | None => ret tt
  end ;;
  (* Route to channel *)
  let* chan := orThrow TypeError (prop msg "channel") in
  if truthy chan then
    let* l := gets channels in
    match chan with
    | VStr channelName =>
        match lookup_channel channelName l with
        | Some ref => route channelName ref event (parseData raw)
        | None => ret tt
        end
    | _ => ret tt   (* no channel has a name that is not a string *)
    end
  else ret tt.

(** The two callbacks the constructor hands to the [Connection].  A method of
    the connection is run, and its effects are then taken in order, each
    callback running at the place the connection invoked it.  What a
    callback reads of the connection ([id], and the socket through [send])
    is at that place what it is when the method returns: [socketId] is
    assigned before the state changes, and the socket is replaced or dropped
    only before a state change or after one the client answers without
    reading the connection. *)
Definition connection_effect (e : Connection.effect) : Meth unit :=
  tell (Conn e) ;;
  match e with
  | Connection.OnStateChange prev curr => handleStateChange prev curr
  | Connection.OnMessage msg => handleMessage msg
  | _ => ret tt
  end.

(** [this.connection.m(...)] *)
Definition onConnection {A} (m : Connection.Meth A) : Meth A :=
  let* c := gets connection in
  match m c with
  | (r, c', tr) =>
      modify (set_connection c') ;;
      forEach tr connection_effect ;;
      match r with Done x => ret x | Raised e => raise e end
  end.

(** *** connect, disconnect, socketId, state *)
Definition connect : Meth unit := onConnection Connection.connect.
Definition disconnect : Meth unit := onConnection Connection.disconnect.
Definition socketId (a : t) : value := Connection.id (connection a).
Definition state (a : t) : Connection.ConnectionState :=
  Connection.currentState (connection a).

(** *** subscribe *)
Definition subscribe (channelName : string) : Meth nat :=
  let* l := gets channels in
  match lookup_channel channelName l with
  | Some ref => ret ref
  | None =>
      let isPresence := startsWith "presence-" channelName in
      let channel := if isPresence then Channel.newPresence channelName
                     else Channel.new channelName in
      let* ref := gets nextRef in
      modify (fun a => set_heap (<[ref := channel]> (heap a)) (S ref) a) ;;
      modify (fun a => set_channels (channels a ++ [(channelName, ref)]) a) ;;
      (* Listen for client events triggered via channel.trigger() *)
      onChannel ref (Channel.bind "__internal_trigger" (ForwardTrigger channelName)) ;;
      (* If already connected, subscribe immediately *)
      let* s := gets state in
      (if bool_decide (s = Connection.connected) then sendSubscribe ref else ret tt) ;;
      ret ref
  end.

(** *** unsubscribe *)
Definition unsubscribe (channelName : string) : Meth unit :=
  let* l := gets channels in
  match lookup_channel channelName l with
  | None => ret tt
  | Some ref =>
      connection_send
        (Message "realtime:unsubscribe" None
                 (JSON_stringify (VObj [("channel", VStr channelName)]))) ;;
      pending_delete channelName ;;
      onChannel ref channel_clearPresenceState ;;
      onChannel ref Channel.unbindAll ;;
      modify (fun a => set_channels (delete_channel channelName (channels a)) a)
  end.

(** *** channel *)
Definition channel (channelName : string) (a : t) : option nat :=
  lookup_channel channelName (channels a).

(** *** bind, unbind *)
Definition bind (event : string) (f : EventCallback) : Meth unit :=
  modify (fun a =>
    set_globalBindings
      (<[event := Channel.set_add f (default [] (globalBindings a !! event))]>
         (globalBindings a)) a).

Definition unbind (event : string) (f : option EventCallback) : Meth unit :=
  match f with
  | None => modify (fun a => set_globalBindings (delete event (globalBindings a)) a)
  | Some g =>
      modify (fun a => set_globalBindings
                         (alter (Channel.set_delete g) event (globalBindings a)) a)
  end.

(** *** trigger *)
Definition trigger (channelName event : string) (data : value) : Meth unit :=
  if negb (startsWith "client-" event) then
    raise (Error ("Client events must be prefixed with " +:+ quoted "client-"))
  else
  let* l := gets channels in
  match lookup_channel channelName l with
  | None => raise (Error ("Channel " +:+ quoted channelName +:+ " is not subscribed"))
  | Some ref =>
      let* h := gets heap in
      let* ch := orThrow TypeError (h !! ref) in
      if negb (Channel.subscribed ch) then
        raise (Error ("Channel " +:+ quoted channelName +:+ " is not yet subscribed"))
      else onChannel ref (Channel.trigger event data)
  end.

(** *** What can happen to a client *)
Inductive event :=
| Connect
| Disconnect
| Subscribe (channelName : string)
| Unsubscribe (channelName : string)
| Bind (ev : string) (f : EventCallback)
| Unbind (ev : string) (f : option EventCallback)
| Trigger (channelName ev : string) (data : value)
| ChannelBind (ref : nat) (ev : string) (f : EventCallback)
| Opened
| Frame (text : string)
| Closed
| Elapsed (id : nat)
| AuthSettled (req : nat) (o : authOutcome).

Definition step (e : event) : Meth unit :=
  match e with
  | Connect => connect
  | Disconnect => disconnect
  | Subscribe n => subscribe n ;; ret tt
  | Unsubscribe n => unsubscribe n
  | Bind ev f => bind ev f
  | Unbind ev f => unbind ev f
  | Trigger n ev data => trigger n ev data
  | ChannelBind ref ev f => onChannel ref (Channel.bind ev f)
  | Opened => onConnection (Connection.step Connection.Opened)
  | Frame text => onConnection (Connection.step (Connection.Frame text))
  | Closed => onConnection (Connection.step Connection.Closed)
  | Elapsed i => onConnection (Connection.step (Connection.Elapsed i))
  | AuthSettled req o =>
      let* w := gets awaiting in
      match find (fun rr => bool_decide (rr.1 = req)) w with
      | Some (_, ref) =>
          modify (fun a => set_awaiting (filter (fun rr => rr.1 <> req) (awaiting a))
                                        (nextReq a) a) ;;
          sendSubscribe_resume ref o
      | None => ret tt
      end
  end.

Fixpoint run (es : list event) (a : t) : t * list effect :=
  match es with
  | [] => (a, [])
  | e :: rest =>
      let r := step e a in
      let r' := run rest (stateOf r) in
      (fst r', traceOf r ++ snd r')
  end.
End WithRuntime.

(** *** Reading a trace *)

(** The callbacks channel [ref] called, each with its argument. *)
Definition calls (ref : nat) (tr : list effect) : list (EventCallback * value) :=
  omap (fun e => match e with
                 | Chan r (Channel.Call f data) =>
                     if bool_decide (r = ref) then Some (f, data) else None
                 | _ => None
                 end) tr.

(** The frames written to the socket. *)
Definition frames (tr : list effect) : list value :=
  omap (fun e => match e with Conn (Connection.WsSend msg) => Some msg | _ => None end) tr.

Definition subscribe_frames (tr : list effect) : list value :=
  List.filter (fun msg => match prop msg "event" with
                          | Some event => is_str event "realtime:subscribe"
                          | None => false
                          end) (frames tr).

(** What a step that neither subscribes nor unsubscribes leaves alone: the
    channel map, the allocation counter, and which instances exist under
    which name. *)
Definition keeps (a a' : t) : Prop :=
  channels a' = channels a /\ nextRef a' = nextRef a /\
  forall r, Channel.name <$> heap a' !! r = Channel.name <$> heap a !! r.

(** What [unsubscribe] leaves alone: it only takes entries out of the map. *)
Definition shrinks (a a' : t) : Prop :=
  channels a' `sublist_of` channels a /\ nextRef a' = nextRef a /\
  forall r, Channel.name <$> heap a' !! r = Channel.name <$> heap a !! r.

(** What [unsubscribe n] leaves alone besides: every other name's entry. *)
Definition keeps_others (n : string) (a a' : t) : Prop :=
  forall k, k <> n -> lookup_channel k (channels a') = lookup_channel k (channels a).

(** The channel map holds a name once, and holds it against a live instance
    of that name. *)
Definition registry_ok (a : t) : Prop :=
  NoDup (channels a).*1 /\
  forall n r, (n, r) ∈ channels a ->
    r < nextRef a /\ Channel.name <$> heap a !! r = Some n.

(** The instances created so far that carry the name [n]. *)
Definition instances (n : string) (a : t) : list nat :=
  (map_to_list (filter (fun rc => Channel.name rc.2 = n) (heap a))).*1.

(** The global callbacks a trace called, and the authentication requests
    it made: socket id, channel name and endpoint of each. *)
Definition globals (tr : list effect) : list (EventCallback * value) :=
  omap (fun e => match e with Global f data => Some (f, data) | _ => None end) tr.

Definition fetches (tr : list effect) : list (value * string * string) :=
  omap (fun e => match e with
                 | FetchAuth _ sid n endpoint => Some (sid, n, endpoint)
                 | _ => None
                 end) tr.

Definition global_listeners (a : t) (event : string) : list EventCallback :=
  default [] (globalBindings a !! event).

(** A channel whose subscription is authenticated: private or presence. *)
Definition needs_auth (n : string) : bool :=
  startsWith "private-" n || startsWith "presence-" n.

(** The subscribe and unsubscribe frames of a channel. *)
Definition subscribe_frame `{JSRuntime} (fields : list (string * value)) : value :=
  Message "realtime:subscribe" None (JSON_stringify (VObj fields)).

Definition unsubscribe_frame `{JSRuntime} (n : string) : value :=
  Message "realtime:unsubscribe" None (JSON_stringify (VObj [("channel", VStr n)])).

(** The socket of the client's connection is open. *)
Definition socket_open (a : t) : bool :=
  match Connection.ws (connection a) with
  | Some {| Connection.ready := Connection.OPEN |} => true
  | _ => false
  end.

(** An effect that is not the call of a global callback. *)
Definition not_global (e : effect) : bool :=
  match e with Global _ _ => false | _ => true end.

(** A channel after [clearPresenceState()], if it is a [PresenceChannel];
    as it was otherwise. *)
Definition cleared (ch : Channel.t) : Channel.t :=
  Channel.set_ext (Channel.clearPresenceState <$> Channel.ext ch) ch.

(** A forwarding closure among the callbacks of a channel trace. *)
Definition forwards (e : Channel.effect) : bool :=
  match e with Channel.Call (ForwardTrigger _) _ => true | _ => false end.


End Client.

(** ** A host to run examples on

    [JSON.stringify] on the values the examples use, and [JSON.parse] as its
    inverse on a given list of documents; any other text is a SyntaxError. *)

Module Host.

Definition backslash : string :=
  String (Ascii.Ascii false false true true true false true false) EmptyString.

Fixpoint escape (s : string) : string :=
  match s with
  | EmptyString => EmptyString
  | String c rest =>
      if String.eqb (String c EmptyString) dq then backslash +:+ dq +:+ escape rest
      else if String.eqb (String c EmptyString) backslash
           then backslash +:+ backslash +:+ escape rest
      else String c (escape rest)
  end.

Definition quote (s : string) : string := dq +:+ escape s +:+ dq.

Definition show_number (q : Q) : string :=
  if Pos.eqb (Qden q) 1 then pretty (Qnum q)
  else pretty (Qnum q) +:+ "/" +:+ pretty (Zpos (Qden q)).

Fixpoint stringify (v : value) : string :=
  match v with
  | VUndefined => "undefined"
  | VNull => "null"
  | VBool true => "true"
  | VBool false => "false"
  | VNum q => show_number q
  | VStr s => quote s
  | VArr items =>
      "[" +:+
      (fix go (l : list value) : string :=
         match l with
         | [] => ""
         | x :: rest =>
             match rest with
             | [] => stringify x
             | _ => stringify x +:+ "," +:+ go rest
             end
         end) items +:+ "]"
  | VObj fields =>
      "{" +:+
      (fix go (l : list (string * value)) : string :=
         match l with
         | [] => ""
         | (k, x) :: rest =>
             match rest with
             | [] => quote k +:+ ":" +:+ stringify x
             | _ => quote k +:+ ":" +:+ stringify x +:+ "," +:+ go rest
             end
         end) fields +:+ "}"
  end.

Definition parse_known (docs : list value) (text : string) : option value :=
  find (fun v => String.eqb (stringify v) text) docs.

Definition runtime (docs : list value) : JSRuntime :=
  {| JSON_parse := parse_known docs;
     JSON_stringify := stringify;
     ToString_other := stringify;
     ToNumber_other := fun _ => NaN;
     WebSocket_accepts := fun _ => true |}.

(** The frames and payloads of the examples, as the tests of the repository
    write them. *)

Definition established_data : value :=
  VObj [("socket_id", VStr "123.456"); ("activity_timeout", VNum 5)].

Definition established : value :=
  Message "realtime:connection_established" None (stringify established_data).

Definition pong : value := Message "realtime:pong" None "{}".

Definition fatal_data : value :=
  VObj [("code", VNum 4001); ("message", VStr "App not found")].

Definition fatal : value := Message "realtime:error" None (stringify fatal_data).

Definition alice : PresenceInfo :=
  {| user_id := "1"; user_info := VObj [("name", VStr "Alice")] |}.

Definition snapshot (count_ : Q) (ids_ : list value) (hash_ : list (string * value)) : value :=
  VObj [("presence",
         VObj [("count", VNum count_); ("ids", VArr ids_); ("hash", VObj hash_)])].

Definition alice_alone : value :=
  snapshot 1 [VStr "1"] [("1", VObj [("name", VStr "Alice")])].

Definition room_succeeded : value :=
  Message "realtime:subscription_succeeded" (Some "presence-room") (stringify alice_alone).

Definition room_error : value :=
  Message "realtime:subscription_error" (Some "presence-room") "{}".



Definition docs : list value :=
  [ VObj []; established_data; established; pong; fatal_data; fatal;
    PresenceInfo_value alice; VObj [("user_id", VNum 1)];
    alice_alone; room_succeeded; room_error ].

Definition example : JSRuntime := runtime docs.

(** The same host where [new WebSocket(url)] throws for every url. *)
Definition offline : JSRuntime :=
  {| JSON_parse := parse_known docs;
     JSON_stringify := stringify;
     ToString_other := stringify;
     ToNumber_other := fun _ => NaN;
     WebSocket_accepts := fun _ => false |}.

Definition opts : RealtimeOptions :=
  {| cluster := "eu"; appKey := "test-key"; authEndpoint := None; authHeaders := None |}.

Definition opts_auth : RealtimeOptions :=
  {| cluster := "eu"; appKey := "test-key"; authEndpoint := Some "/auth";
     authHeaders := None |}.

(** A connection that gave up: its socket closed seven times in a row. *)
Definition gave_up : Connection.t :=
  fst (Connection.run (H := example)
         (Connection.Connect :: repeat Connection.Closed 7) (Connection.new opts)).

(** A connection that is established, and a client that is. *)
Definition connected0 : Connection.t :=
  fst (Connection.run (H := example)
         [Connection.Connect; Connection.Opened; Connection.Frame (stringify established)]
         (Connection.new opts)).

Definition client0 : Client.t :=
  fst (Client.run (H := example)
         [Client.Connect; Client.Opened; Client.Frame (stringify established)]
         (Client.new opts_auth)).

(** The same client, with a presence channel registered whose authentication
    is in flight (request 0, instance 0) and a user callback, number 7,
    bound to its subscription errors. *)
Definition awaiting_auth : Client.t :=
  fst (Client.run (H := example)
         [Client.Subscribe "presence-room";
          Client.ChannelBind 0 "realtime:subscription_error" (UserCallback 7)]
         client0).

Definition alice_auth : AuthResponse :=
  {| auth := "key:sig"; channel_data := Some (stringify (PresenceInfo_value alice)) |}.

(** The same client once that authentication has resolved with the identity
    of Alice, and with a global callback, number 3, bound to ["my-event"]. *)
Definition identified : Client.t :=
  fst (Client.run (H := example)
         [Client.AuthSettled 0 (Client.Resolved alice_auth);
          Client.Bind "my-event" (UserCallback 3)]
         awaiting_auth).

End Host.

(** * Facts *)

Import JS Mon Types.

Ltac case_inner :=
  match goal with
  | |- context [match ?x with _ => _ end] =>
      lazymatch x with
      | context [match _ with _ => _ end] => fail
      | _ => destruct x eqn:?
      end
  end.

Ltac unfold_mon :=
  unfold andThen, gets, modify, tell, ret, raise, orThrow, catch,
    stateOf, traceOf, outcomeOf in *.

Set Warnings "-clear-no-such-hyp".

(** ** The laws of the monad *)

Module MonFacts.
Section Laws.
Context {E S : Type}.
Implicit Types (s : S) (e : E).

Lemma run_ret {A B} (a : A) (k : A -> M E S B) s : andThen (ret a) k s = k a s.
Proof. unfold andThen, ret. by destruct (k a s) as [[? ?] ?]. Qed.

Lemma run_gets {A B} (f : S -> A) (k : A -> M E S B) s :
  andThen (gets f) k s = k (f s) s.
Proof. unfold andThen, gets. by destruct (k (f s) s) as [[? ?] ?]. Qed.

Lemma run_modify {B} (f : S -> S) (k : unit -> M E S B) s :
  andThen (modify f) k s = k tt (f s).
Proof. unfold andThen, modify. by destruct (k tt (f s)) as [[? ?] ?]. Qed.

Lemma run_tell {B} e (k : unit -> M E S B) s :
  andThen (tell e) k s =
  (outcomeOf (k tt s), stateOf (k tt s), e :: traceOf (k tt s)).
Proof. unfold andThen, tell. by destruct (k tt s) as [[? ?] ?]. Qed.

Lemma run_raise {A B} (x : exn) (k : A -> M E S B) s :
  andThen (raise x) k s = (Raised x, s, []).
Proof. done. Qed.

Lemma run_some {A B} (x : exn) (a : A) (k : A -> M E S B) s :
  andThen (orThrow x (Some a)) k s = k a s.
Proof. apply run_ret. Qed.

Lemma run_none {A B} (x : exn) (k : A -> M E S B) s :
  andThen (orThrow x None) k s = (Raised x, s, []).
Proof. done. Qed.

Lemma run_assoc {A B C} (m : M E S A) (k : A -> M E S B) (h : B -> M E S C) s :
  andThen (andThen m k) h s = andThen m (fun a => andThen (k a) h) s.
Proof.
  unfold andThen. destruct (m s) as [[[a|x] s1] t1]; [|done].
  destruct (k a s1) as [[[b|y] s2] t2]; [|done].
  destruct (h b s2) as [[? ?] ?]. by rewrite app_assoc.
Qed.

(** Running [m] first, when its result is known. *)
Lemma run_done {A B} (m : M E S A) (k : A -> M E S B) s a s1 t1 :
  m s = (Done a, s1, t1) ->
  andThen m k s = (outcomeOf (k a s1), stateOf (k a s1), t1 ++ traceOf (k a s1)).
Proof. intros Hm. unfold andThen. rewrite Hm. by destruct (k a s1) as [[? ?] ?]. Qed.

Lemma run_raised {A B} (m : M E S A) (k : A -> M E S B) s x s1 t1 :
  m s = (Raised x, s1, t1) -> andThen m k s = (Raised x, s1, t1).
Proof. intros Hm. unfold andThen. by rewrite Hm. Qed.

Lemma andThen_done_inv {A B} (m : M E S A) (k : A -> M E S B) s (y : B) :
  outcomeOf (andThen m k s) = Done y ->
  exists a, outcomeOf (m s) = Done a /\ outcomeOf (k a (stateOf (m s))) = Done y.
Proof.
  unfold andThen, outcomeOf, stateOf. destruct (m s) as [[[a|x] s1] t1]; [|done].
  cbn. destruct (k a s1) as [[r s2] t2] eqn:Hk. cbn. intros ->. exists a.
  split; [done|]. by rewrite Hk.
Qed.

Lemma result_eta {A} (r : outcome A * S * list E) :
  r = (outcomeOf r, stateOf r, traceOf r).
Proof. by destruct r as [[? ?] ?]. Qed.
End Laws.

(** *** Frame reasoning: a relation every step of a computation respects *)
Section Frame.
Context {E S : Type} (R : S -> S -> Prop) `{!Reflexive R, !Transitive R}.

Lemma respects_ret {A} (a : A) : respects (E := E) R (ret a).
Proof. intros s. apply reflexivity. Qed.

Lemma respects_raise {A} (x : exn) : respects (E := E) R (raise (A := A) x).
Proof. intros s. apply reflexivity. Qed.

Lemma respects_gets {A} (f : S -> A) : respects (E := E) R (gets f).
Proof. intros s. apply reflexivity. Qed.

Lemma respects_tell (e : E) : respects (E := E) R (tell e).
Proof. intros s. apply reflexivity. Qed.

Lemma respects_orThrow {A} (x : exn) (o : option A) : respects (E := E) R (orThrow x o).
Proof. destruct o; [apply respects_ret | apply respects_raise]. Qed.

Lemma respects_modify (f : S -> S) : (forall s, R s (f s)) -> respects (E := E) R (modify f).
Proof. intros Hf s. apply Hf. Qed.

Lemma respects_andThen {A B} (m : M E S A) (k : A -> M E S B) :
  respects (E := E) R m -> (forall a, respects (E := E) R (k a)) -> respects (E := E) R (andThen m k).
Proof.
  intros Hm Hk s. specialize (Hm s). unfold andThen, stateOf in *.
  destruct (m s) as [[[a|x] s1] t1]; cbn in *; [|done].
  specialize (Hk a s1). destruct (k a s1) as [[r s2] t2]. cbn in *.
  by etransitivity.
Qed.

Lemma respects_catch {A} (m : M E S A) (h : exn -> M E S A) :
  respects (E := E) R m -> (forall x, respects (E := E) R (h x)) -> respects (E := E) R (catch m h).
Proof.
  intros Hm Hh s. specialize (Hm s). unfold catch, stateOf in *.
  destruct (m s) as [[[a|x] s1] t1]; cbn in *; [done|].
  specialize (Hh x s1). destruct (h x s1) as [[r s2] t2]. cbn in *.
  by etransitivity.
Qed.

Lemma respects_forEach {A} (l : list A) (body : A -> M E S unit) :
  (forall x, respects (E := E) R (body x)) -> respects (E := E) R (forEach l body).
Proof.
  intros Hb. induction l as [|x l IH]; [apply respects_ret|].
  cbn [forEach]. apply respects_andThen; [apply Hb|by intros _].
Qed.
End Frame.

Create Rewrite HintDb mon.
#[export] Hint Rewrite @run_ret @run_gets @run_modify @run_tell @run_raise
  @run_some @run_none : mon.
End MonFacts.

Import MonFacts.

Module ConnectionFacts.
Import Connection.

Ltac unfold_conn :=
  unfold step, onclose, onopen, onmessage, handleMessage, run_callback, connect, send,
    resetActivityTimer, handleDisconnect, disconnect, clearTimers, setState,
    setTimeout, clearTimeout in *.

Ltac crush := unfold_conn; unfold_mon; repeat (cbn in *; try case_inner); cbn in *.

Section Facts.
Context `{JSRuntime}.

Lemma filter_none (l : list timer) (P : timer -> Prop) `{!∀ x, Decision (P x)} :
  (forall tm, tm ∈ l -> ~ P tm) -> filter P l = [].
Proof.
  induction l as [|x l IH]; intros Hl; [done|].
  rewrite filter_cons. destruct (decide (P x)) as [Hp|Hp].
  - exfalso. apply (Hl x); [left | done].
  - apply IH. intros tm Htm. apply Hl. by right.
Qed.

Lemma run_app (es1 es2 : list event) (c : t) :
  run (es1 ++ es2) c =
  (fst (run es2 (fst (run es1 c))), snd (run es1 c) ++ snd (run es2 (fst (run es1 c)))).
Proof.
  revert c. induction es1 as [|e es1 IH]; intros c; cbn.
  - by destruct (run es2 c).
  - rewrite IH. cbn. by rewrite app_assoc.
Qed.

Lemma armed_app (t1 t2 : list effect) : armed (t1 ++ t2) = armed t1 ++ armed t2.
Proof. apply omap_app. Qed.

Lemma cancelled_app (t1 t2 : list effect) :
  cancelled (t1 ++ t2) = cancelled t1 ++ cancelled t2.
Proof. apply omap_app. Qed.

Lemma armed_clear (l : list nat) : armed (ClearTimeout <$> l) = [].
Proof. by induction l. Qed.

Lemma cancelled_clear (l : list nat) : cancelled (ClearTimeout <$> l) = l.
Proof. induction l; cbn; [done|]. by f_equal. Qed.

Lemma clearTimers_run (c : t) :
  clearTimers c = (Done tt, stateOf (clearTimers c), ClearTimeout <$> held c).
Proof. unfold held. crush; done. Qed.

Lemma cleared_fields (c : t) :
  let c' := stateOf (clearTimers c) in
  ws c' = ws c /\ state c' = state c /\ options c' = options c /\
  reconnectAttempts c' = reconnectAttempts c /\ socketId c' = socketId c /\
  nextTimer c' = nextTimer c /\ reconnectTimer c' = None /\ activityTimer c' = None.
Proof. crush; done. Qed.

Lemma cleared_timers (c : t) (tm : timer) :
  tm ∈ timers (stateOf (clearTimers c)) <-> tm ∈ timers c /\ tid tm ∉ held c.
Proof. unfold held. crush; rewrite ?list_elem_of_filter; set_solver. Qed.

Lemma tracked_held (c : t) (tm : timer) :
  tracked c -> tm ∈ timers c -> tid tm ∈ held c.
Proof.
  intros Ht Hin. specialize (Ht tm Hin). unfold held.
  destruct (cb tm); rewrite Ht; cbn; set_solver.
Qed.

Lemma cleared_tracked (c : t) : tracked c -> timers (stateOf (clearTimers c)) = [].
Proof.
  intros Ht. destruct (timers (stateOf (clearTimers c))) as [|tm l] eqn:E; [done|].
  assert (Hin : tm ∈ timers (stateOf (clearTimers c))) by (rewrite E; left).
  apply cleared_timers in Hin as [Hin Hn]. destruct Hn. by apply tracked_held.
Qed.

Lemma held_set_ws (w : option WebSocket) (c : t) : held (set_ws w c) = held c.
Proof. done. Qed.

Arguments clearTimers : simpl never.

(** The state [handleDisconnect] leaves when it schedules an attempt. *)
Lemma handleDisconnect_run (c : t) :
  let c1 := stateOf (clearTimers (set_ws None c)) in
  let n := reconnectAttempts c in
  let tm := {| tid := nextTimer c; delay := Finite (inject_Z (backoff n)); cb := CbReconnect |} in
  handleDisconnect c =
  if decide (state c = disconnected) then (Done tt, c1, ClearTimeout <$> held c)
  else if decide (n < 6) then
    (Done tt,
     set_reconnectTimer (Some (nextTimer c))
       (set_timers (timers c1 ++ [tm]) (S (nextTimer c))
          (set_reconnectAttempts (S n) (set_state connecting c1))),
     (ClearTimeout <$> held c) ++
     (if decide (state c = connecting) then [] else [OnStateChange (state c) connecting]) ++
     [SetTimeout tm])
  else
    (Done tt, set_state unavailable c1,
     (ClearTimeout <$> held c) ++
     (if decide (state c = unavailable) then [] else [OnStateChange (state c) unavailable])).
Proof.
  cbn zeta. unfold handleDisconnect, andThen at 1 2. cbn.
  rewrite clearTimers_run, held_set_ws.
  destruct (cleared_fields (set_ws None c)) as (Hw & Hst & Ho & Hn & Hsid & Hnt & Hr & Ha).
  cbn in *. set (c1 := stateOf (clearTimers (set_ws None c))) in *.
  unfold andThen, gets, setState, setTimeout, modify, tell, ret. cbn.
  rewrite Hst. destruct (decide (state c = disconnected)); cbn; [by rewrite app_nil_r|].
  rewrite Hn. destruct (decide (reconnectAttempts c < 6)); cbn.
  - rewrite Hst. destruct (decide (state c = connecting)); cbn; by rewrite ?Hnt, ?app_nil_r.
  - rewrite Hst. destruct (decide (state c = unavailable)); cbn; by rewrite ?app_nil_r.
Qed.



Lemma tracked_filter (c : t) (i : nat) :
  tracked c -> tracked (set_timers (filter (fun tm => tid tm <> i) (timers c)) (nextTimer c) c).
Proof.
  intros Ht tm Htm. cbn in Htm. apply list_elem_of_filter in Htm as [_ Htm].
  by apply (Ht tm).
Qed.



Lemma opened_clear (l : list nat) (tr : list effect) :
  opened_sockets ((ClearTimeout <$> l) ++ tr) = opened_sockets tr.
Proof. induction l; cbn; done. Qed.




Lemma backoff_table :
  backoff <$> [0; 1; 2; 3; 4; 5] = [1000; 2000; 4000; 8000; 16000; 30000]%Z.
Proof. reflexivity. Qed.

Lemma cleared_nil (c : t) : timers c = [] -> timers (stateOf (clearTimers c)) = [].
Proof.
  intros Ht. destruct (timers (stateOf (clearTimers c))) as [|tm l] eqn:E; [done|].
  assert (Hin : tm ∈ timers (stateOf (clearTimers c))) by (rewrite E; left).
  apply cleared_timers in Hin as [Hin _]. rewrite Ht in Hin. by apply not_elem_of_nil in Hin.
Qed.

Lemma disconnect_run (c : t) :
  let c1 := stateOf (clearTimers c) in
  disconnect c =
  (Done tt,
   match ws c with
   | Some _ => set_ws None (set_state disconnected c1)
   | None => set_state disconnected c1
   end,
   (ClearTimeout <$> held c) ++
   (if decide (state c = disconnected) then [] else [OnStateChange (state c) disconnected]) ++
   match ws c with
   | Some _ => [WsClose (Some (1000%Z, "client disconnect"))]
   | None => []
   end).
Proof.
  cbn zeta. unfold disconnect, andThen at 1. rewrite clearTimers_run.
  destruct (cleared_fields c) as (Hw & Hst & Ho & Hn & Hsid & Hnt & Hr & Ha).
  unfold andThen, gets, setState, modify, tell, ret. cbn.
  rewrite Hst. destruct (decide (state c = disconnected)); cbn;
    rewrite Hw; destruct (ws c); cbn; by rewrite ?app_nil_r.
Qed.

Lemma forwarded_app (t1 t2 : list effect) :
  forwarded (t1 ++ t2) = forwarded t1 ++ forwarded t2.
Proof. apply omap_app. Qed.

Lemma forwarded_clear (l : list nat) (tr : list effect) :
  forwarded ((ClearTimeout <$> l) ++ tr) = forwarded tr.
Proof. induction l; cbn; done. Qed.

Lemma is_str_other (v : value) (s1 s2 : string) :
  s1 <> s2 -> is_str v s1 = true -> is_str v s2 = false.
Proof.
  destruct v; try done. cbn. intros Hne Heq. apply String.eqb_eq in Heq. subst.
  by apply String.eqb_neq.
Qed.

Lemma prop_total (v : value) (k k' : string) :
  is_Some (prop v k) -> is_Some (prop v k').
Proof. destruct v; cbn; intros [? ?]; by eauto. Qed.

Lemma resetActivityTimer_done (timeout : value) (c : t) :
  outcomeOf (resetActivityTimer timeout c) = Done tt.
Proof. crush; done. Qed.

Lemma setState_run (s : ConnectionState) (c : t) :
  setState s c =
  (Done tt, set_state s c, if decide (state c = s) then [] else [OnStateChange (state c) s]).
Proof. unfold setState. rewrite run_gets, run_modify. by destruct (decide (state c = s)). Qed.

(** *** [handleMessage], by the kind of the frame *)
Lemma handleMessage_classify (msg : value) (c : t) :
  handleMessage msg c =
  match classify msg with
  | Throws e => (Raised e, c, [])
  | Establishes sid timeout =>
      let r := resetActivityTimer timeout (set_state connected (set_socketId sid c)) in
      (Done tt, stateOf r,
       (if decide (state c = connected) then [] else [OnStateChange (state c) connected])
       ++ traceOf r ++ [OnMessage msg])
  | Fatal => (Done tt, stateOf (disconnect c), traceOf (disconnect c))
  | Forward => (Done tt, c, [OnMessage msg])
  end.
Proof.
  unfold handleMessage, classify, decoded.
  destruct (prop msg "event") as [event|] eqn:He; [|done].
  destruct (prop_total msg "event" "data" ltac:(eauto)) as [raw Hraw].
  rewrite run_some, Hraw. cbn [mbind option_bind].
  destruct (is_str event "realtime:connection_established") eqn:E1.
  { rewrite !run_assoc, run_some.
    destruct (parse raw) as [data|]; [|done]. rewrite !run_assoc, run_some.
    destruct (prop data "socket_id") as [sid|] eqn:Hsid; [|done].
    destruct (prop_total data "socket_id" "activity_timeout" ltac:(eauto)) as [at_ Hat].
    rewrite Hat, !run_assoc, run_some, !run_assoc, run_modify, !run_assoc, run_some.
    rewrite !run_assoc. erewrite run_done by apply setState_run. rewrite !run_assoc.
    set (c2 := set_state connected (set_socketId sid c)).
    set (timeout := if truthy at_ then at_ else VNum 120).
    pose proof (resetActivityTimer_done timeout c2) as Hd.
    erewrite run_done; [|rewrite (result_eta (resetActivityTimer timeout c2)), Hd; reflexivity].
    rewrite run_ret. cbn. by rewrite ?app_nil_r. }
  destruct (is_str event "realtime:pong") eqn:E2; [by rewrite run_ret|].
  destruct (is_str event "realtime:error") eqn:E3; [|by rewrite run_ret].
  rewrite !run_assoc, run_some.
  destruct (parse raw) as [data|]; [|done]. rewrite !run_assoc, run_some.
  destruct (prop data "code") as [code|]; [|done]. rewrite !run_assoc, run_some.
  destruct (between 4000 4004 code); [|by rewrite run_ret].
  rewrite run_assoc. erewrite run_done by apply disconnect_run. rewrite run_ret. cbn.
  rewrite disconnect_run. cbn. by rewrite !app_nil_r.
Qed.

(** *** The other methods, in closed form *)

Lemma handleDisconnect_done (c : t) : outcomeOf (handleDisconnect c) = Done tt.
Proof. rewrite handleDisconnect_run. cbn zeta. by repeat case_decide. Qed.

Lemma resetActivityTimer_run (timeout : value) (c : t) :
  let tm := {| tid := nextTimer c; delay := millis timeout; cb := CbPing |} in
  resetActivityTimer timeout c =
  (Done tt,
   set_activityTimer (Some (nextTimer c))
     (set_timers
        (match activityTimer c with
         | Some i => filter (fun tm => tid tm <> i) (timers c)
         | None => timers c
         end ++ [tm])
        (S (nextTimer c)) c),
   match activityTimer c with Some i => [ClearTimeout i] | None => [] end
   ++ [SetTimeout tm]).
Proof. cbn zeta. unfold resetActivityTimer. crush; done. Qed.

Lemma connect_run (c : t) :
  connect c =
  if bool_decide (state c = connected) || bool_decide (state c = connecting)
  then (Done tt, c, [])
  else
    let c1 := set_state connecting c in
    let u := socket_url c in
    if WebSocket_accepts u
    then (Done tt, set_ws (Some {| url := u; ready := CONNECTING |}) c1,
          [OnStateChange (state c) connecting; NewWebSocket u])
    else (Done tt, stateOf (handleDisconnect c1),
          OnStateChange (state c) connecting :: NewWebSocket u
          :: traceOf (handleDisconnect c1)).
Proof.
  unfold connect. rewrite run_gets.
  destruct (bool_decide (state c = connected) || bool_decide (state c = connecting)) eqn:E;
    [done|].
  apply orb_false_iff in E as [_ E]. apply bool_decide_eq_false in E.
  erewrite run_done by apply setState_run. rewrite run_gets, run_tell. cbn zeta.
  rewrite decide_False by done. change (socket_url (set_state connecting c)) with (socket_url c).
  destruct (WebSocket_accepts (socket_url c)); [done|].
  pose proof (handleDisconnect_done (set_state connecting c)) as Hd.
  rewrite (result_eta (handleDisconnect (set_state connecting c))), Hd. done.
Qed.

Lemma send_state (msg : value) (c : t) : stateOf (send msg c) = c.
Proof. crush; done. Qed.

(** *** The invariant of the timer table *)

Lemma tracked_nil (c : t) : timers c = [] -> wf c.
Proof.
  intros Ht. split; intros tm Htm; rewrite Ht in Htm; by apply not_elem_of_nil in Htm.
Qed.

Lemma wf_same_timers (c c' : t) :
  timers c' = timers c -> reconnectTimer c' = reconnectTimer c ->
  activityTimer c' = activityTimer c -> state c' = state c ->
  wf c -> wf c'.
Proof.
  intros Ht Hr Ha Hs [Htr Hok]. split.
  - intros tm Htm. rewrite Ht in Htm. specialize (Htr tm Htm). by rewrite Hr, Ha.
  - intros tm Htm Hcb. rewrite Ht in Htm. rewrite Hs. by apply (Hok tm).
Qed.

Lemma wf_filter (c : t) (i : nat) :
  wf c -> wf (set_timers (filter (fun tm => tid tm <> i) (timers c)) (nextTimer c) c).
Proof.
  intros [Htr Hok]. split; [by apply tracked_filter|].
  intros tm Htm Hcb. cbn in Htm. apply list_elem_of_filter in Htm as [_ Htm].
  by apply (Hok tm).
Qed.

Lemma wf_handleDisconnect (c : t) : wf c -> wf (stateOf (handleDisconnect c)).
Proof.
  intros [Htr Hok]. rewrite handleDisconnect_run. cbn zeta.
  destruct (cleared_fields (set_ws None c)) as (Hw & Hst & Ho & Hn & Hsid & Hnt & Hr & Ha).
  pose proof (cleared_tracked (set_ws None c) Htr) as Hc.
  repeat case_decide; cbn [stateOf fst snd]; try (by apply tracked_nil).
  all: rewrite Hc; split; intros tm Htm;
    cbn [timers set_reconnectTimer set_timers set_reconnectAttempts set_state app] in Htm;
    apply list_elem_of_singleton in Htm as ->; cbn; auto.
Qed.

Lemma wf_disconnect (c : t) : wf c -> wf (stateOf (disconnect c)).
Proof.
  intros [Htr Hok]. rewrite disconnect_run. cbn zeta.
  pose proof (cleared_tracked c Htr) as Hc.
  apply tracked_nil. by destruct (ws c).
Qed.

Lemma wf_connect (c : t) : wf c -> wf (stateOf (connect c)).
Proof.
  intros Hwf. rewrite connect_run.
  destruct (bool_decide (state c = connected) || bool_decide (state c = connecting));
    [done|].
  assert (wf (set_state connecting c)) as Hwf1.
  { destruct Hwf as [Htr Hok]. split; [done|]. intros tm _ _. by left. }
  cbn zeta. destruct (WebSocket_accepts _); cbn [stateOf fst snd].
  - revert Hwf1. by apply wf_same_timers.
  - by apply wf_handleDisconnect.
Qed.

Lemma wf_resetActivityTimer (timeout : value) (c : t) :
  wf c -> state c = connected -> wf (stateOf (resetActivityTimer timeout c)).
Proof.
  intros [Htr Hok] Hs. rewrite resetActivityTimer_run. cbn zeta. cbn [stateOf fst snd].
  split.
  - intros tm Htm. cbn in Htm. apply elem_of_app in Htm as [Htm|Htm].
    + assert (tm ∈ timers c /\ activityTimer c <> Some (tid tm)) as [Hin Hne].
      { destruct (activityTimer c); [|done].
        apply list_elem_of_filter in Htm as [? ?]. split; [done|congruence]. }
      specialize (Htr tm Hin). cbn. by destruct (cb tm).
    + by apply list_elem_of_singleton in Htm as ->.
  - intros tm _ _. cbn. by right.
Qed.

Lemma wf_run_callback (c : t) (tm : timer) (l : list timer) :
  wf c -> tm ∈ timers c ->
  wf (stateOf (run_callback (cb tm)
                 (set_timers (filter (fun x => tid x <> tid tm) (timers c)) (nextTimer c) c))).
Proof.
  intros Hwf Hin. pose proof (wf_filter c (tid tm) Hwf) as Hf.
  destruct (cb tm) eqn:Hcb; cbn [run_callback].
  - by apply wf_connect.
  - destruct Hwf as [Htr Hok]. crush.
    all: split; [|intros x Hx Hk; cbn in *; apply elem_of_app in Hx as [Hx|Hx];
                   [apply list_elem_of_filter in Hx as [_ Hx]; by apply (Hok x)
                   |by apply list_elem_of_singleton in Hx as ->]].
    all: intros x Hx; cbn in *; apply elem_of_app in Hx as [Hx|Hx];
      [|by apply list_elem_of_singleton in Hx as ->].
    all: apply list_elem_of_filter in Hx as [Hne Hx].
    all: pose proof (Htr tm Hin) as Htm; rewrite Hcb in Htm.
    all: specialize (Htr x Hx); destruct (cb x); try done; congruence.
  - crush; revert Hf; by apply wf_same_timers.
Qed.

Lemma wf_step (e : event) (c : t) : wf c -> wf (stateOf (step e c)).
Proof.
  intros Hwf. destruct e; cbn [step].
  - by apply wf_connect.
  - by apply wf_disconnect.
  - by rewrite send_state.
  - unfold onopen. rewrite !run_modify. cbn. revert Hwf. by apply wf_same_timers.
  - unfold onmessage. destruct (JSON_parse text) as [msg|]; [|done].
    rewrite handleMessage_classify. destruct (classify msg); cbn [stateOf fst snd]; try done.
    + apply wf_resetActivityTimer; [|done]. destruct Hwf as [Htr Hok].
      split; [done|]. intros tm _ _. by right.
    + by apply wf_disconnect.
  - by apply wf_handleDisconnect.
  - rewrite run_gets.
    destruct (find _ (timers c)) as [tm|] eqn:Hf; [|done].
    apply find_some in Hf as [Hin Hid]. apply list_elem_of_In in Hin.
    apply bool_decide_eq_true in Hid. subst id0.
    rewrite run_modify. by apply (wf_run_callback c tm []).
Qed.

Lemma wf_new (o : RealtimeOptions) : wf (new o).
Proof. by apply tracked_nil. Qed.

Lemma wf_run (es : list event) (c : t) : wf c -> wf (fst (run es c)).
Proof.
  revert c. induction es as [|e es IH]; intros c Hwf; [done|].
  cbn. apply IH. by apply wf_step.
Qed.

(** *** Once disconnected *)

Lemma closes_clear (l : list nat) (tr : list effect) :
  closes ((ClearTimeout <$> l) ++ tr) = closes tr.
Proof. induction l; cbn; done. Qed.

Lemma armed_clear_app (l : list nat) (tr : list effect) :
  armed ((ClearTimeout <$> l) ++ tr) = armed tr.
Proof. by rewrite armed_app, armed_clear. Qed.

Lemma at_rest_step (e : event) (c : t) :
  at_rest c -> after_disconnect e = true ->
  at_rest (stateOf (step e c)) /\ armed (traceOf (step e c)) = [] /\
  opened_sockets (traceOf (step e c)) = [].
Proof.
  intros [Hs Ht] He. destruct e; try done; cbn [step].
  - rewrite disconnect_run. cbn zeta. cbn [stateOf traceOf fst snd].
    destruct (cleared_fields c) as (Hw & Hst & Ho & Hn & Hsid & Hnt & Hr & Ha).
    pose proof (cleared_nil c Ht) as Hc.
    rewrite armed_clear_app, opened_clear, decide_True by done.
    by destruct (ws c).
  - rewrite send_state. split; [done|]. crush; done.
  - unfold onclose. rewrite handleDisconnect_run. cbn zeta.
    destruct (cleared_fields (set_ws None c)) as (Hw & Hst & Ho & Hn & Hsid & Hnt & Hr & Ha).
    pose proof (cleared_nil (set_ws None c) Ht) as Hc.
    rewrite decide_True by done. cbn [stateOf traceOf fst snd].
    rewrite <- (app_nil_r (ClearTimeout <$> held c)), armed_clear_app, opened_clear.
    split; [|done]. split; [by rewrite Hst|done].
  - rewrite run_gets, Ht. done.
Qed.

Lemma at_rest_run (es : list event) (c : t) :
  at_rest c -> forallb after_disconnect es = true ->
  at_rest (fst (run es c)) /\ armed (snd (run es c)) = [] /\
  opened_sockets (snd (run es c)) = [].
Proof.
  revert c. induction es as [|e es IH]; intros c Hr Hall; [done|].
  cbn [forallb] in Hall. apply andb_true_iff in Hall as [He Hall].
  destruct (at_rest_step e c Hr He) as (Hr1 & Ha1 & Ho1).
  destruct (IH _ Hr1 Hall) as (Hr2 & Ha2 & Ho2).
  cbn [run fst snd]. unfold opened_sockets in *.
  by rewrite armed_app, omap_app, Ha1, Ha2, Ho1, Ho2.
Qed.

Lemma classify_fatal (msg raw data : value) (q : Q) :
  prop msg "event" = Some (VStr "realtime:error") ->
  prop msg "data" = Some raw -> parse raw = Some data ->
  prop data "code" = Some (VNum q) -> (4000 <= q)%Q -> (q <= 4004)%Q ->
  classify msg = Fatal.
Proof.
  intros He Hraw Hdata Hcode Hlo Hhi. unfold classify, decoded.
  rewrite He, Hraw. cbn. rewrite Hdata, Hcode. unfold between. cbn.
  apply Qle_bool_iff in Hlo, Hhi. by rewrite Hlo, Hhi.
Qed.

(** *** What a frame does, step by step *)

Lemma handleMessage_plain (msg event : value) (c : t) :
  prop msg "event" = Some event ->
  is_str event "realtime:connection_established" = false ->
  is_str event "realtime:error" = false ->
  handleMessage msg c = (Done tt, c, [OnMessage msg]).
Proof.
  intros He E1 E3. rewrite handleMessage_classify. unfold classify.
  rewrite He, E1, E3. by destruct (is_str event "realtime:pong").
Qed.

Lemma frame_step (c : t) (text : string) (msg : value) :
  JSON_parse text = Some msg ->
  step (Frame text) c = handleMessage msg c.
Proof. intros Hp. cbn [step]. unfold onmessage. by rewrite Hp. Qed.

(** A frame that is neither connection-established nor an error changes
    nothing in the connection, its timers included, and is forwarded. *)
Lemma plain_frame_changes_nothing (c : t) (text : string) (msg event : value) :
  JSON_parse text = Some msg ->
  prop msg "event" = Some event ->
  is_str event "realtime:connection_established" = false ->
  is_str event "realtime:error" = false ->
  step (Frame text) c = (Done tt, c, [OnMessage msg]).
Proof.
  intros Hp He E1 E3. rewrite (frame_step c text msg Hp).
  by apply (handleMessage_plain msg event).
Qed.

Lemma classify_fatal_iff (msg : value) :
  classify msg = Fatal <->
  exists event data code,
    prop msg "event" = Some event /\ is_str event "realtime:error" = true /\
    decoded msg = Some data /\ prop data "code" = Some code /\
    between 4000 4004 code = true.
Proof.
  unfold classify. split.
  - destruct (prop msg "event") as [event|]; [|done].
    destruct (is_str event "realtime:connection_established") eqn:E1.
    { destruct (decoded msg) as [data|]; [|done].
      by destruct (prop data "socket_id"), (prop data "activity_timeout"). }
    destruct (is_str event "realtime:pong"); [done|].
    destruct (is_str event "realtime:error") eqn:E3; [|done].
    destruct (decoded msg) as [data|]; [|done].
    destruct (prop data "code") as [code|] eqn:Hcode; [|done].
    destruct (between 4000 4004 code) eqn:Hb; [|done].
    intros _. exists event, data, code. by repeat split.
  - intros (event & data & code & -> & E3 & -> & -> & ->).
    rewrite (is_str_other event "realtime:error" "realtime:connection_established"
               ltac:(done) E3).
    by rewrite (is_str_other event "realtime:error" "realtime:pong" ltac:(done) E3), E3.
Qed.

(** *** The identifier *)

Lemma socketId_handleDisconnect (c : t) :
  socketId (stateOf (handleDisconnect c)) = socketId c.
Proof.
  rewrite handleDisconnect_run. cbn zeta.
  destruct (cleared_fields (set_ws None c)) as (_ & _ & _ & _ & Hsid & _).
  by repeat case_decide.
Qed.

Lemma socketId_disconnect (c : t) : socketId (stateOf (disconnect c)) = socketId c.
Proof.
  rewrite disconnect_run. cbn zeta.
  destruct (cleared_fields c) as (_ & _ & _ & _ & Hsid & _). by destruct (ws c).
Qed.

Lemma socketId_connect (c : t) : socketId (stateOf (connect c)) = socketId c.
Proof.
  rewrite connect_run.
  destruct (bool_decide (state c = connected) || bool_decide (state c = connecting));
    [done|].
  cbn zeta. destruct (WebSocket_accepts _); [done|].
  cbn [stateOf fst snd]. by rewrite socketId_handleDisconnect.
Qed.

Lemma socketId_step (c : t) (e : event) :
  id (stateOf (step e c)) =
  match e with
  | Frame text => default (id c) (establishes text)
  | _ => id c
  end.
Proof.
  unfold id. destruct e; cbn [step].
  - apply socketId_connect.
  - apply socketId_disconnect.
  - by rewrite send_state.
  - unfold onopen. by rewrite !run_modify.
  - unfold onmessage, establishes. destruct (JSON_parse text) as [msg|]; [|done].
    rewrite handleMessage_classify. cbn [mbind option_bind].
    destruct (classify msg); cbn [stateOf fst snd default]; try done.
    + by rewrite resetActivityTimer_run.
    + apply socketId_disconnect.
  - apply socketId_handleDisconnect.
  - rewrite run_gets. destruct (find _ (timers c)) as [tm|]; [|done].
    rewrite run_modify. destruct (cb tm); cbn [run_callback].
    + by rewrite socketId_connect.
    + crush; done.
    + crush; done.
Qed.

Lemma socketId_run (es : list event) (c : t) :
  id (fst (run es c)) = last_established es (id c).
Proof.
  revert c. induction es as [|e es IH]; intros c; [done|].
  cbn [run fst]. rewrite IH, socketId_step. by destruct e.
Qed.

Lemma last_established_null (es : list event) (before : value) :
  (forall text sid, Frame text ∈ es -> establishes text = Some sid -> sid <> VNull) ->
  last_established es before = VNull <->
  before = VNull /\ forall text, Frame text ∈ es -> establishes text = None.
Proof.
  revert before. induction es as [|e es IH]; intros before Hty.
  - cbn. split; [intros ->; split; [done|]; intros ? Hin; by apply not_elem_of_nil in Hin
                |by intros [-> _]].
  - assert (Hty' : forall text sid, Frame text ∈ es -> establishes text = Some sid -> sid <> VNull).
    { intros text sid Hin. apply Hty. by right. }
    destruct e; cbn [last_established]; rewrite IH by done.
    1-4, 6-7: (split; intros [Hb Hall]; (split; [done|]); intros text Hin;
               [apply elem_of_cons in Hin as [Heq|Hin]; [done|by apply Hall]
               |apply Hall; by right]).
    destruct (establishes text) as [sid|] eqn:Hest; cbn [default from_option Datatypes.id].
    + split.
      * intros [-> _]. by destruct (Hty text VNull ltac:(left) Hest).
      * intros [_ Hall]. specialize (Hall text ltac:(left)). congruence.
    + split; intros [Hb Hall]; (split; [done|]); intros text' Hin.
      * apply elem_of_cons in Hin as [Heq|Hin]; [congruence|by apply Hall].
      * apply Hall. by right.
Qed.


(** C2. A [realtime:error] frame whose payload carries a number between
    4000 and 4004 takes the path of [disconnect()]: the handles held are
    cancelled and no timer stays pending, the state becomes [disconnected],
    the socket (if there is one) is closed with code 1000 and dropped, and
    nothing is armed or opened, then or later: whatever closes, expired
    delays, sends or further [disconnect()] calls follow, the state stays
    [disconnected] and no timer and no socket is created. *)
Theorem fatal_error_disconnects (c : t) (text : string) (msg raw data : value) (q : Q) :
  wf c ->
  JSON_parse text = Some msg ->
  prop msg "event" = Some (VStr "realtime:error") ->
  prop msg "data" = Some raw -> parse raw = Some data ->
  prop data "code" = Some (VNum q) -> (4000 <= q)%Q -> (q <= 4004)%Q ->
  let r := step (Frame text) c in
  let c' := stateOf r in
  r = step Disconnect c /\ outcomeOf r = Done tt /\
  cancelled (traceOf r) = held c /\
  reconnectTimer c' = None /\ activityTimer c' = None /\ timers c' = [] /\
  state c' = disconnected /\
  closes (traceOf r) =
    match ws c with
    | Some _ => [Some (1000%Z, "client disconnect")]
    | None => []
    end /\
  ws c' = None /\
  armed (traceOf r) = [] /\ opened_sockets (traceOf r) = [] /\
  forall es, forallb after_disconnect es = true ->
    let r' := run es c' in
    state (fst r') = disconnected /\ timers (fst r') = [] /\
    armed (snd r') = [] /\ opened_sockets (snd r') = [].
Proof.
  intros [Htr Hok] Hp He Hraw Hdata Hcode Hlo Hhi. cbn zeta.
  cbn [step]. unfold onmessage. rewrite Hp, handleMessage_classify.
  rewrite (classify_fatal msg raw data q He Hraw Hdata Hcode Hlo Hhi).
  rewrite disconnect_run. cbn zeta. cbn [stateOf traceOf outcomeOf fst snd].
  destruct (cleared_fields c) as (Hw & Hst & Ho & Hn & Hsid & Hnt & Hr & Ha).
  pose proof (cleared_tracked c Htr) as Hc.
  rewrite cancelled_app, cancelled_clear, armed_clear_app, opened_clear, closes_clear.
  assert (Hrest : at_rest match ws c with
                          | Some _ => set_ws None (set_state disconnected (stateOf (clearTimers c)))
                          | None => set_state disconnected (stateOf (clearTimers c))
                          end) by (by destruct (ws c)).
  split; [done|]. split; [done|].
  split; [by destruct (decide (state c = disconnected)), (ws c); rewrite app_nil_r|].
  split; [by destruct (ws c)|]. split; [by destruct (ws c)|]. split; [by destruct (ws c)|].
  split; [by destruct (ws c)|].
  split; [by destruct (decide (state c = disconnected)), (ws c)|].
  split; [destruct (ws c); [done|exact Hw]|].
  split; [by destruct (decide (state c = disconnected)), (ws c)|].
  split; [by destruct (decide (state c = disconnected)), (ws c)|].
  intros es Hall. destruct (at_rest_run es _ Hrest Hall) as ([? ?] & ? & ?). done.
Qed.

(** What becomes of a scheduled reconnection attempt: when the delay runs
    out, [connect()] finds the state [connecting] (or [connected]) and
    returns at once; no socket is opened and nothing else changes. *)
Lemma scheduled_reconnect_opens_no_socket (o : RealtimeOptions) (es : list event)
    (i : nat) (tm : timer) :
  let c := fst (run es (new o)) in
  find (fun x => bool_decide (tid x = i)) (timers c) = Some tm ->
  cb tm = CbReconnect ->
  let r := step (Elapsed i) c in
  traceOf r = [] /\ ws (stateOf r) = ws c /\ state (stateOf r) = state c.
Proof.
  cbn zeta. intros Hf Hcb.
  destruct (wf_run es (new o) (wf_new o)) as [_ Hok].
  pose proof Hf as Hf'. apply find_some in Hf' as [Hin _]. apply list_elem_of_In in Hin.
  specialize (Hok tm Hin Hcb).
  cbn [step]. rewrite run_gets, Hf, run_modify, Hcb. cbn [run_callback].
  rewrite connect_run. cbn [state set_timers].
  destruct Hok as [Hs | Hs]; rewrite Hs; repeat case_bool_decide; done.
Qed.

(** C4, as amended. A text frame that does not parse as JSON is dropped
    without a trace.  For one that parses, the message callback is invoked
    exactly once, with the decoded frame, when handling it completes and the
    frame is not a fatal error; it is not invoked when handling throws or the
    frame is a [realtime:error] with a code between 4000 and 4004.  Pong,
    decodable connection-established and non-fatal error frames are
    forwarded. *)
Theorem decoded_frame_forwarding (c : t) (text : string) :
  let r := step (Frame text) c in
  (JSON_parse text = None -> r = (Done tt, c, [])) /\
  (forall msg, JSON_parse text = Some msg ->
     forwarded (traceOf r) =
       match outcomeOf r with
       | Done _ => if fatal msg then [] else [msg]
       | Raised _ => []
       end /\
     (forall e, outcomeOf r = Raised e <-> classify msg = Throws e) /\
     (fatal msg = true <->
        exists event data code,
          prop msg "event" = Some event /\ is_str event "realtime:error" = true /\
          decoded msg = Some data /\ prop data "code" = Some code /\
          between 4000 4004 code = true) /\
     (fatal msg = true -> state (stateOf r) = disconnected) /\
     (forall event, prop msg "event" = Some event ->
        is_str event "realtime:pong" = true -> r = (Done tt, c, [OnMessage msg])) /\
     (forall sid timeout, classify msg = Establishes sid timeout ->
        outcomeOf r = Done tt /\ forwarded (traceOf r) = [msg]) /\
     (forall event data code,
        prop msg "event" = Some event -> is_str event "realtime:error" = true ->
        decoded msg = Some data -> prop data "code" = Some code ->
        between 4000 4004 code = false -> r = (Done tt, c, [OnMessage msg]))).
Proof.
  cbn zeta. split.
  { intros Hp. cbn [step]. unfold onmessage. by rewrite Hp. }
  intros msg Hp. rewrite (frame_step c text msg Hp), handleMessage_classify.
  unfold fatal. split; [|split; [|split; [|split; [|split; [|split]]]]].
  - destruct (classify msg); cbn [traceOf outcomeOf fst snd]; try done.
    + rewrite resetActivityTimer_run. cbn zeta. cbn [traceOf snd].
      rewrite !forwarded_app. by destruct (decide _), (activityTimer _).
    + rewrite disconnect_run. cbn zeta. cbn [traceOf snd].
      rewrite forwarded_clear. by destruct (decide _), (ws c).
  - intros e. destruct (classify msg); cbn [outcomeOf fst]; split; congruence.
  - rewrite <- classify_fatal_iff. by destruct (classify msg).
  - destruct (classify msg); try done. intros _. cbn [stateOf fst snd].
    rewrite disconnect_run. cbn zeta. by destruct (ws c).
  - intros event He E2. rewrite <- handleMessage_classify.
    apply (handleMessage_plain msg event c He).
    + apply (is_str_other event "realtime:pong"); done.
    + apply (is_str_other event "realtime:pong"); done.
  - intros sid timeout ->. split; [done|]. cbn [traceOf snd].
    rewrite resetActivityTimer_run. cbn zeta. cbn [traceOf snd].
    rewrite !forwarded_app. by destruct (decide _), (activityTimer _).
  - intros event data code He E3 Hd Hcode Hb. unfold classify.
    rewrite He, (is_str_other event "realtime:error" "realtime:connection_established"
                   ltac:(done) E3).
    by rewrite (is_str_other event "realtime:error" "realtime:pong" ltac:(done) E3),
         E3, Hd, Hcode, Hb.
Qed.

(** C10. The identifier is [null] on a new connection; no event changes it
    but a connection-established frame that [handleMessage] decodes, which
    stores the frame's [socket_id]: [disconnect()], an unexpected close, an
    expired timer, [connect()] and every other frame leave it as it was, so
    at any point of a run, the state [unavailable] included, the accessor
    returns the identifier of the last establishment.  Frames carrying an
    identifier that is not [null], the accessor returns [null] only as long
    as no frame of the run has established a connection. *)
Theorem socketId_is_never_cleared :
  (forall o, id (new o) = VNull) /\
  (forall c e,
     id (stateOf (step e c)) =
     match e with
     | Frame text => default (id c) (establishes text)
     | _ => id c
     end) /\
  (forall c, id (stateOf (step Disconnect c)) = id c /\
             id (stateOf (step Closed c)) = id c) /\
  (forall o es, id (fst (run es (new o))) = last_established es VNull) /\
  (forall o es,
     (forall text sid, Frame text ∈ es -> establishes text = Some sid -> sid <> VNull) ->
     id (fst (run es (new o))) = VNull <->
     forall text, Frame text ∈ es -> establishes text = None).
Proof.
  split; [done|]. split; [apply socketId_step|].
  split; [intros c; split; apply (socketId_step c)|].
  split; [intros o es; apply socketId_run|].
  intros o es Hty. rewrite socketId_run, (last_established_null es _ Hty). cbn. tauto.
Qed.

End Facts.

(** *** On the example host *)

(** C2 at the frame of the test suite, code 4001, on a connected client. *)
Lemma fatal_error_disconnects_witness :
  let r := step (H := Host.example) (Frame (Host.stringify Host.fatal)) Host.connected0 in
  state (stateOf r) = disconnected /\ timers (stateOf r) = [] /\
  closes (traceOf r) = [Some (1000%Z, "client disconnect")] /\ armed (traceOf r) = [].
Proof.
  cbn zeta.
  destruct (fatal_error_disconnects (H := Host.example) Host.connected0
              (Host.stringify Host.fatal) Host.fatal
              (VStr (Host.stringify Host.fatal_data)) Host.fatal_data 4001)
    as (_ & _ & _ & _ & _ & Ht & Hs & Hc & _ & Ha & _).
  - apply (wf_run (H := Host.example)), wf_new.
  - by vm_compute.
  - by vm_compute.
  - by vm_compute.
  - by vm_compute.
  - by vm_compute.
  - unfold Qle; cbn; lia.
  - unfold Qle; cbn; lia.
  - split; [exact Hs|]. split; [exact Ht|]. split; [exact Hc|exact Ha].
Defined.

(** C3, what the code does: the ping has been sent and the grace timer (id 2,
    30000 ms) is pending; a pong arrives and is forwarded, but the frame
    changes nothing in the connection: no timer is cancelled or armed, and
    when the 30000 ms run out the socket is closed all the same. *)
Theorem pong_leaves_grace_timer_running :
  let pinged :=
    fst (run (H := Host.example)
           [Connect; Opened; Frame (Host.stringify Host.established); Elapsed 1]
           (new Host.opts)) in
  let r := step (H := Host.example) (Frame (Host.stringify Host.pong)) pinged in
  timers pinged = [{| tid := 2; delay := Finite 30000; cb := CbGrace |}] /\
  activityTimer pinged = Some 2 /\
  forwarded (traceOf r) = [Host.pong] /\
  stateOf r = pinged /\ cancelled (traceOf r) = [] /\ armed (traceOf r) = [] /\
  closes (traceOf (step (H := Host.example) (Elapsed 2) (stateOf r))) = [None].
Proof. cbn zeta. by vm_compute. Qed.

(** C4 as stated fails: a fatal error frame parses as JSON and the message
    callback is not invoked for it. *)
Lemma every_decoded_frame_is_forwarded_fails :
  ~ (forall (H : JSRuntime) (c : t) (text : string) (msg : value),
       JSON_parse text = Some msg ->
       forwarded (traceOf (step (Frame text) c)) = [msg]).
Proof.
  intros Hall.
  specialize (Hall Host.example Host.connected0 (Host.stringify Host.fatal) Host.fatal eq_refl).
  vm_compute in Hall. discriminate.
Qed.

(** C4 as amended, at the pong of the test suite. *)
Lemma decoded_frame_forwarding_witness :
  forwarded (traceOf (step (H := Host.example) (Frame (Host.stringify Host.pong)) Host.connected0))
  = [Host.pong].
Proof.
  destruct (decoded_frame_forwarding (H := Host.example) Host.connected0
              (Host.stringify Host.pong)) as [_ Hmsg].
  destruct (Hmsg Host.pong) as (Hf & _); [by vm_compute|].
  rewrite Hf. by vm_compute.
Defined.

(** C10 on a run of the test suite: established, then disconnected. *)
Lemma socketId_is_never_cleared_witness :
  id (fst (run (H := Host.example)
             [Connect; Opened; Frame (Host.stringify Host.established); Disconnect; Closed]
             (new Host.opts)))
  = VStr "123.456".
Proof.
  destruct (socketId_is_never_cleared (H := Host.example)) as (_ & _ & _ & Hrun & _).
  rewrite Hrun. by vm_compute.
Defined.


End ConnectionFacts.

Module ChannelFacts.
Import Channel.

Section Facts.

Lemma forEach_tell {E S A : Type} (g : A -> E) (l : list A) (s : S) :
  forEach l (fun x => tell (g x)) s = (Done tt, s, g <$> l).
Proof.
  induction l as [|x l IH]; [done|]. cbn [forEach]. rewrite run_tell, IH. done.
Qed.

Lemma emit_run (event : string) (data : value) (c : t) :
  emit event data c =
  (Done tt, c, (fun f => Call f data) <$> default [] (bindings c !! event)).
Proof.
  unfold emit. rewrite run_gets. destruct (bindings c !! event); [|done].
  apply forEach_tell.
Qed.

Lemma super_handleSubscribed_run (data : value) (c : t) :
  super_handleSubscribed data c =
  (Done tt, set_subscribed true c,
   (fun f => Call f data) <$>
     default [] (bindings c !! "realtime:subscription_succeeded")).
Proof. unfold super_handleSubscribed. by rewrite run_modify, emit_run. Qed.

(** The presence fields a snapshot leaves, whatever they were. *)
Lemma handleSubscribed_ext (c : t) (f : PresenceFields) (data : value)
    (self_ : option PresenceInfo) :
  ext c = Some f ->
  ext (stateOf (handleSubscribed data self_ c)) =
  Some {| presence :=
            if isPresenceData data then
              {| count := num_of_nat (length (strings (presence_field data "ids")));
                 ids := strings (presence_field data "ids");
                 hash := obj_or_empty (presence_field data "hash") |}
            else empty_presence;
          self := self_ |}.
Proof.
  intros Hf. unfold handleSubscribed. rewrite run_gets, Hf.
  unfold presence_handleSubscribed.
  destruct (isPresenceData data) eqn:Hd.
  - rewrite run_modify, super_handleSubscribed_run. cbn.
    assert (isArray (presence_field data "ids") = true) as ->.
    { unfold isPresenceData in Hd. unfold presence_field.
      destruct (negb (truthy data) || negb (is_object data)); [done|].
      destruct (prop data "presence") as [p|]; [|done]. cbn.
      destruct (negb (truthy p) || negb (is_object p)); [done|].
      destruct (prop p "count"), (prop p "ids") as [i|], (prop p "hash"); try done.
      cbn. by destruct (is_number _), (isArray i). }
    by destruct self_.
  - rewrite run_assoc, run_modify.
    destruct (nullish data).
    + rewrite run_ret, super_handleSubscribed_run. cbn. by destruct self_.
    + rewrite run_assoc, run_gets, run_tell, super_handleSubscribed_run. cbn.
      by destruct self_.
Qed.

Lemma handleMemberAdded_ext (c : t) (f : PresenceFields) (info : PresenceInfo) :
  ext c = Some f ->
  exists f', ext (stateOf (handleMemberAdded info c)) = Some f' /\
             count (presence f') = num_of_nat (length (ids (presence f'))).
Proof.
  intros Hf. unfold handleMemberAdded, asPresence.
  rewrite run_assoc, run_gets, Hf, run_some, run_modify, emit_run. cbn.
  eexists. split; [reflexivity|]. done.
Qed.

Lemma handleMemberRemoved_ext (c : t) (f : PresenceFields) (userId : string) :
  ext c = Some f ->
  exists f', ext (stateOf (handleMemberRemoved userId c)) = Some f' /\
             count (presence f') = num_of_nat (length (ids (presence f'))).
Proof.
  intros Hf. unfold handleMemberRemoved, asPresence.
  rewrite run_assoc, run_gets, Hf, run_some, run_modify, emit_run. cbn.
  eexists. split; [reflexivity|]. done.
Qed.

Lemma apply_count (o : op) (c : t) (f : PresenceFields) :
  ext c = Some f ->
  exists f', ext (stateOf (apply o c)) = Some f' /\
             memberCount f' = num_of_nat (length (ids (presence f'))).
Proof.
  intros Hf. destruct o; cbn [apply].
  - cbn. rewrite Hf. cbn. by eexists.
  - rewrite (handleSubscribed_ext c f data self_ Hf). eexists. split; [done|].
    unfold memberCount. cbn. by destruct (isPresenceData data).
  - by apply (handleMemberAdded_ext c f).
  - by apply (handleMemberRemoved_ext c f).
Qed.

Lemma after_snoc (ops : list op) (o : op) (c : t) :
  after (ops ++ [o]) c = stateOf (apply o (after ops c)).
Proof. unfold after. by rewrite foldl_app. Qed.

Lemma strings_all (items : list value) :
  forallb is_string items = true -> length (strings (VArr items)) = length items.
Proof.
  cbn. induction items as [|v items IH]; [done|]. cbn.
  destruct v; try done. cbn. intros H. by rewrite IH.
Qed.

(** C5. On a [PresenceChannel], after construction and after every
    operation on its presence state (clearing, a subscription-succeeded
    snapshot, member added, member removed), [memberCount] is the length of
    the sequence of member ids.  A snapshot sets it to the number of strings
    in its [ids] list, the length of that list when the list holds strings
    only, whatever its [count] field says. *)
Theorem memberCount_is_ids_length :
  (forall n ops, exists f,
      ext (after ops (newPresence n)) = Some f /\
      memberCount f = num_of_nat (length (ids (presence f)))) /\
  (forall c f o, ext c = Some f -> exists f',
      ext (stateOf (apply o c)) = Some f' /\
      memberCount f' = num_of_nat (length (ids (presence f')))) /\
  (forall c f data self_, ext c = Some f -> exists f',
      ext (stateOf (handleSubscribed data self_ c)) = Some f' /\
      ids (presence f') =
        (if isPresenceData data then strings (presence_field data "ids") else []) /\
      memberCount f' = num_of_nat (length (ids (presence f')))) /\
  (forall c f count_ ids_ hash_ self_,
      ext c = Some f -> forallb is_string ids_ = true -> exists f',
      ext (stateOf (handleSubscribed (Host.snapshot count_ ids_ hash_) self_ c)) = Some f' /\
      memberCount f' = num_of_nat (length ids_)).
Proof.
  split; [|split; [|split]].
  - intros n ops. induction ops as [|o ops IH] using rev_ind.
    + by eexists.
    + destruct IH as (f & Hf & _). rewrite after_snoc. by apply (apply_count o _ f).
  - intros c f o. apply apply_count.
  - intros c f data self_ Hf. rewrite (handleSubscribed_ext c f data self_ Hf).
    eexists. split; [done|]. unfold memberCount. cbn. by destruct (isPresenceData data).
  - intros c f count_ ids_ hash_ self_ Hf Hall.
    rewrite (handleSubscribed_ext c f _ self_ Hf). eexists. split; [done|].
    unfold memberCount. cbn [count presence].
    change (isPresenceData (Host.snapshot count_ ids_ hash_)) with true. cbn [count].
    change (presence_field (Host.snapshot count_ ids_ hash_) "ids") with (VArr ids_).
    by rewrite strings_all.
Qed.


End Facts.

(** *** On the members of the test suite *)

(** C5 at a snapshot whose count, 7, is not the length of its list. *)
Lemma memberCount_is_ids_length_witness :
  exists f',
    ext (stateOf (handleSubscribed
                    (Host.snapshot 7 [VStr "1"; VStr "2"] []) None
                    (newPresence "presence-room"))) = Some f' /\
    memberCount f' = 2%Q.
Proof.
  destruct memberCount_is_ids_length as (_ & _ & _ & Hsnap).
  destruct (Hsnap (newPresence "presence-room") _ 7%Q [VStr "1"; VStr "2"] [] None
              eq_refl eq_refl) as (f' & Hf' & Hc).
  exists f'. split; [exact Hf'|exact Hc].
Defined.


End ChannelFacts.

Module ClientFacts.
Import Client.

Section Facts.
Context `{JSRuntime}.

Lemma set_connection_id (a : t) : set_connection (connection a) a = a.
Proof. by destruct a. Qed.

Lemma connection_send_run (msg : value) (a : t) :
  connection_send msg a =
  (Done tt, a,
   match Connection.ws (connection a) with
   | Some {| Connection.ready := Connection.OPEN |} => [Conn (Connection.WsSend msg)]
   | _ => []
   end).
Proof.
  unfold connection_send, Connection.send. rewrite run_gets.
  destruct (Connection.ws (connection a)) as [[u []]|]; unfold tell, ret;
    by rewrite set_connection_id.
Qed.

(** An error object has no [event]: forwarding it writes no subscribe frame. *)
Lemma error_listener_run (ref : nat) (f : EventCallback) (why : string) (a : t) :
  let r := channel_effect ref (Channel.Call f (AuthError why)) a in
  outcomeOf r = Done tt /\ stateOf r = a /\
  calls ref (traceOf r) = [(f, AuthError why)] /\ subscribe_frames (traceOf r) = [].
Proof.
  cbn zeta. unfold channel_effect. rewrite run_tell.
  destruct f as [n|n].
  - cbn. by rewrite bool_decide_true.
  - unfold catch, forwardTrigger. cbn [AuthError prop assoc String.eqb Ascii.eqb Bool.eqb
      default from_option Datatypes.id orThrow].
    rewrite !run_ret, connection_send_run.
    cbn [outcomeOf stateOf traceOf fst snd calls omap list_omap].
    rewrite bool_decide_true by done.
    by destruct (Connection.ws (connection a)) as [[u []]|].
Qed.

Lemma calls_app (ref : nat) (t1 t2 : list effect) :
  calls ref (t1 ++ t2) = calls ref t1 ++ calls ref t2.
Proof. apply omap_app. Qed.

Lemma subscribe_frames_app (t1 t2 : list effect) :
  subscribe_frames (t1 ++ t2) = subscribe_frames t1 ++ subscribe_frames t2.
Proof. unfold subscribe_frames, frames. by rewrite omap_app, List.filter_app. Qed.

Lemma error_listeners_run (ref : nat) (l : list EventCallback) (why : string) (a : t) :
  let r := forEach ((fun f => Channel.Call f (AuthError why)) <$> l) (channel_effect ref) a in
  outcomeOf r = Done tt /\ stateOf r = a /\
  calls ref (traceOf r) = (fun f => (f, AuthError why)) <$> l /\
  subscribe_frames (traceOf r) = [].
Proof.
  cbn zeta. induction l as [|f l IH]; [done|].
  cbn [fmap list_fmap forEach].
  destruct (error_listener_run ref f why a) as (Ho & Hs & Hc & Hf).
  destruct IH as (IHo & IHs & IHc & IHf).
  erewrite run_done; [|rewrite (result_eta (channel_effect _ _ _)), Ho, Hs; reflexivity].
  cbn [outcomeOf stateOf traceOf fst snd].
  rewrite calls_app, subscribe_frames_app, Hc, Hf. cbn [app].
  split; [exact IHo|]. split; [exact IHs|]. split; [by rewrite IHc|exact IHf].
Qed.

Lemma handleError_run (data : value) (ch : Channel.t) :
  Channel.handleError data ch =
  (Done tt, Channel.set_subscribed false ch,
   (fun f => Channel.Call f data) <$>
     default [] (Channel.bindings ch !! "realtime:subscription_error")).
Proof.
  unfold Channel.handleError. by rewrite run_modify, ChannelFacts.emit_run.
Qed.

(** [channel.handleError(AuthError)] from the client: every listener of the
    channel's subscription errors is called with the error, the instance is
    marked unsubscribed, nothing else changes and no subscribe frame is
    written. *)
Lemma signal_error_run (ref : nat) (ch : Channel.t) (why : string) (a : t) :
  heap a !! ref = Some ch ->
  let r := onChannel ref (Channel.handleError (AuthError why)) a in
  outcomeOf r = Done tt /\
  stateOf r = set_heap (<[ref := Channel.set_subscribed false ch]> (heap a)) (nextRef a) a /\
  calls ref (traceOf r) =
    (fun f => (f, AuthError why)) <$>
      default [] (Channel.bindings ch !! "realtime:subscription_error") /\
  subscribe_frames (traceOf r) = [].
Proof.
  intros Hh. cbn zeta. unfold onChannel. rewrite run_gets, Hh, run_some, handleError_run.
  rewrite run_modify.
  set (a1 := set_heap _ _ a).
  destruct (error_listeners_run ref
              (default [] (Channel.bindings ch !! "realtime:subscription_error")) why a1)
    as (Ho & Hs & Hc & Hf).
  erewrite run_done; [|rewrite (result_eta (forEach _ _ _)), Ho, Hs; reflexivity].
  cbn [outcomeOf stateOf traceOf fst snd ret].
  by rewrite app_nil_r.
Qed.

Lemma parsePresenceSelf_None (cd : string) :
  parsePresenceSelf cd = None <->
  ~ exists parsed uid fields,
      JSON_parse cd = Some parsed /\ prop parsed "user_id" = Some (VStr uid) /\
      uid <> "" /\ prop parsed "user_info" = Some (VObj fields).
Proof.
  unfold parsePresenceSelf. split.
  - intros Hn (parsed & uid & fields & Hp & Hu & Hne & Hi).
    rewrite Hp in Hn. cbn in Hn. rewrite Hu in Hn. cbn in Hn. rewrite Hi in Hn. cbn in Hn.
    apply String.eqb_neq in Hne. by rewrite Hne in Hn.
  - intros Hn. destruct (JSON_parse cd) as [parsed|]; [|done]. cbn.
    destruct (prop parsed "user_id") as [uid|] eqn:Hu; [|done]. cbn.
    destruct (prop parsed "user_info") as [info|] eqn:Hi; [|done]. cbn.
    destruct uid as [| | | |s| |]; try done.
    destruct (String.eqb s "") eqn:Hs; [done|]. cbn.
    destruct info; cbn; rewrite ?orb_true_r; cbn; try done. exfalso. apply Hn.
    eexists _, s, _. repeat split; try done. by apply String.eqb_neq.
Qed.

Lemma refuse_run (ref : nat) (ch : Channel.t) (why : string) (a : t) :
  heap a !! ref = Some ch ->
  let r := andThen (pending_delete (Channel.name ch))
             (fun _ => onChannel ref (Channel.handleError (AuthError why))) a in
  outcomeOf r = Done tt /\
  calls ref (traceOf r) =
    (fun f => (f, VObj [("type", VStr "AuthError"); ("error", VStr why);
                        ("status", VNum 403)])) <$>
      default [] (Channel.bindings ch !! "realtime:subscription_error") /\
  subscribe_frames (traceOf r) = [] /\
  pendingPresenceSelf (stateOf r) !! Channel.name ch = None /\
  heap (stateOf r) !! ref = Some (Channel.set_subscribed false ch).
Proof.
  intros Hh. cbn zeta. unfold pending_delete. rewrite run_modify.
  set (a1 := set_pendingPresenceSelf _ a).
  destruct (signal_error_run ref ch why a1 Hh) as (Ho & Hs & Hc & Hf).
  split; [exact Ho|]. split; [exact Hc|]. split; [exact Hf|]. rewrite Hs. split.
  - cbn. apply lookup_delete_eq.
  - cbn. apply lookup_insert_eq.
Qed.

(** C7, as amended. The authentication of a presence channel has succeeded.
    When the response has no [channel_data], or an empty one, every listener
    of the channel's subscription errors is called with
    [{type: "AuthError", error: "channel_data required for presence
    channels", status: 403}]; when it has a [channel_data] that is not empty
    and does not decode to an object with a non-empty string [user_id] and a
    non-array object [user_info], the error is ["invalid channel_data"].  In
    both cases no subscribe frame is written, no pending self-identity is
    left for the channel and the channel is marked unsubscribed. *)
Theorem presence_auth_without_identity :
  (forall a ref ch resp,
     heap a !! ref = Some ch -> startsWith "presence-" (Channel.name ch) = true ->
     channel_data resp = None \/ channel_data resp = Some "" ->
     let r := sendSubscribe_resume ref (Resolved resp) a in
     outcomeOf r = Done tt /\
     calls ref (traceOf r) =
       (fun f => (f, VObj [("type", VStr "AuthError");
                           ("error", VStr "channel_data required for presence channels");
                           ("status", VNum 403)])) <$>
         default [] (Channel.bindings ch !! "realtime:subscription_error") /\
     subscribe_frames (traceOf r) = [] /\
     pendingPresenceSelf (stateOf r) !! Channel.name ch = None /\
     heap (stateOf r) !! ref = Some (Channel.set_subscribed false ch)) /\
  (forall a ref ch resp cd,
     heap a !! ref = Some ch -> startsWith "presence-" (Channel.name ch) = true ->
     channel_data resp = Some cd -> cd <> "" ->
     (~ exists parsed uid fields,
          JSON_parse cd = Some parsed /\ prop parsed "user_id" = Some (VStr uid) /\
          uid <> "" /\ prop parsed "user_info" = Some (VObj fields)) ->
     let r := sendSubscribe_resume ref (Resolved resp) a in
     outcomeOf r = Done tt /\
     calls ref (traceOf r) =
       (fun f => (f, VObj [("type", VStr "AuthError");
                           ("error", VStr "invalid channel_data");
                           ("status", VNum 403)])) <$>
         default [] (Channel.bindings ch !! "realtime:subscription_error") /\
     subscribe_frames (traceOf r) = [] /\
     pendingPresenceSelf (stateOf r) !! Channel.name ch = None /\
     heap (stateOf r) !! ref = Some (Channel.set_subscribed false ch)).
Proof.
  split.
  - intros a ref ch resp Hh Hp Hcd. cbn zeta.
    unfold sendSubscribe_resume. rewrite run_gets, Hh, run_some, Hp.
    destruct Hcd as [-> | ->]; [|rewrite String.eqb_refl]; by apply refuse_run.
  - intros a ref ch resp cd Hh Hp Hcd Hne Hbad. cbn zeta.
    unfold sendSubscribe_resume. rewrite run_gets, Hh, run_some, Hp, Hcd.
    apply String.eqb_neq in Hne. rewrite Hne.
    apply parsePresenceSelf_None in Hbad. rewrite Hbad. by apply refuse_run.
Qed.

(** *** The channel map *)

#[local] Instance keeps_refl : Reflexive keeps.
Proof. by intros a. Qed.

#[local] Instance keeps_trans : Transitive keeps.
Proof.
  intros a b c (Hc1 & Hn1 & Hh1) (Hc2 & Hn2 & Hh2). split; [congruence|].
  split; [congruence|]. intros r. by rewrite Hh2.
Qed.

#[local] Instance same_name_refl : Reflexive Channel.same_name.
Proof. by intros c. Qed.

#[local] Instance same_name_trans : Transitive Channel.same_name.
Proof. intros a b c. unfold Channel.same_name. congruence. Qed.

Create HintDb frame.

Ltac frame :=
  repeat first
    [ solve [auto with frame]
    | (apply respects_ret; typeclasses eauto)
    | (apply respects_raise; typeclasses eauto)
    | (apply respects_gets; typeclasses eauto)
    | (apply respects_tell; typeclasses eauto)
    | (apply respects_orThrow; typeclasses eauto)
    | (apply respects_modify; intros ?; by repeat split)
    | (apply respects_andThen; try typeclasses eauto; [|intros ?])
    | (apply respects_forEach; try typeclasses eauto; intros ?)
    | (apply respects_catch; try typeclasses eauto; [|intros ?])
    | match goal with |- respects _ (match ?x with _ => _ end) => destruct x end
    | match goal with |- respects _ (if ?x then _ else _) => destruct x end
    | match goal with |- respects _ (let (_, _) := ?x in _) => destruct x end
    | assumption ].

(** Methods of [Channel] *)

Lemma name_emit (event : string) (data : value) :
  respects Channel.same_name (Channel.emit event data).
Proof. unfold Channel.emit. frame. Qed.
#[local] Hint Resolve name_emit : frame.

Lemma name_bind (event : string) (f : EventCallback) :
  respects Channel.same_name (Channel.bind event f).
Proof. unfold Channel.bind. frame. Qed.
#[local] Hint Resolve name_bind : frame.

Lemma name_unbindAll : respects Channel.same_name Channel.unbindAll.
Proof. unfold Channel.unbindAll. frame. Qed.
#[local] Hint Resolve name_unbindAll : frame.

Lemma name_handleError (data : value) :
  respects Channel.same_name (Channel.handleError data).
Proof. unfold Channel.handleError. frame. Qed.
#[local] Hint Resolve name_handleError : frame.

Lemma name_handleEvent (event : string) (data : value) :
  respects Channel.same_name (Channel.handleEvent event data).
Proof. apply name_emit. Qed.
#[local] Hint Resolve name_handleEvent : frame.

Lemma name_trigger (event : string) (data : value) :
  respects Channel.same_name (Channel.trigger event data).
Proof. unfold Channel.trigger. frame. Qed.
#[local] Hint Resolve name_trigger : frame.

Lemma name_handleSubscribed (data : value) (self_ : option PresenceInfo) :
  respects Channel.same_name (Channel.handleSubscribed data self_).
Proof.
  unfold Channel.handleSubscribed, Channel.presence_handleSubscribed,
    Channel.super_handleSubscribed.
  frame.
Qed.
#[local] Hint Resolve name_handleSubscribed : frame.

Lemma name_handleMemberAdded (info : PresenceInfo) :
  respects Channel.same_name (Channel.handleMemberAdded info).
Proof. unfold Channel.handleMemberAdded, Channel.asPresence. frame. Qed.
#[local] Hint Resolve name_handleMemberAdded : frame.

Lemma name_handleMemberRemoved (userId : string) :
  respects Channel.same_name (Channel.handleMemberRemoved userId).
Proof. unfold Channel.handleMemberRemoved, Channel.asPresence. frame. Qed.
#[local] Hint Resolve name_handleMemberRemoved : frame.

Lemma name_clearPresenceState : respects Channel.same_name channel_clearPresenceState.
Proof. unfold channel_clearPresenceState. frame. Qed.
#[local] Hint Resolve name_clearPresenceState : frame.

(** Methods of [Apinator] *)

Lemma keeps_connection_send (msg : value) : respects keeps (connection_send msg).
Proof. intros a. by rewrite connection_send_run. Qed.
#[local] Hint Resolve keeps_connection_send : frame.

Lemma keeps_forwardTrigger (n : string) (payload : value) :
  respects keeps (forwardTrigger n payload).
Proof. unfold forwardTrigger. frame. Qed.
#[local] Hint Resolve keeps_forwardTrigger : frame.

Lemma keeps_channel_effect (ref : nat) (e : Channel.effect) :
  respects keeps (channel_effect ref e).
Proof. unfold channel_effect. frame. Qed.
#[local] Hint Resolve keeps_channel_effect : frame.

Lemma keeps_onChannel {A} (ref : nat) (m : Channel.Meth A) :
  respects Channel.same_name m -> respects keeps (onChannel ref m).
Proof.
  intros Hm a. unfold onChannel. rewrite run_gets.
  destruct (heap a !! ref) as [ch|] eqn:Hh; [|done].
  rewrite run_some. specialize (Hm ch). unfold stateOf in Hm.
  destruct (m ch) as [[r ch'] tr]. cbn in Hm. rewrite run_modify.
  set (a1 := set_heap _ _ a).
  transitivity a1.
  - split; [done|]. split; [done|]. intros r'. cbn.
    destruct (decide (r' = ref)) as [->|Hne].
    + rewrite lookup_insert_eq, Hh. cbn. by rewrite Hm.
    + by rewrite lookup_insert_ne.
  - assert (respects keeps
              (andThen (forEach tr (channel_effect ref))
                 (fun _ => match r with Done x => ret x | Raised e => raise e end))) as Hk.
    { frame. }
    apply Hk.
Qed.
#[local] Hint Resolve keeps_onChannel : frame.

Lemma keeps_pending_delete (n : string) : respects keeps (pending_delete n).
Proof. unfold pending_delete. frame. Qed.
#[local] Hint Resolve keeps_pending_delete : frame.

Lemma keeps_sendSubscribe (ref : nat) : respects keeps (sendSubscribe ref).
Proof. unfold sendSubscribe. frame. Qed.
#[local] Hint Resolve keeps_sendSubscribe : frame.

Lemma keeps_sendSubscribe_resume (ref : nat) (o : authOutcome) :
  respects keeps (sendSubscribe_resume ref o).
Proof. unfold sendSubscribe_resume. frame. Qed.
#[local] Hint Resolve keeps_sendSubscribe_resume : frame.

Lemma keeps_clearPresenceState : respects keeps clearPresenceState.
Proof. unfold clearPresenceState. frame. Qed.
#[local] Hint Resolve keeps_clearPresenceState : frame.

Lemma keeps_handleStateChange (prev curr : Connection.ConnectionState) :
  respects keeps (handleStateChange prev curr).
Proof. unfold handleStateChange. frame. Qed.
#[local] Hint Resolve keeps_handleStateChange : frame.

Lemma keeps_route (n : string) (ref : nat) (event data : value) :
  respects keeps (route n ref event data).
Proof. unfold route. frame. Qed.
#[local] Hint Resolve keeps_route : frame.

Lemma keeps_handleMessage (msg : value) : respects keeps (handleMessage msg).
Proof. unfold handleMessage. frame. Qed.
#[local] Hint Resolve keeps_handleMessage : frame.

Lemma keeps_connection_effect (e : Connection.effect) :
  respects keeps (connection_effect e).
Proof. unfold connection_effect. frame. Qed.
#[local] Hint Resolve keeps_connection_effect : frame.

Lemma keeps_onConnection {A} (m : Connection.Meth A) : respects keeps (onConnection m).
Proof. unfold onConnection. frame. Qed.
#[local] Hint Resolve keeps_onConnection : frame.

Lemma keeps_bind (ev : string) (f : EventCallback) : respects keeps (bind ev f).
Proof. unfold bind. frame. Qed.

Lemma keeps_unbind (ev : string) (f : option EventCallback) : respects keeps (unbind ev f).
Proof. unfold unbind. frame. Qed.

Lemma keeps_trigger (n ev : string) (data : value) : respects keeps (trigger n ev data).
Proof. unfold trigger. frame. Qed.

(** Every step but [subscribe] and [unsubscribe] keeps the channel map. *)
Lemma keeps_step (e : event) (a : t) :
  match e with Subscribe _ | Unsubscribe _ => False | _ => True end ->
  keeps a (stateOf (step e a)).
Proof.
  destruct e; try done; intros _.
  all: match goal with |- keeps ?a (stateOf (step ?e ?a)) =>
         assert (respects keeps (step e)) as Hk; [|apply Hk] end.
  all: cbn [step]; unfold connect, disconnect.
  all: try apply keeps_bind; try apply keeps_unbind; try apply keeps_trigger.
  all: pose proof name_bind; frame.
Qed.

#[local] Instance shrinks_refl : Reflexive shrinks.
Proof. by intros a. Qed.

#[local] Instance shrinks_trans : Transitive shrinks.
Proof.
  intros a b c (Hc1 & Hn1 & Hh1) (Hc2 & Hn2 & Hh2). split; [by etransitivity|].
  split; [congruence|]. intros r. by rewrite Hh2.
Qed.

Lemma keeps_shrinks {A} (m : Meth A) : respects keeps m -> respects shrinks m.
Proof. intros Hm a. destruct (Hm a) as (Hc & Hn & Hh). split; [by rewrite Hc|done]. Qed.

Lemma shrinks_unsubscribe (n : string) : respects shrinks (unsubscribe n).
Proof.
  unfold unsubscribe.
  pose proof (fun msg => keeps_shrinks _ (keeps_connection_send msg)).
  pose proof (keeps_shrinks _ (keeps_pending_delete n)).
  pose proof (fun ref => keeps_shrinks _ (keeps_onChannel ref _ name_clearPresenceState)).
  pose proof (fun ref => keeps_shrinks _ (keeps_onChannel ref _ name_unbindAll)).
  repeat first
    [ assumption
    | match goal with H : forall _, respects shrinks _ |- _ => apply H end
    | (apply respects_ret; typeclasses eauto)
    | (apply respects_gets; typeclasses eauto)
    | (apply respects_modify; intros ?; split; [apply sublist_filter|done])
    | (apply respects_andThen; try typeclasses eauto; [|intros ?])
    | match goal with |- respects _ (match ?x with _ => _ end) => destruct x end ].
Qed.

Lemma lookup_channel_elem (n : string) (r : nat) (l : list (string * nat)) :
  lookup_channel n l = Some r -> (n, r) ∈ l.
Proof.
  induction l as [|[k v] l IH]; [done|]. cbn.
  destruct (String.eqb n k) eqn:E.
  - apply String.eqb_eq in E as ->. intros [= ->]. left.
  - intros Hl. right. by apply IH.
Qed.

Lemma lookup_channel_None (n : string) (l : list (string * nat)) :
  lookup_channel n l = None -> n ∉ l.*1.
Proof.
  induction l as [|[k v] l IH]; cbn; [intros _; apply not_elem_of_nil|].
  destruct (String.eqb n k) eqn:E; [done|]. apply String.eqb_neq in E.
  intros Hl. apply not_elem_of_cons. split; [done|by apply IH].
Qed.



Lemma registry_ok_shrinks (a a' : t) : shrinks a a' -> registry_ok a -> registry_ok a'.
Proof.
  intros (Hc & Hn & Hh) [Hnd Hok]. split.
  - apply (sublist_NoDup _ _ Hnd). by apply fmap_sublist.
  - intros n r Hin. rewrite Hn, Hh. apply Hok. by apply (elem_of_sublist _ _ _ Hin).
Qed.

Lemma registry_ok_keeps (a a' : t) : keeps a a' -> registry_ok a -> registry_ok a'.
Proof.
  intros (Hc & Hn & Hh). apply registry_ok_shrinks. split; [by rewrite Hc|done].
Qed.

(** [subscribe] on a name that is registered: the instance, and nothing done. *)
Lemma subscribe_registered (n : string) (ref : nat) (a : t) :
  channel n a = Some ref -> subscribe n a = (Done ref, a, []).
Proof. unfold channel, subscribe. intros Hl. by rewrite run_gets, Hl. Qed.

(** [subscribe] on a name that is not: a new instance is allocated and
    registered, and the rest of the method keeps the map. *)
Lemma subscribe_fresh (n : string) (a : t) :
  channel n a = None ->
  let ch := if startsWith "presence-" n then Channel.newPresence n else Channel.new n in
  let a2 := set_channels (channels a ++ [(n, nextRef a)])
              (set_heap (<[nextRef a := ch]> (heap a)) (S (nextRef a)) a) in
  keeps a2 (stateOf (subscribe n a)) /\
  (forall x, outcomeOf (subscribe n a) = Done x -> x = nextRef a).
Proof.
  unfold channel, subscribe. intros Hl. cbn zeta.
  rewrite run_gets, Hl, run_gets, run_modify, run_modify.
  set (a2 := set_channels _ _).
  set (rest := andThen _ _).
  assert (respects keeps rest) as Hk by (subst rest; pose proof name_bind; frame).
  split; [apply Hk|].
  subst rest. intros x Hx.
  apply andThen_done_inv in Hx as (? & _ & Hx).
  apply andThen_done_inv in Hx as (? & _ & Hx).
  apply andThen_done_inv in Hx as (? & _ & Hx).
  by injection Hx.
Qed.

Lemma registry_ok_subscribe (n : string) (a : t) :
  registry_ok a -> registry_ok (stateOf (subscribe n a)).
Proof.
  intros [Hnd Hok]. destruct (channel n a) as [ref|] eqn:Hl.
  { by rewrite (subscribe_registered n ref a Hl). }
  destruct (subscribe_fresh n a Hl) as [Hk _]. apply (registry_ok_keeps _ _ Hk).
  split.
  - cbn. rewrite fmap_app. apply NoDup_app. split; [done|]. split.
    + intros x Hx Hx'. cbn in Hx'. apply list_elem_of_singleton in Hx' as ->.
      by apply (lookup_channel_None _ _ Hl).
    + apply NoDup_singleton.
  - intros n' r Hin. cbn in Hin. cbn [nextRef heap set_channels set_heap].
    apply elem_of_app in Hin as [Hin|Hin].
    + destruct (Hok n' r Hin) as [Hlt Hname]. split; [lia|].
      rewrite lookup_insert_ne by lia. done.
    + apply list_elem_of_singleton in Hin as [= -> ->]. split; [lia|].
      rewrite lookup_insert_eq. by destruct (startsWith "presence-" n).
Qed.

Lemma registry_ok_step (e : event) (a : t) :
  registry_ok a -> registry_ok (stateOf (step e a)).
Proof.
  intros Hok. destruct e.
  3: { cbn [step]. unfold andThen, stateOf.
       pose proof (registry_ok_subscribe channelName a Hok) as Hs. unfold stateOf in Hs.
       by destruct (subscribe channelName a) as [[[x|x] s1] t1]. }
  3: { apply (registry_ok_shrinks a); [apply shrinks_unsubscribe|done]. }
  all: apply (registry_ok_keeps a); [by apply keeps_step|done].
Qed.

Lemma registry_ok_new (o : RealtimeOptions) : registry_ok (new o).
Proof. split; [constructor|]. intros n r Hin. by apply not_elem_of_nil in Hin. Qed.

Lemma registry_ok_run (es : list event) (a : t) :
  registry_ok a -> registry_ok (fst (run es a)).
Proof.
  revert a. induction es as [|e es IH]; intros a Hok; [done|].
  cbn. apply IH. by apply registry_ok_step.
Qed.

#[local] Instance keeps_others_refl (n : string) : Reflexive (keeps_others n).
Proof. by intros a k _. Qed.

#[local] Instance keeps_others_trans (n : string) : Transitive (keeps_others n).
Proof. intros a b c Hab Hbc k Hk. by rewrite (Hbc k Hk), (Hab k Hk). Qed.


Lemma lookup_delete_channel_ne (k n : string) (l : list (string * nat)) :
  k <> n -> lookup_channel k (delete_channel n l) = lookup_channel k l.
Proof.
  intros Hk. unfold delete_channel. induction l as [|[k' r] l IH]; [done|].
  cbn [lookup_channel]. destruct (decide (k' = n)) as [->|Hn].
  - rewrite filter_cons_False by (cbn; tauto).
    apply String.eqb_neq in Hk. by rewrite Hk.
  - rewrite filter_cons_True by done. cbn [lookup_channel]. by rewrite IH.
Qed.



Lemma lookup_channel_app_r (n : string) (r : nat) (l : list (string * nat)) :
  lookup_channel n l = None -> lookup_channel n (l ++ [(n, r)]) = Some r.
Proof.
  induction l as [|[k v] l IH]; cbn; [by rewrite String.eqb_refl|].
  by destruct (String.eqb n k).
Qed.







End Facts.

(** *** On the example host *)

(** C7 as stated fails: an empty [channel_data] is present and does not
    decode, and the error signalled is the one for a missing [channel_data]. *)
Lemma empty_channel_data_is_reported_missing :
  ~ (forall (H : JSRuntime) (a : t) (ref : nat) (ch : Channel.t) (resp : AuthResponse)
            (cd : string),
       heap a !! ref = Some ch -> startsWith "presence-" (Channel.name ch) = true ->
       channel_data resp = Some cd -> parsePresenceSelf cd = None ->
       calls ref (traceOf (sendSubscribe_resume ref (Resolved resp) a)) =
         (fun f => (f, AuthError "invalid channel_data")) <$>
           default [] (Channel.bindings ch !! "realtime:subscription_error")).
Proof.
  intros Hall.
  specialize (Hall Host.example Host.awaiting_auth 0
                (default (Channel.new "") (heap Host.awaiting_auth !! 0))
                {| auth := "key:sig"; channel_data := Some "" |} ""
                eq_refl eq_refl eq_refl eq_refl).
  vm_compute in Hall. discriminate.
Qed.

(** C7 as amended, on the two responses of the test suite. *)
Lemma presence_auth_without_identity_witness :
  calls 0 (traceOf (sendSubscribe_resume (H := Host.example) 0
                      (Resolved {| auth := "key:sig"; channel_data := None |})
                      Host.awaiting_auth))
  = [(UserCallback 7, AuthError "channel_data required for presence channels")] /\
  calls 0 (traceOf (sendSubscribe_resume (H := Host.example) 0
                      (Resolved {| auth := "key:sig";
                                   channel_data :=
                                     Some (Host.stringify (VObj [("user_id", VNum 1)])) |})
                      Host.awaiting_auth))
  = [(UserCallback 7, AuthError "invalid channel_data")].
Proof.
  destruct (presence_auth_without_identity (H := Host.example)) as [Hmiss Hbad].
  split.
  - destruct (Hmiss Host.awaiting_auth 0
                (default (Channel.new "") (heap Host.awaiting_auth !! 0))
                {| auth := "key:sig"; channel_data := None |})
      as (_ & Hc & _); [by vm_compute| by vm_compute | by left |].
    rewrite Hc. by vm_compute.
  - destruct (Hbad Host.awaiting_auth 0
                (default (Channel.new "") (heap Host.awaiting_auth !! 0))
                {| auth := "key:sig";
                   channel_data := Some (Host.stringify (VObj [("user_id", VNum 1)])) |}
                (Host.stringify (VObj [("user_id", VNum 1)])))
      as (_ & Hc & _); [by vm_compute| by vm_compute | done | by vm_compute | |].
    + intros (parsed & uid & fields & Hp & Hu & _).
      vm_compute in Hp. injection Hp as <-. vm_compute in Hu. discriminate.
    + rewrite Hc. by vm_compute.
Defined.


(** An instance that was unsubscribed is not found again: subscribing to its
    name anew allocates a second instance. *)
Lemma resubscribing_allocates_anew :
  let a := fst (run (H := Host.example)
                  [Subscribe "room"; Unsubscribe "room"; Subscribe "room"]
                  (new Host.opts)) in
  channel "room" a = Some 1 /\ instances "room" a = [1; 0].
Proof. by vm_compute. Qed.

(** C9 fails on the race it names.  A presence channel is subscribed on a
    connected client and unsubscribed while its authentication is in
    flight; the response then arrives.  The name is not registered, its
    identity is stored, a subscribe frame is sent for it, and neither a
    subscription success, nor a subscription error, nor another
    [unsubscribe] takes the stored identity away. *)
Theorem pending_identity_outlives_unsubscribe :
  let r := run (H := Host.example)
             [Connect; Opened; Frame (Host.stringify Host.established);
              Subscribe "presence-room"; Unsubscribe "presence-room";
              AuthSettled 0 (Resolved Host.alice_auth)]
             (new Host.opts_auth) in
  let a := fst r in
  channel "presence-room" a = None /\
  pendingPresenceSelf a !! "presence-room" = Some Host.alice /\
  length (subscribe_frames (snd r)) = 1 /\
  Forall (fun e => pendingPresenceSelf (stateOf (step (H := Host.example) e a))
                     !! "presence-room" = Some Host.alice)
         [Frame (Host.stringify Host.room_succeeded);
          Frame (Host.stringify Host.room_error);
          Unsubscribe "presence-room"].
Proof.
  cbn zeta. split; [by vm_compute|]. split; [by vm_compute|]. split; [by vm_compute|].
  repeat constructor; by vm_compute.
Qed.

End ClientFacts.


Module MonProps.
Import MonFacts.

Section Quiet.
Context {E S : Type} (f : E -> bool).

Lemma quiet_ret {A} (a : A) : quiet (S := S) f (ret a).
Proof. by intros s. Qed.

Lemma quiet_raise {A} (x : exn) : quiet (S := S) f (raise (A := A) x).
Proof. by intros s. Qed.

Lemma quiet_gets {A} (g : S -> A) : quiet f (gets g).
Proof. by intros s. Qed.

Lemma quiet_modify (g : S -> S) : quiet f (modify g).
Proof. by intros s. Qed.

Lemma quiet_tell (e : E) : f e = true -> quiet (S := S) f (tell e).
Proof. intros He s. cbn. by rewrite He. Qed.

Lemma quiet_orThrow {A} (x : exn) (o : option A) : quiet (S := S) f (orThrow x o).
Proof. by destruct o. Qed.

Lemma quiet_andThen {A B} (m : M E S A) (k : A -> M E S B) :
  quiet f m -> (forall a, quiet f (k a)) -> quiet f (andThen m k).
Proof.
  intros Hm Hk s. specialize (Hm s). unfold andThen, traceOf in *.
  destruct (m s) as [[[a|x] s1] t1]; cbn in *; [|done].
  specialize (Hk a s1). destruct (k a s1) as [[r s2] t2]. cbn in *.
  rewrite forallb_app. by rewrite Hm, Hk.
Qed.

Lemma quiet_catch {A} (m : M E S A) (h : exn -> M E S A) :
  quiet f m -> (forall x, quiet f (h x)) -> quiet f (catch m h).
Proof.
  intros Hm Hh s. specialize (Hm s). unfold catch, traceOf in *.
  destruct (m s) as [[[a|x] s1] t1]; cbn in *; [done|].
  specialize (Hh x s1). destruct (h x s1) as [[r s2] t2]. cbn in *.
  rewrite forallb_app. by rewrite Hm, Hh.
Qed.

Lemma quiet_forEach {A} (l : list A) (body : A -> M E S unit) :
  (forall x, quiet f (body x)) -> quiet f (forEach l body).
Proof.
  intros Hb. induction l as [|x l IH]; [apply quiet_ret|].
  cbn [forEach]. apply quiet_andThen; [apply Hb|by intros _].
Qed.
End Quiet.
End MonProps.

Module ConnectionProps.
Import MonFacts Connection ConnectionFacts.

Section Facts.
Context `{JSRuntime}.

Lemma transitions_app (s : ConnectionState) (t1 t2 : list effect) :
  transitions s (t1 ++ t2) = s' ← transitions s t1; transitions s' t2.
Proof.
  revert s. induction t1 as [|e t1 IH]; intros s; [done|].
  destruct e; cbn; try apply IH. by case_match.
Qed.

Lemma transitions_clear (s : ConnectionState) (l : list nat) :
  transitions s (ClearTimeout <$> l) = Some s.
Proof. by induction l. Qed.

Lemma transitions_change (s s' : ConnectionState) :
  transitions s (if decide (s = s') then [] else [OnStateChange s s']) = Some s'.
Proof.
  destruct (decide (s = s')) as [->|Hne]; [done|]. cbn.
  rewrite bool_decide_true by done. rewrite bool_decide_false by done. done.
Qed.

Lemma transitions_handleDisconnect (c : t) :
  transitions (state c) (traceOf (handleDisconnect c))
  = Some (state (stateOf (handleDisconnect c))).
Proof.
  rewrite handleDisconnect_run. cbn zeta.
  destruct (cleared_fields (set_ws None c)) as (_ & Hst & _).
  repeat case_decide; cbn [traceOf stateOf fst snd];
    rewrite ?transitions_app, ?transitions_clear; cbn [mbind option_bind];
    rewrite ?transitions_app; cbn [state set_state set_reconnectTimer set_timers
      set_reconnectAttempts mbind option_bind transitions];
    rewrite ?Hst; cbn; try done;
    repeat (rewrite ?bool_decide_true by done; rewrite ?bool_decide_false by done; cbn);
    try congruence.
Qed.

Ltac chain :=
  cbn [traceOf stateOf fst snd];
  rewrite ?transitions_app, ?transitions_clear, ?transitions_change;
  cbn [mbind option_bind transitions state set_state set_ws set_socketId
       set_reconnectTimer set_activityTimer set_timers set_reconnectAttempts].

Lemma transitions_disconnect (c : t) :
  transitions (state c) (traceOf (disconnect c)) = Some (state (stateOf (disconnect c))).
Proof.
  rewrite disconnect_run. cbn zeta.
  destruct (cleared_fields c) as (_ & Hst & _).
  chain. rewrite transitions_app, transitions_change. cbn [mbind option_bind].
  by destruct (ws c).
Qed.

Lemma transitions_connect (c : t) :
  transitions (state c) (traceOf (connect c)) = Some (state (stateOf (connect c))).
Proof.
  rewrite connect_run.
  destruct (bool_decide (state c = connected) || bool_decide (state c = connecting))
    eqn:Hs; [done|].
  apply orb_false_iff in Hs as [Hs1 Hs2].
  apply bool_decide_eq_false in Hs1, Hs2.
  cbn zeta. destruct (WebSocket_accepts _); cbn [traceOf stateOf fst snd transitions].
  - rewrite bool_decide_true by done. rewrite bool_decide_false by done. done.
  - rewrite bool_decide_true by done. rewrite bool_decide_false by done. cbn.
    apply (transitions_handleDisconnect (set_state connecting c)).
Qed.

Lemma transitions_handleMessage (msg : value) (c : t) :
  transitions (state c) (traceOf (handleMessage msg c))
  = Some (state (stateOf (handleMessage msg c))).
Proof.
  rewrite handleMessage_classify. destruct (classify msg); cbn zeta; [done| |..|done].
  - rewrite resetActivityTimer_run. cbn zeta. chain.
    rewrite transitions_app. cbn [activityTimer set_state set_socketId].
    by destruct (activityTimer c).
  - apply transitions_disconnect.
Qed.

Lemma transitions_step (e : event) (c : t) :
  transitions (state c) (traceOf (step e c)) = Some (state (stateOf (step e c))).
Proof.
  destruct e; cbn [step].
  - apply transitions_connect.
  - apply transitions_disconnect.
  - unfold send. rewrite run_gets. by destruct (ws c) as [[? []]|].
  - done.
  - unfold onmessage. destruct (JSON_parse text); [apply transitions_handleMessage|done].
  - apply transitions_handleDisconnect.
  - rewrite run_gets. destruct (find _ _) as [tm|]; [|done]. rewrite run_modify.
    destruct (cb tm); cbn [run_callback].
    + apply (transitions_connect (set_timers _ _ c)).
    + unfold send, setTimeout. rewrite !run_assoc, run_gets. cbn [ws set_timers].
      by destruct (ws c) as [[? []]|].
    + rewrite run_gets. cbn [ws set_timers]. by destruct (ws c).
Qed.

(** The state-change callback is told of every change of state, once, in
    order: through any run its notifications lead from the state the run
    starts in to the state it ends in, none of them from a state to itself. *)
Theorem state_changes_are_all_notified (es : list event) (c : t) :
  transitions (state c) (snd (run es c)) = Some (state (fst (run es c))).
Proof.
  revert c. induction es as [|e es IH]; intros c; [done|].
  cbn [run fst snd]. rewrite transitions_app, transitions_step. cbn. apply IH.
Qed.

(** *** Timers *)

Lemma fresh_sub (c c' : t) :
  timers c' `sublist_of` timers c -> nextTimer c <= nextTimer c' ->
  fresh_timers c -> fresh_timers c'.
Proof.
  intros Hsub Hle [Hnd Hlt]. split.
  - apply (sublist_NoDup _ _ Hnd). by apply fmap_sublist.
  - intros tm Hin. specialize (Hlt tm (elem_of_sublist _ _ _ Hin Hsub)). lia.
Qed.

Lemma fresh_snoc (c c' : t) (l : list timer) (tm : timer) :
  l `sublist_of` timers c -> timers c' = l ++ [tm] -> tid tm = nextTimer c ->
  nextTimer c' = S (nextTimer c) ->
  fresh_timers c -> fresh_timers c'.
Proof.
  intros Hsub Ht Hid Hn [Hnd Hlt]. unfold fresh_timers. rewrite Ht, Hn. split.
  - rewrite fmap_app. apply NoDup_app. split; [|split; [|apply NoDup_singleton]].
    + apply (sublist_NoDup _ _ Hnd). by apply fmap_sublist.
    + intros i Hi Hi'. cbn in Hi'. apply list_elem_of_singleton in Hi' as ->.
      apply list_elem_of_fmap in Hi as (tm' & Heq & Hin).
      specialize (Hlt tm' (elem_of_sublist _ _ _ Hin Hsub)). lia.
  - intros tm' Hin. apply elem_of_app in Hin as [Hin|Hin].
    + specialize (Hlt tm' (elem_of_sublist _ _ _ Hin Hsub)). lia.
    + apply list_elem_of_singleton in Hin as ->. lia.
Qed.

Lemma cleared_sublist (c : t) : timers (stateOf (clearTimers c)) `sublist_of` timers c.
Proof.
  unfold clearTimers, clearTimeout.
  destruct (reconnectTimer c) as [r|] eqn:Hr, (activityTimer c) as [a|] eqn:Ha;
    repeat (rewrite ?run_assoc, ?run_gets, ?run_modify, ?run_tell, ?run_ret, ?Hr, ?Ha;
            cbn [stateOf fst snd timers set_timers set_reconnectTimer set_activityTimer
                 reconnectTimer activityTimer]);
    unfold modify, gets, ret, tell, andThen; cbn; rewrite ?Hr, ?Ha; cbn;
    try done; try apply sublist_filter.
  etransitivity; apply sublist_filter.
Qed.

Lemma fresh_handleDisconnect (c : t) :
  fresh_timers c -> fresh_timers (stateOf (handleDisconnect c)).
Proof.
  intros Hf. rewrite handleDisconnect_run. cbn zeta.
  destruct (cleared_fields (set_ws None c)) as (_ & _ & _ & _ & _ & Hn & _).
  pose proof (cleared_sublist (set_ws None c)) as Hsub.
  set (c1 := stateOf (clearTimers (set_ws None c))) in *.
  cbn [timers nextTimer set_ws] in Hn, Hsub.
  destruct (decide (state c = disconnected)); [|destruct (decide (_ < 6))];
    cbn [stateOf fst snd].
  - apply (fresh_sub c); [exact Hsub|lia|exact Hf].
  - by apply (fresh_snoc c _ (timers c1)
                {| tid := nextTimer c;
                   delay := Finite (inject_Z (backoff (reconnectAttempts c)));
                   cb := CbReconnect |}).
  - apply (fresh_sub c); [exact Hsub|cbn; lia|exact Hf].
Qed.

Lemma fresh_disconnect (c : t) : fresh_timers c -> fresh_timers (stateOf (disconnect c)).
Proof.
  intros Hf. rewrite disconnect_run. cbn zeta.
  destruct (cleared_fields c) as (_ & _ & _ & _ & _ & Hn & _).
  pose proof (cleared_sublist c) as Hsub.
  set (c1 := stateOf (clearTimers c)) in *.
  apply (fresh_sub c); [by destruct (ws c)|destruct (ws c); cbn; lia|done].
Qed.

Lemma fresh_connect (c : t) : fresh_timers c -> fresh_timers (stateOf (connect c)).
Proof.
  intros Hf. rewrite connect_run. case_match; [done|]. cbn zeta. case_match; [done|].
  by apply (fresh_handleDisconnect (set_state connecting c)).
Qed.

Lemma fresh_resetActivityTimer (timeout : value) (c : t) :
  fresh_timers c -> fresh_timers (stateOf (resetActivityTimer timeout c)).
Proof.
  intros Hf. rewrite resetActivityTimer_run. cbn zeta.
  eapply (fresh_snoc c); [|done..].
  destruct (activityTimer c); [apply sublist_filter|done].
Qed.

(** The two keepalive callbacks, in closed form. *)
Lemma ping_callback_run (c : t) :
  let tm := {| tid := nextTimer c; delay := Finite 30000; cb := CbGrace |} in
  run_callback CbPing c =
  (Done tt,
   set_activityTimer (Some (nextTimer c)) (set_timers (timers c ++ [tm]) (S (nextTimer c)) c),
   match ws c with
   | Some {| ready := OPEN |} => [WsSend (Message "realtime:ping" None "{}")]
   | _ => []
   end ++ [SetTimeout tm]).
Proof.
  cbn [run_callback]. unfold send, setTimeout.
  rewrite !run_assoc, run_gets.
  destruct (ws c) as [[u []]|]; rewrite ?run_tell, ?run_ret;
    rewrite !run_assoc, run_gets, !run_assoc, run_modify, !run_assoc, run_tell, run_ret;
    done.
Qed.

Lemma grace_callback_run (c : t) :
  run_callback CbGrace c =
  match ws c with
  | Some sock => (Done tt, set_ws (Some (closing sock)) c, [WsClose None])
  | None => (Done tt, c, [])
  end.
Proof. cbn [run_callback]. rewrite run_gets. by destruct (ws c). Qed.

Lemma elapsed_run (i : nat) (c : t) :
  step (Elapsed i) c =
  match find (fun tm => bool_decide (tid tm = i)) (timers c) with
  | Some tm =>
      run_callback (cb tm)
        (set_timers (filter (fun tm => tid tm <> i) (timers c)) (nextTimer c) c)
  | None => (Done tt, c, [])
  end.
Proof.
  cbn [step]. rewrite run_gets. destruct (find _ _); [|done]. by rewrite run_modify.
Qed.

Lemma fresh_step (e : event) (c : t) : fresh_timers c -> fresh_timers (stateOf (step e c)).
Proof.
  intros Hf. destruct e as [| |msg| |text| |i]; try rewrite elapsed_run; cbn [step].
  - by apply fresh_connect.
  - by apply fresh_disconnect.
  - by rewrite send_state.
  - done.
  - unfold onmessage. destruct (JSON_parse text) as [msg|]; [|done].
    rewrite handleMessage_classify. destruct (classify msg); cbn zeta; try done.
    + by apply fresh_resetActivityTimer.
    + by apply fresh_disconnect.
  - by apply fresh_handleDisconnect.
  - destruct (find _ _) as [tm|]; [|done].
    assert (fresh_timers (set_timers (filter (fun tm => tid tm <> i) (timers c))
                            (nextTimer c) c)) as Hf'
        by (apply (fresh_sub c); [apply sublist_filter|done..]).
    destruct (cb tm).
    + by apply fresh_connect.
    + rewrite ping_callback_run. cbn zeta. by eapply fresh_snoc.
    + rewrite grace_callback_run. cbn [ws set_timers]. by destruct (ws c).
Qed.

Lemma fresh_run (es : list event) (c : t) :
  fresh_timers c -> fresh_timers (fst (run es c)).
Proof.
  revert c. induction es as [|e es IH]; intros c Hf; [done|].
  cbn. apply IH. by apply fresh_step.
Qed.

Lemma one_per_handle {A} (f : A -> nat) (P : A -> bool) (x : nat) (l : list A) :
  NoDup (f <$> l) -> (forall a, a ∈ l -> P a = true -> f a = x) ->
  length (List.filter P l) <= 1.
Proof.
  intros Hnd Hall.
  assert (NoDup (f <$> List.filter P l)) as Hnd'.
  { clear Hall. induction l as [|a l IH]; [constructor|].
    cbn in *. apply NoDup_cons in Hnd as [Ha Hnd]. destruct (P a); [|by apply IH].
    cbn. apply NoDup_cons. split; [|by apply IH].
    intros Hin. apply Ha. apply list_elem_of_fmap in Hin as (b & -> & Hb).
    apply list_elem_of_fmap. exists b. split; [done|].
    apply list_elem_of_In, List.filter_In in Hb as [Hb _]. by apply list_elem_of_In. }
  assert (forall a, a ∈ List.filter P l -> f a = x) as Hall'.
  { intros a Ha. apply list_elem_of_In, List.filter_In in Ha as [Ha HP].
    apply Hall; [by apply list_elem_of_In|done]. }
  destruct (List.filter P l) as [|a [|b l']]; cbn; [lia|lia|].
  cbn in Hnd'. apply NoDup_cons in Hnd' as [Ha _]. destruct Ha.
  rewrite (Hall' a ltac:(left)), <- (Hall' b ltac:(right; left)). left.
Qed.

(** Timers do not pile up.  At any point of any run of a connection, at most
    one reconnection timer and at most one keepalive timer (ping or grace)
    are pending, no two pending timers share a handle, and the connection
    holds the handle of every pending timer, so that [clearTimers] cancels
    them all. *)
Theorem timers_never_pile_up (o : RealtimeOptions) (es : list event) :
  let c := fst (run es (new o)) in
  length (List.filter is_reconnect (timers c)) <= 1 /\
  length (List.filter (fun tm => negb (is_reconnect tm)) (timers c)) <= 1 /\
  NoDup (tid <$> timers c) /\
  (forall tm, tm ∈ timers c -> tid tm ∈ held c) /\
  timers (stateOf (clearTimers c)) = [].
Proof.
  cbn zeta.
  destruct (wf_run es (new o) (wf_new o)) as [Htr _].
  assert (fresh_timers (new o)) as Hf0.
  { split; [constructor|]. intros tm Hin. by apply not_elem_of_nil in Hin. }
  destruct (fresh_run es (new o) Hf0) as [Hnd _].
  set (c := fst (run es (new o))) in *.
  split; [|split; [|split; [done|split]]].
  - destruct (reconnectTimer c) as [r|] eqn:Hr.
    + apply (one_per_handle tid _ r); [done|]. intros tm Hin Hp.
      specialize (Htr tm Hin). unfold is_reconnect in Hp. destruct (cb tm); try done.
      congruence.
    + apply (one_per_handle tid _ 0); [done|]. intros tm Hin Hp.
      specialize (Htr tm Hin). unfold is_reconnect in Hp. destruct (cb tm); try done.
      congruence.
  - destruct (activityTimer c) as [r|] eqn:Hr.
    + apply (one_per_handle tid _ r); [done|]. intros tm Hin Hp.
      specialize (Htr tm Hin). unfold is_reconnect in Hp. destruct (cb tm); try done;
      congruence.
    + apply (one_per_handle tid _ 0); [done|]. intros tm Hin Hp.
      specialize (Htr tm Hin). unfold is_reconnect in Hp. destruct (cb tm); try done;
      congruence.
  - intros tm Hin. by apply tracked_held.
  - by apply cleared_tracked.
Qed.

Lemma opened_app (t1 t2 : list effect) :
  opened_sockets (t1 ++ t2) = opened_sockets t1 ++ opened_sockets t2.
Proof. apply omap_app. Qed.

Lemma sent_app (t1 t2 : list effect) : sent (t1 ++ t2) = sent t1 ++ sent t2.
Proof. apply omap_app. Qed.

Lemma closes_app (t1 t2 : list effect) : closes (t1 ++ t2) = closes t1 ++ closes t2.
Proof. apply omap_app. Qed.

(** *** The attempt counter *)

Lemma attempts_handleDisconnect (c : t) :
  reconnectAttempts (stateOf (handleDisconnect c)) =
  if decide (state c = disconnected) then reconnectAttempts c
  else if decide (reconnectAttempts c < 6) then S (reconnectAttempts c)
  else reconnectAttempts c.
Proof.
  rewrite handleDisconnect_run. cbn zeta.
  destruct (cleared_fields (set_ws None c)) as (_ & _ & _ & Hn & _).
  repeat case_decide; cbn [stateOf fst snd reconnectAttempts set_reconnectTimer
    set_timers set_reconnectAttempts set_state]; try done; exact Hn.
Qed.

Lemma attempts_disconnect (c : t) :
  reconnectAttempts (stateOf (disconnect c)) = reconnectAttempts c.
Proof.
  rewrite disconnect_run. cbn zeta.
  destruct (cleared_fields c) as (_ & _ & _ & Hn & _).
  by destruct (ws c).
Qed.

Lemma attempts_connect (c : t) :
  let n := reconnectAttempts c in
  let n' := reconnectAttempts (stateOf (connect c)) in
  n' = n \/ (n' = S n /\ n < 6).
Proof.
  cbn zeta. rewrite connect_run. case_match; [by left|]. cbn zeta.
  case_match; [by left|]. cbn [stateOf fst snd].
  rewrite (attempts_handleDisconnect (set_state connecting c)).
  cbn [state set_state reconnectAttempts].
  repeat case_decide; try done; [right; by split|by left].
Qed.

Lemma attempts_step (e : event) (c : t) :
  let n := reconnectAttempts c in
  let n' := reconnectAttempts (stateOf (step e c)) in
  match e with
  | Opened => n' = 0
  | _ => n' = n \/ (n' = S n /\ n < 6)
  end.
Proof.
  cbn zeta. destruct e as [| |msg| |text| |i]; try rewrite elapsed_run; cbn [step].
  - apply attempts_connect.
  - left. apply attempts_disconnect.
  - left. by rewrite send_state.
  - done.
  - left. unfold onmessage. destruct (JSON_parse text) as [msg|]; [|done].
    rewrite handleMessage_classify. destruct (classify msg); cbn zeta; try done.
    + by rewrite resetActivityTimer_run.
    + apply attempts_disconnect.
  - rewrite attempts_handleDisconnect. repeat case_decide; [by left|right; by split|by left].
  - destruct (find _ _) as [tm|]; [|by left]. destruct (cb tm).
    + apply (attempts_connect (set_timers _ _ c)).
    + left. by rewrite ping_callback_run.
    + left. rewrite grace_callback_run. cbn [ws set_timers]. by destruct (ws c).
Qed.

(** The attempt counter counts to six and no further, in every run; the
    opening of the socket sets it back to zero, and nothing else ever lowers
    it: not [connect()], not [disconnect()], not a frame. *)
Theorem attempt_counter_is_reset_by_open_only :
  (forall o es, reconnectAttempts (fst (run es (new o))) <= 6) /\
  (forall c, reconnectAttempts (stateOf (step Opened c)) = 0) /\
  (forall e c, e <> Opened ->
     reconnectAttempts c <= reconnectAttempts (stateOf (step e c))) /\
  (forall es c, Opened ∉ es ->
     reconnectAttempts c <= reconnectAttempts (fst (run es c))).
Proof.
  split; [|split; [done|split]].
  - intros o es.
    assert (forall c, reconnectAttempts c <= 6 -> reconnectAttempts (fst (run es c)) <= 6)
      as Hrun; [|by apply Hrun; cbn; lia].
    induction es as [|e es IH]; intros c Hc; [done|].
    cbn. apply IH. pose proof (attempts_step e c) as Hs. cbn zeta in Hs.
    destruct e; lia.
  - intros e c Hne. pose proof (attempts_step e c) as Hs. cbn zeta in Hs.
    destruct e; try done; lia.
  - intros es. induction es as [|e es IH]; intros c Hno; [done|].
    apply not_elem_of_cons in Hno as [Hne Hno]. cbn.
    etransitivity; [|by apply IH].
    pose proof (attempts_step e c) as Hs. cbn zeta in Hs.
    destruct e; try done; lia.
Qed.

(** After the connection has given up, a [connect()] whose socket closes
    before it opens gives up again at once: the counter is still at its
    ceiling, so no reconnection is scheduled.  Had the socket opened, the
    close would have been retried after one second. *)
Theorem reconnect_after_giving_up (c : t) :
  state c <> connected -> state c <> connecting -> 6 <= reconnectAttempts c ->
  tracked c -> WebSocket_accepts (socket_url c) = true ->
  let r := run [Connect; Closed] c in
  let r' := run [Connect; Opened; Closed] c in
  opened_sockets (snd r) = [socket_url c] /\
  state (fst r) = unavailable /\ armed (snd r) = [] /\ timers (fst r) = [] /\
  state (fst r') = connecting /\
  delay <$> armed (snd r') = [Finite 1000].
Proof.
  intros Hs1 Hs2 Hn Htr Hacc. cbn zeta. cbn [run step fst snd].
  rewrite connect_run. rewrite bool_decide_false by done. rewrite bool_decide_false by done.
  cbn [orb]. cbn zeta. rewrite Hacc. cbn [stateOf traceOf fst snd].
  set (c1 := set_ws _ _).
  assert (state c1 = connecting) as Hst by done.
  assert (reconnectAttempts c1 = reconnectAttempts c) as Hat by done.
  assert (tracked c1) as Htr1 by exact Htr.
  unfold onclose, onopen. rewrite !app_nil_r.
  split; [|split; [|split; [|split; [|split]]]].
  - rewrite handleDisconnect_run. cbn zeta. rewrite Hst, Hat.
    rewrite decide_False by done. rewrite decide_False by lia.
    cbn [traceOf snd]. by rewrite opened_app, opened_clear.
  - rewrite handleDisconnect_run. cbn zeta. rewrite Hst, Hat.
    rewrite decide_False by done. by rewrite decide_False by lia.
  - rewrite handleDisconnect_run. cbn zeta. rewrite Hst, Hat.
    rewrite decide_False by done. rewrite decide_False by lia.
    cbn [traceOf snd]. by rewrite armed_app, armed_clear_app.
  - rewrite handleDisconnect_run. cbn zeta. rewrite Hst, Hat.
    rewrite decide_False by done. rewrite decide_False by lia.
    cbn [stateOf fst snd timers set_state]. by apply (cleared_tracked (set_ws None c1)).
  - rewrite run_modify. cbn [modify stateOf fst snd]. rewrite handleDisconnect_run. cbn zeta.
    cbn [state set_reconnectAttempts set_ws reconnectAttempts]. rewrite Hst.
    rewrite decide_False by done. by rewrite decide_True by lia.
  - rewrite run_modify. cbn [modify stateOf traceOf fst snd]. rewrite handleDisconnect_run.
    cbn zeta. cbn [state set_reconnectAttempts set_ws reconnectAttempts]. rewrite Hst.
    rewrite decide_False by done. rewrite decide_True by lia.
    cbn [traceOf snd]. rewrite !armed_app, armed_clear. cbn.
    rewrite decide_True by done. done.
Qed.


(** *** Establishment *)

Lemma classify_established (msg data sid at_ : value) :
  prop msg "event" = Some (VStr "realtime:connection_established") ->
  decoded msg = Some data ->
  prop data "socket_id" = Some sid -> prop data "activity_timeout" = Some at_ ->
  classify msg = Establishes sid (if truthy at_ then at_ else VNum 120).
Proof.
  intros He Hd Hs Ha. unfold classify. rewrite He.
  change (is_str (VStr "realtime:connection_established")
            "realtime:connection_established") with true.
  cbn match. by rewrite Hd, Hs, Ha.
Qed.

(** A connection-established frame whose data decodes stores the socket id,
    makes the state [connected], cancels the keepalive timer held so far and
    arms the ping timer, for [activity_timeout] seconds; an
    [activity_timeout] that is missing, zero or otherwise falsy counts as
    120 seconds.  The frame is then forwarded. *)
Theorem established_starts_keepalive (c : t) (text : string) (msg data sid at_ : value) :
  JSON_parse text = Some msg ->
  prop msg "event" = Some (VStr "realtime:connection_established") ->
  decoded msg = Some data ->
  prop data "socket_id" = Some sid -> prop data "activity_timeout" = Some at_ ->
  let r := step (Frame text) c in
  outcomeOf r = Done tt /\
  id (stateOf r) = sid /\ state (stateOf r) = connected /\
  cancelled (traceOf r) = option_list (activityTimer c) /\
  armed (traceOf r) =
    [{| tid := nextTimer c;
        delay := millis (if truthy at_ then at_ else VNum 120);
        cb := CbPing |}] /\
  activityTimer (stateOf r) = Some (nextTimer c) /\
  forwarded (traceOf r) = [msg] /\
  (truthy at_ = false -> delay <$> armed (traceOf r) = [Finite 120000]).
Proof.
  intros Hp He Hd Hs Ha. cbn zeta. rewrite (frame_step c text msg Hp).
  rewrite handleMessage_classify, (classify_established msg data sid at_ He Hd Hs Ha).
  cbn zeta. rewrite resetActivityTimer_run. cbn zeta.
  cbn [outcomeOf stateOf traceOf fst snd id socketId state activityTimer nextTimer
       set_activityTimer set_timers set_state set_socketId].
  rewrite !cancelled_app, !armed_app, !forwarded_app.
  split; [done|]. split; [done|]. split; [done|].
  split; [by destruct (decide (state c = connected)), (activityTimer c)|].
  split; [by destruct (decide (state c = connected)), (activityTimer c)|].
  split; [done|].
  split; [by destruct (decide (state c = connected)), (activityTimer c)|].
  intros ->. by destruct (decide (state c = connected)), (activityTimer c).
Qed.

(** *** connect and disconnect *)

Lemma clearTimers_nothing_held (c : t) :
  reconnectTimer c = None -> activityTimer c = None -> clearTimers c = (Done tt, c, []).
Proof.
  intros Hr Ha. unfold clearTimers. rewrite run_gets, Hr, run_ret.
  unfold andThen, gets. by rewrite Ha.
Qed.

Lemma handleDisconnect_opens (c : t) : opened_sockets (traceOf (handleDisconnect c)) = [].
Proof.
  rewrite handleDisconnect_run. cbn zeta.
  assert (forall l, opened_sockets (ClearTimeout <$> l) = []) as Hcl
      by (intros l; by induction l).
  repeat case_decide; cbn [traceOf snd]; rewrite ?opened_clear, ?Hcl; done.
Qed.

Lemma connect_opens (c : t) :
  opened_sockets (traceOf (connect c)) =
  if bool_decide (state c = connected) || bool_decide (state c = connecting)
  then [] else [socket_url c].
Proof.
  rewrite connect_run. case_match; [done|]. cbn zeta. case_match; [done|].
  cbn [traceOf snd].
  change (opened_sockets (?a :: ?b :: ?l)) with (socket_url c :: opened_sockets l).
  by rewrite handleDisconnect_opens.
Qed.

(** [connect()] does nothing while the state is [connecting] or
    [connected]; so calling it twice opens one socket, not two. *)
Theorem connect_is_idempotent (c : t) :
  WebSocket_accepts (socket_url c) = true \/ reconnectAttempts c < 6 ->
  let c' := stateOf (step Connect c) in
  (state c' = connecting \/ state c' = connected) /\
  step Connect c' = (Done tt, c', []) /\
  length (opened_sockets (snd (run [Connect; Connect] c))) <= 1.
Proof.
  intros Hor. cbn zeta. cbn [run step fst snd].
  assert (state (stateOf (connect c)) = connecting \/
          state (stateOf (connect c)) = connected) as Hst.
  { rewrite connect_run.
    destruct (bool_decide (state c = connected)) eqn:E1;
      [apply bool_decide_eq_true in E1; by right|].
    destruct (bool_decide (state c = connecting)) eqn:E2;
      [apply bool_decide_eq_true in E2; by left|].
    cbn [orb]. cbn zeta. destruct (WebSocket_accepts (socket_url c)) eqn:Hacc; [by left|].
    destruct Hor as [|Hlt]; [done|]. cbn [stateOf fst snd].
    rewrite handleDisconnect_run. cbn zeta. cbn [state set_state reconnectAttempts].
    rewrite decide_False by done. rewrite decide_True by done. by left. }
  assert (connect (stateOf (connect c)) = (Done tt, stateOf (connect c), [])) as Hsnd.
  { rewrite (connect_run (stateOf (connect c))).
    destruct Hst as [-> | ->]; [by rewrite orb_true_r|done]. }
  split; [done|]. split; [done|].
  rewrite Hsnd. cbn [traceOf snd]. rewrite !app_nil_r.
  rewrite connect_opens. case_match; cbn; lia.
Qed.

(** A URL the [WebSocket] constructor refuses does not make [connect()]
    throw: the failure is handled like a close of the socket, with a
    reconnection scheduled after the backoff delay, or the state
    [unavailable] once the attempts are used up. *)
Theorem refused_socket_is_handled_as_a_close (c : t) :
  state c <> connected -> state c <> connecting ->
  WebSocket_accepts (socket_url c) = false ->
  let r := step Connect c in
  let n := reconnectAttempts c in
  outcomeOf r = Done tt /\ ws (stateOf r) = None /\
  opened_sockets (traceOf r) = [socket_url c] /\
  (n < 6 ->
     state (stateOf r) = connecting /\ reconnectAttempts (stateOf r) = S n /\
     delay <$> armed (traceOf r) = [Finite (inject_Z (Z.min (1000 * 2 ^ Z.of_nat n) 30000))]) /\
  (6 <= n -> state (stateOf r) = unavailable /\ armed (traceOf r) = []).
Proof.
  intros Hs1 Hs2 Hacc. cbn zeta. cbn [step]. rewrite connect_run.
  rewrite bool_decide_false by done. rewrite bool_decide_false by done.
  cbn [orb]. cbn zeta. rewrite Hacc. cbn [outcomeOf stateOf traceOf fst snd].
  change (opened_sockets (?a :: ?b :: ?l)) with (socket_url c :: opened_sockets l).
  change (armed (?a :: ?b :: ?l)) with (armed l).
  rewrite handleDisconnect_opens.
  rewrite handleDisconnect_run. cbn zeta. cbn [state set_state reconnectAttempts].
  destruct (cleared_fields (set_ws None (set_state connecting c))) as (Hw & _).
  rewrite decide_False by done.
  destruct (decide (reconnectAttempts c < 6)) as [Hlt|Hge];
    cbn [stateOf traceOf fst snd]; rewrite ?armed_clear_app.
  - split; [done|]. split; [exact Hw|]. split; [done|]. split; [|lia]. intros _.
    split; [done|]. split; [done|]. by rewrite decide_True by done.
  - split; [done|]. split; [exact Hw|]. split; [done|]. split; [lia|]. intros _.
    split; [done|]. by rewrite decide_False by done.
Qed.

(** [disconnect()] a second time does nothing at all; and a [connect()]
    after it opens a new socket. *)
Theorem disconnect_is_idempotent (c : t) :
  let c' := stateOf (step Disconnect c) in
  step Disconnect c' = (Done tt, c', []) /\
  opened_sockets (traceOf (step Connect c')) = [socket_url c] /\
  (WebSocket_accepts (socket_url c) = true ->
     state (stateOf (step Connect c')) = connecting /\
     ws (stateOf (step Connect c')) = Some {| url := socket_url c; ready := CONNECTING |}).
Proof.
  cbn zeta. cbn [step].
  destruct (cleared_fields c) as (Hw & Hs & Ho & Hn & Hsid & Hnt & Hr & Ha).
  assert (state (stateOf (disconnect c)) = disconnected /\
          ws (stateOf (disconnect c)) = None /\
          reconnectTimer (stateOf (disconnect c)) = None /\
          activityTimer (stateOf (disconnect c)) = None /\
          options (stateOf (disconnect c)) = options c) as (Hst & Hws & Hrt & Hat & Hop).
  { rewrite disconnect_run. cbn zeta. cbn [stateOf fst snd].
    destruct (ws c); cbn; rewrite ?Hw; done. }
  set (c' := stateOf (disconnect c)) in *.
  assert (socket_url c' = socket_url c) as Hu
      by (unfold socket_url, resolveWSHost; by rewrite Hop).
  split; [|split].
  - rewrite disconnect_run. cbn zeta. rewrite (clearTimers_nothing_held c' Hrt Hat).
    cbn [stateOf fst snd]. unfold held. rewrite Hrt, Hat, Hws, Hst. cbn.
    rewrite decide_True by done. destruct c'; cbn in *; by subst.
  - by rewrite connect_opens, Hst, Hu.
  - intros Hacc. rewrite connect_run, Hst. cbn. by rewrite Hu, Hacc.
Qed.

(** *** Keepalive *)

Lemma count_sublist {A} (P : A -> bool) (l1 l2 : list A) :
  l1 `sublist_of` l2 -> length (List.filter P l1) <= length (List.filter P l2).
Proof.
  induction 1 as [|x l1 l2 _ IH|x l1 l2 _ IH]; cbn; [lia|destruct (P x); cbn; lia|].
  destruct (P x); cbn; lia.
Qed.

Lemma count_snoc {A} (P : A -> bool) (l : list A) (x : A) :
  length (List.filter P (l ++ [x])) = length (List.filter P l) + (if P x then 1 else 0).
Proof. rewrite List.filter_app, length_app. cbn. by destruct (P x). Qed.

Lemma count_removed (P : timer -> bool) (i : nat) (l : list timer) (tm : timer) :
  tm ∈ l -> tid tm = i -> P tm = true ->
  length (List.filter P (filter (fun x => tid x <> i) l)) + 1 <= length (List.filter P l).
Proof.
  intros Hin Hi HP. induction l as [|x l IH]; [by apply not_elem_of_nil in Hin|].
  apply elem_of_cons in Hin as [<-|Hin].
  - rewrite filter_cons_False by (cbn; lia). cbn [List.filter]. rewrite HP. cbn.
    pose proof (count_sublist P _ _ (sublist_filter (fun x => tid x <> i) l)). lia.
  - specialize (IH Hin). destruct (decide (tid x <> i)).
    + rewrite filter_cons_True by done. cbn [List.filter]. destruct (P x); cbn; lia.
    + rewrite filter_cons_False by done. cbn [List.filter]. destruct (P x); cbn; lia.
Qed.

Lemma sent_clear (l : list nat) (tr : list effect) :
  sent ((ClearTimeout <$> l) ++ tr) = sent tr.
Proof. by induction l. Qed.

Lemma sent_handleDisconnect (c : t) : sent (traceOf (handleDisconnect c)) = [].
Proof.
  rewrite handleDisconnect_run. cbn zeta.
  assert (forall l, sent (ClearTimeout <$> l) = []) as Hcl by (intros l; by induction l).
  repeat case_decide; cbn [traceOf snd]; rewrite ?sent_clear, ?Hcl; done.
Qed.

Lemma sent_disconnect (c : t) : sent (traceOf (disconnect c)) = [].
Proof.
  rewrite disconnect_run. cbn zeta. cbn [traceOf snd]. rewrite sent_clear.
  by destruct (decide (state c = disconnected)), (ws c).
Qed.

Lemma sent_connect (c : t) : sent (traceOf (connect c)) = [].
Proof.
  rewrite connect_run. case_match; [done|]. cbn zeta. case_match; [done|].
  cbn [traceOf snd]. change (sent (?a :: ?b :: ?l)) with (sent l).
  apply sent_handleDisconnect.
Qed.

Lemma pending_handleDisconnect (c : t) :
  pending_pings (stateOf (handleDisconnect c)) <= pending_pings c.
Proof.
  rewrite handleDisconnect_run. cbn zeta.
  pose proof (count_sublist is_ping _ _ (cleared_sublist (set_ws None c))) as Hsub.
  cbn [timers set_ws] in Hsub. unfold pending_pings.
  destruct (decide (state c = disconnected)); [|destruct (decide (_ < 6))];
    cbn [stateOf fst snd timers set_reconnectTimer set_timers set_state]; [done| |done].
  rewrite count_snoc. unfold is_ping at 2. cbn [cb]. lia.
Qed.

Lemma pending_disconnect (c : t) :
  pending_pings (stateOf (disconnect c)) <= pending_pings c.
Proof.
  rewrite disconnect_run. cbn zeta.
  pose proof (count_sublist is_ping _ _ (cleared_sublist c)) as Hsub.
  unfold pending_pings. by destruct (ws c).
Qed.

Lemma pending_connect (c : t) :
  pending_pings (stateOf (connect c)) <= pending_pings c.
Proof.
  rewrite connect_run. case_match; [done|]. cbn zeta. case_match; [done|].
  apply (pending_handleDisconnect (set_state connecting c)).
Qed.

Lemma no_ping_held (c : t) (l : list timer) :
  tracked c ->
  l = match activityTimer c with
      | Some i => filter (fun tm => tid tm <> i) (timers c)
      | None => timers c
      end ->
  List.filter is_ping l = [].
Proof.
  intros Htr ->.
  assert (forall l', (forall tm, tm ∈ l' -> is_ping tm = false) -> List.filter is_ping l' = [])
    as Hnone.
  { induction l' as [|x l' IH]; [done|]. intros Hall. cbn.
    rewrite (Hall x ltac:(left)). apply IH. intros tm Hin. apply Hall. by right. }
  apply Hnone. intros tm Hin. unfold is_ping.
  destruct (activityTimer c) as [i|] eqn:Ha.
  - apply list_elem_of_filter in Hin as [Hne Hin]. specialize (Htr tm Hin).
    destruct (cb tm); try done. congruence.
  - specialize (Htr tm Hin). destruct (cb tm); try done; congruence.
Qed.

Ltac fin :=
  cbn [List.filter length omap list_omap app Nat.add traceOf stateOf fst snd ret sent
       mbind option_bind];
  lia.

Lemma establishments_one (e : event) :
  establishments [e] =
  match e with
  | Frame text => match establishes text with Some _ => 1 | None => 0 end
  | _ => 0
  end.
Proof. unfold establishments. destruct e; try done. cbn. by destruct (establishes text). Qed.

Lemma keepalive_step (e : event) (c : t) :
  tracked c -> sends_no_ping e = true ->
  length (pings (traceOf (step e c))) + pending_pings (stateOf (step e c))
  <= pending_pings c + establishments [e].
Proof.
  intros Htr Hno. rewrite establishments_one. unfold pings.
  destruct e as [| |msg| |text| |i]; try rewrite elapsed_run; cbn [step].
  - rewrite sent_connect. pose proof (pending_connect c). fin.
  - rewrite sent_disconnect. pose proof (pending_disconnect c). fin.
  - unfold send. rewrite run_gets. unfold sends_no_ping in Hno.
    apply negb_true_iff in Hno.
    destruct (ws c) as [[u []]|]; unfold tell, ret;
      cbn [traceOf stateOf snd fst sent omap list_omap List.filter]; rewrite ?Hno; fin.
  - cbn. unfold pending_pings. cbn. lia.
  - unfold onmessage, establishes. destruct (JSON_parse text) as [msg|]; [|fin].
    cbn [mbind option_bind]. rewrite handleMessage_classify.
    destruct (classify msg) as [x|sid timeout| |]; cbn zeta; cbn [length]; try (fin).
    + rewrite resetActivityTimer_run. cbn zeta. cbn [traceOf stateOf fst snd].
      unfold pending_pings. cbn [timers set_activityTimer set_timers set_state set_socketId
                                 activityTimer nextTimer].
      rewrite count_snoc. cbn [is_ping cb].
      rewrite (no_ping_held c _ Htr eq_refl).
      rewrite !sent_app.
      destruct (decide (state c = connected)), (activityTimer c); fin.
    + change (traceOf (?x, ?y, ?z)) with z. change (stateOf (?x, ?y, ?z)) with y.
      rewrite sent_disconnect. pose proof (pending_disconnect c). fin.
  - unfold onclose. rewrite sent_handleDisconnect.
    pose proof (pending_handleDisconnect c). fin.
  - destruct (find _ _) as [tm|] eqn:Hf; [|fin].
    apply find_some in Hf as [Hin Hi]. apply list_elem_of_In in Hin.
    apply bool_decide_eq_true in Hi.
    pose proof (count_sublist is_ping _ _ (sublist_filter (fun x => tid x <> i) (timers c)))
      as Hsub.
    destruct (cb tm) eqn:Hcb.
    + cbn [run_callback]. rewrite sent_connect. pose proof (pending_connect (set_timers
        (filter (fun x => tid x <> i) (timers c)) (nextTimer c) c)) as Hc.
      unfold pending_pings in *. cbn [timers set_timers] in Hc. fin.
    + rewrite ping_callback_run. cbn zeta. cbn [traceOf stateOf fst snd].
      unfold pending_pings. cbn [timers set_activityTimer set_timers ws nextTimer].
      rewrite count_snoc. cbn [is_ping cb].
      pose proof (count_removed is_ping i (timers c) tm Hin Hi) as Hrm.
      unfold is_ping in Hrm at 1. rewrite Hcb in Hrm. specialize (Hrm eq_refl).
      rewrite sent_app.
      destruct (ws c) as [[u []]|]; cbn [sent omap list_omap app List.filter];
        rewrite ?(eq_refl : is_ping_frame (Message "realtime:ping" None "{}") = true);
        fin.
    + rewrite grace_callback_run. cbn [ws set_timers].
      unfold pending_pings in *.
      destruct (ws c); cbn [traceOf stateOf fst snd timers set_ws set_timers]; fin.
Qed.

Lemma pings_app (t1 t2 : list effect) : pings (t1 ++ t2) = pings t1 ++ pings t2.
Proof. unfold pings. by rewrite sent_app, List.filter_app. Qed.

Lemma establishments_cons (e : event) (es : list event) :
  establishments (e :: es) = establishments [e] + establishments es.
Proof.
  unfold establishments. destruct e; cbn; try done.
  by destruct (establishes text).
Qed.

(** The keepalive pings once.  In a run of a connection, the pings written
    to the socket are at most as many as the connection-established frames
    received: after its ping a connection sends no second one, whatever
    frames arrive, until the server establishes the connection anew. *)
Theorem one_ping_per_establishment (o : RealtimeOptions) (es : list event) :
  forallb sends_no_ping es = true ->
  length (pings (snd (run es (new o)))) <= establishments es.
Proof.
  intros Hno.
  assert (forall c, wf c ->
            length (pings (snd (run es c))) + pending_pings (fst (run es c))
            <= pending_pings c + establishments es) as Hrun.
  { induction es as [|e es IH]; intros c Hwf; [cbn; lia|].
    cbn in Hno. apply andb_true_iff in Hno as [He Hes].
    cbn [run fst snd]. rewrite pings_app, length_app, establishments_cons.
    pose proof (keepalive_step e c (proj1 Hwf) He).
    pose proof (IH Hes (stateOf (step e c)) (wf_step e c Hwf)). lia. }
  specialize (Hrun (new o) (wf_new o)). unfold pending_pings in Hrun at 2.
  cbn in Hrun. lia.
Qed.

End Facts.
(** *** On the example host *)

(** The one timer of an established connection is the one its field holds. *)
Lemma timers_never_pile_up_witness :
  timers Host.connected0 = [{| tid := 1; delay := Finite 5000; cb := CbPing |}] /\
  Forall (fun tm => tid tm ∈ held Host.connected0) (timers Host.connected0).
Proof.
  split; [reflexivity|]. apply Forall_forall.
  exact (proj1 (proj2 (proj2 (proj2
    (timers_never_pile_up (H := Host.example) Host.opts
       [Connect; Opened; Frame (Host.stringify Host.established)]))))).
Defined.

(** A second close and the expiry of the reconnect timer do not lower the
    counter of a connection whose socket closed once. *)
Lemma attempt_counter_is_reset_by_open_only_witness :
  let c := fst (run (H := Host.example) [Connect; Closed] (new Host.opts)) in
  (Opened ∉ [Closed; Elapsed 1]) /\ reconnectAttempts c = 1 /\
  1 <= reconnectAttempts (fst (run (H := Host.example) [Closed; Elapsed 1] c)).
Proof.
  cbn zeta.
  assert (Opened ∉ [Closed; Elapsed 1]) as Hno.
  { rewrite !not_elem_of_cons. repeat split; try done. apply not_elem_of_nil. }
  split; [exact Hno|]. split; [reflexivity|].
  exact (proj2 (proj2 (proj2 (attempt_counter_is_reset_by_open_only (H := Host.example))))
           [Closed; Elapsed 1]
           (fst (run (H := Host.example) [Connect; Closed] (new Host.opts))) Hno).
Defined.

(** The connection that gave up, connected again by hand. *)
Lemma reconnect_after_giving_up_witness :
  state Host.gave_up = unavailable /\ reconnectAttempts Host.gave_up = 6 /\
  state (fst (run (H := Host.example) [Connect; Closed] Host.gave_up)) = unavailable /\
  delay <$> armed (snd (run (H := Host.example) [Connect; Opened; Closed] Host.gave_up))
  = [Finite 1000].
Proof.
  split; [reflexivity|]. split; [reflexivity|].
  destruct (reconnect_after_giving_up (H := Host.example) Host.gave_up)
    as (_ & Hst & _ & _ & _ & Harm).
  - by vm_compute.
  - by vm_compute.
  - vm_compute. lia.
  - by apply (tracked_nil Host.gave_up).
  - reflexivity.
  - split; [exact Hst | exact Harm].
Defined.

(** The establishment of the test suite, with an activity timeout of 5 s. *)
Lemma established_starts_keepalive_witness :
  let r := step (H := Host.example) (Frame (Host.stringify Host.established))
             (fst (run (H := Host.example) [Connect; Opened] (new Host.opts))) in
  state (stateOf r) = connected /\ id (stateOf r) = VStr "123.456" /\
  delay <$> armed (traceOf r) = [Finite 5000].
Proof.
  cbn zeta.
  destruct (established_starts_keepalive (H := Host.example)
              (fst (run (H := Host.example) [Connect; Opened] (new Host.opts)))
              (Host.stringify Host.established) Host.established Host.established_data
              (VStr "123.456") (VNum 5))
    as (_ & Hid & Hst & _ & Harm & _); [by vm_compute..|].
  split; [exact Hst|]. split; [exact Hid|]. rewrite Harm. reflexivity.
Defined.

(** [connect()] twice on a new connection. *)
Lemma connect_is_idempotent_witness :
  let c' := stateOf (step (H := Host.example) Connect (new Host.opts)) in
  state c' = connecting /\ step (H := Host.example) Connect c' = (Done tt, c', []).
Proof.
  cbn zeta. split; [reflexivity|].
  destruct (connect_is_idempotent (H := Host.example) (new Host.opts)) as (_ & Hsame & _);
    [by left | exact Hsame].
Defined.

(** [connect()] where no socket can be constructed. *)
Lemma refused_socket_is_handled_as_a_close_witness :
  let r := step (H := Host.offline) Connect (new Host.opts) in
  ws (stateOf r) = None /\ state (stateOf r) = connecting /\
  reconnectAttempts (stateOf r) = 1 /\ delay <$> armed (traceOf r) = [Finite 1000].
Proof.
  cbn zeta.
  destruct (refused_socket_is_handled_as_a_close (H := Host.offline) (new Host.opts))
    as (_ & Hws & _ & Hlt & _); [by vm_compute | by vm_compute | reflexivity |].
  destruct Hlt as (Hst & Hn & Harm); [vm_compute; lia|].
  split; [exact Hws|]. split; [exact Hst|]. split; [exact Hn|].
  rewrite Harm. reflexivity.
Defined.

(** An established connection, disconnected and connected again. *)
Lemma disconnect_is_idempotent_witness :
  let c' := stateOf (step (H := Host.example) Disconnect Host.connected0) in
  state c' = disconnected /\
  step (H := Host.example) Disconnect c' = (Done tt, c', []) /\
  state (stateOf (step (H := Host.example) Connect c')) = connecting.
Proof.
  cbn zeta. split; [reflexivity|].
  destruct (disconnect_is_idempotent (H := Host.example) Host.connected0)
    as (Hsame & _ & Hagain).
  split; [exact Hsame|]. by apply Hagain.
Defined.

(** One establishment, and the one ping its activity timer sends. *)
Lemma one_ping_per_establishment_witness :
  let es := [Connect; Opened; Frame (Host.stringify Host.established);
             Elapsed 1; Elapsed 2; Elapsed 1] in
  forallb sends_no_ping es = true /\
  length (pings (snd (run (H := Host.example) es (new Host.opts)))) <= 1.
Proof.
  cbn zeta. split; [reflexivity|].
  apply (one_ping_per_establishment (H := Host.example) Host.opts
           [Connect; Opened; Frame (Host.stringify Host.established);
            Elapsed 1; Elapsed 2; Elapsed 1]).
  reflexivity.
Defined.

End ConnectionProps.


Module ChannelProps.
Import MonFacts Channel ChannelFacts.

Section Facts.

Lemma set_add_elem (f : EventCallback) (l : list EventCallback) : f ∈ set_add f l.
Proof.
  unfold set_add. case_bool_decide; [done|]. apply elem_of_app. right. left.
Qed.

Lemma set_add_NoDup (f : EventCallback) (l : list EventCallback) :
  NoDup l -> NoDup (set_add f l).
Proof.
  intros Hnd. unfold set_add. case_bool_decide; [done|].
  apply NoDup_app. split; [done|]. split; [|apply NoDup_singleton].
  intros x Hx Hx'. apply list_elem_of_singleton in Hx' as ->. done.
Qed.

Lemma set_add_idem (f : EventCallback) (l : list EventCallback) :
  set_add f (set_add f l) = set_add f l.
Proof.
  unfold set_add at 1. rewrite bool_decide_true by apply set_add_elem. done.
Qed.

Lemma listeners_bind (c : t) (ev ev' : string) (f : EventCallback) :
  listeners (stateOf (bind ev f c)) ev' =
  if decide (ev' = ev) then set_add f (listeners c ev) else listeners c ev'.
Proof.
  unfold listeners, bind, modify, stateOf. cbn.
  destruct (decide (ev' = ev)) as [->|Hne]; [by rewrite lookup_insert_eq|].
  by rewrite lookup_insert_ne.
Qed.

Lemma listeners_unbind (c : t) (ev ev' : string) (f : option EventCallback) :
  listeners (stateOf (unbind ev f c)) ev' =
  if decide (ev' = ev) then
    match f with Some g => set_delete g (listeners c ev) | None => [] end
  else listeners c ev'.
Proof.
  unfold listeners, unbind, modify, stateOf.
  destruct f as [g|]; cbn; destruct (decide (ev' = ev)) as [->|Hne].
  - rewrite lookup_alter_eq. by destruct (bindings c !! ev).
  - by rewrite lookup_alter_ne.
  - by rewrite lookup_delete_eq.
  - by rewrite lookup_delete_ne.
Qed.

(** [bind] keeps the callbacks of an event as a set in insertion order: a
    callback bound a second time is not called a second time, the callbacks
    bound before keep their places, and the other events are untouched.
    [emit] then calls exactly these callbacks, in that order, each with the
    data. *)
Theorem bind_adds_a_callback_once (c : t) (ev : string) (f : EventCallback) (data : value) :
  let c' := stateOf (bind ev f c) in
  f ∈ listeners c' ev /\
  (f ∉ listeners c ev -> listeners c' ev = listeners c ev ++ [f]) /\
  (f ∈ listeners c ev -> listeners c' ev = listeners c ev) /\
  (NoDup (listeners c ev) -> NoDup (listeners c' ev)) /\
  (forall ev', ev' <> ev -> listeners c' ev' = listeners c ev') /\
  stateOf (bind ev f c') = c' /\
  emit ev data c' = (Done tt, c', (fun g => Call g data) <$> listeners c' ev).
Proof.
  cbn zeta.
  split; [rewrite listeners_bind, decide_True by done; apply set_add_elem|].
  split; [intros Hn; rewrite listeners_bind, decide_True by done;
          unfold set_add; by rewrite bool_decide_false|].
  split; [intros Hn; rewrite listeners_bind, decide_True by done;
          unfold set_add; by rewrite bool_decide_true|].
  split; [rewrite listeners_bind, decide_True by done; apply set_add_NoDup|].
  split; [intros ev' Hne; by rewrite listeners_bind, decide_False|].
  split; [|by rewrite emit_run].
  unfold bind, modify, stateOf. cbn. rewrite lookup_insert_eq. cbn.
  rewrite insert_insert_eq. by rewrite set_add_idem.
Qed.

(** [unbind] with a callback takes that callback out and leaves the others
    of the event in their order; without a callback it takes out every
    callback of the event; [unbindAll] every callback of every event.  None
    touches another event, and unbinding what [bind] has just added gives
    back the callbacks there were. *)
Theorem unbind_removes_callbacks (c : t) (ev : string) (f : EventCallback) :
  let c1 := stateOf (unbind ev (Some f) c) in
  let c2 := stateOf (unbind ev None c) in
  (f ∉ listeners c1 ev) /\
  listeners c1 ev = filter (fun g => g <> f) (listeners c ev) /\
  (f ∉ listeners c ev -> listeners c1 ev = listeners c ev) /\
  listeners c2 ev = [] /\
  (forall ev', ev' <> ev ->
     listeners c1 ev' = listeners c ev' /\ listeners c2 ev' = listeners c ev') /\
  (forall ev', listeners (stateOf (unbindAll c)) ev' = []) /\
  (f ∉ listeners c ev ->
     listeners (stateOf (unbind ev (Some f) (stateOf (bind ev f c)))) ev = listeners c ev).
Proof.
  cbn zeta. rewrite !listeners_unbind, !decide_True by done. unfold set_delete.
  assert (forall l : list EventCallback, f ∉ l -> filter (fun g => g <> f) l = l) as Hid.
  { intros l Hn. induction l as [|x l IH]; [done|].
    apply not_elem_of_cons in Hn as [Hx Hl].
    rewrite filter_cons_True by done. by rewrite IH. }
  split; [intros Hin; by apply list_elem_of_filter in Hin as [? _]|].
  split; [done|]. split; [apply Hid|]. split; [done|].
  split; [intros ev' Hne; by rewrite !listeners_unbind, !decide_False|].
  split; [done|].
  intros Hn. rewrite listeners_bind, decide_True by done. unfold set_add.
  rewrite bool_decide_false by done. rewrite filter_app, Hid by done.
  rewrite filter_cons_False by (cbn; tauto). by rewrite app_nil_r.
Qed.

Lemma called_calls (data : value) (l : list EventCallback) :
  called ((fun g => Call g data) <$> l) = (fun g => (g, data)) <$> l.
Proof. induction l as [|g l IH]; [done|]. cbn. by f_equal. Qed.

Lemma called_app (t1 t2 : list effect) : called (t1 ++ t2) = called t1 ++ called t2.
Proof. apply omap_app. Qed.

Lemma warnings_calls (data : value) (l : list EventCallback) :
  warnings ((fun g => Call g data) <$> l) = [].
Proof. by induction l. Qed.

(** *** Presence members *)

Lemma assoc_upsert (k k' : string) (v : value) (l : list (string * value)) :
  assoc k' (upsert k v l) = if decide (k' = k) then Some v else assoc k' l.
Proof.
  assert (forall l, k' <> k -> assoc k' (without k l) = assoc k' l) as Hw.
  { intros l0 Hne. induction l0 as [|[a b] l0 IH]; [done|]. cbn.
    destruct (String.eqb k a) eqn:E.
    - apply String.eqb_eq in E as <-. rewrite IH.
      apply String.eqb_neq in Hne. by rewrite Hne.
    - cbn. by rewrite IH. }
  induction l as [|[a b] l IH]; cbn.
  - destruct (decide (k' = k)) as [->|Hne]; [by rewrite String.eqb_refl|].
    apply String.eqb_neq in Hne. by rewrite Hne.
  - destruct (String.eqb k a) eqn:E.
    + apply String.eqb_eq in E as <-. cbn.
      destruct (decide (k' = k)) as [->|Hne]; [by rewrite String.eqb_refl|].
      rewrite Hw by done. apply String.eqb_neq in Hne. by rewrite Hne.
    + cbn. rewrite IH. destruct (decide (k' = k)) as [->|Hne]; [by rewrite E|done].
Qed.


Lemma includes_elem (x : string) (l : list string) : includes x l = true <-> x ∈ l.
Proof.
  unfold includes. rewrite existsb_exists. split.
  - intros (y & Hin & Heq). apply String.eqb_eq in Heq as ->. by apply list_elem_of_In.
  - intros Hin. exists x. split; [by apply list_elem_of_In|apply String.eqb_refl].
Qed.

Lemma handleMemberAdded_run (c : t) (f : PresenceFields) (info : PresenceInfo) :
  ext c = Some f ->
  let ids_ := if negb (includes (user_id info) (ids (presence f)))
              then ids (presence f) ++ [user_id info] else ids (presence f) in
  let p := {| count := num_of_nat (length ids_); ids := ids_;
              hash := OObj (upsert (user_id info) (user_info info)
                              (spread (hash (presence f)))) |} in
  handleMemberAdded info c =
  (Done tt, set_ext (Some (set_presence p f)) c,
   (fun g => Call g (PresenceInfo_value info)) <$> listeners c "realtime:member_added").
Proof.
  intros Hx. cbn zeta. unfold handleMemberAdded, asPresence.
  rewrite run_assoc, run_gets, Hx, run_some. cbn zeta. rewrite run_modify.
  by rewrite emit_run.
Qed.


Lemma getMembers_elem (f : PresenceFields) (i : PresenceInfo) :
  i ∈ getMembers f <->
  user_id i ∈ ids (presence f) /\ getMember f (user_id i) = Some i.
Proof.
  unfold getMembers, getMember. rewrite list_elem_of_omap. split.
  - intros (u & Hu & Hi). destruct (truthy _) eqn:Ht; [|done]. cbn in Hi.
    injection Hi as <-. cbn. by rewrite Ht.
  - intros [Hu Hi]. exists (user_id i). split; [done|]. exact Hi.
Qed.

(** [getMembers] and [getMember] agree: the members listed are the ids of
    the sequence that [getMember] finds, each with what [getMember] returns
    for it; so there are never more members listed than ids counted. *)
Theorem getMembers_lists_what_getMember_finds (f : PresenceFields) :
  (forall i, i ∈ getMembers f <->
             user_id i ∈ ids (presence f) /\ getMember f (user_id i) = Some i) /\
  (forall u, getMember f u = None <-> truthy (get (hash (presence f)) u) = false) /\
  length (getMembers f) <= length (ids (presence f)).
Proof.
  split; [apply getMembers_elem|split].
  - intros u. unfold getMember. by destruct (truthy _).
  - unfold getMembers. induction (ids (presence f)) as [|u l IH]; [done|].
    cbn. destruct (negb _); cbn; lia.
Qed.

(** A member that joins is appended to the id sequence unless its id is
    there already, and its user-info replaces what the hash held for the id;
    no id is duplicated, the other members and [me] are as before, and the
    [realtime:member_added] callbacks are called with the member. *)
Theorem member_added_is_upserted (c : t) (f : PresenceFields) (info : PresenceInfo) :
  ext c = Some f ->
  let r := handleMemberAdded info c in
  exists f',
    ext (stateOf r) = Some f' /\
    (user_id info ∈ ids (presence f) -> ids (presence f') = ids (presence f)) /\
    (user_id info ∉ ids (presence f) ->
       ids (presence f') = ids (presence f) ++ [user_id info]) /\
    (NoDup (ids (presence f)) -> NoDup (ids (presence f'))) /\
    get (hash (presence f')) (user_id info) = user_info info /\
    (truthy (user_info info) = true -> getMember f' (user_id info) = Some info) /\
    (forall u, u <> user_id info -> plain (hash (presence f)) = true ->
       getMember f' u = getMember f u) /\
    me f' = me f /\
    called (traceOf r) =
      (fun g => (g, PresenceInfo_value info)) <$> listeners c "realtime:member_added" /\
    subscribed (stateOf r) = subscribed c /\ bindings (stateOf r) = bindings c.
Proof.
  intros Hx. cbn zeta. rewrite (handleMemberAdded_run c f info Hx). cbn zeta.
  eexists. split; [reflexivity|].
  cbn [presence set_presence ids hash traceOf stateOf fst snd me self].
  pose proof (includes_elem (user_id info) (ids (presence f))) as Hiff.
  assert (get (OObj (upsert (user_id info) (user_info info)
                       (spread (hash (presence f))))) (user_id info)
          = user_info info) as Hget
      by (cbn; by rewrite assoc_upsert, decide_True).
  split.
  { intros Hin. apply Hiff in Hin. by rewrite Hin. }
  split.
  { intros Hin. destruct (includes _ _); [|done]. destruct Hin. by apply Hiff. }
  split.
  { intros Hnd. destruct (includes _ _) eqn:Hinc; [done|]. cbn [negb].
    apply NoDup_app. split; [done|]. split; [|apply NoDup_singleton].
    intros x Hx1 Hx2. apply list_elem_of_singleton in Hx2 as ->.
    apply Hiff in Hx1. congruence. }
  split; [exact Hget|].
  split.
  { intros Ht. unfold getMember. cbn [presence hash set_presence].
    rewrite Hget, Ht. by destruct info. }
  split.
  { intros u Hu Hpl. unfold getMember. cbn [presence hash get set_presence].
    rewrite assoc_upsert, decide_False by done.
    by destruct (hash (presence f)). }
  split; [done|]. split; [apply called_calls|done].
Qed.


Lemma without_absent (k : string) (l : list (string * value)) :
  assoc k l = None -> without k l = l.
Proof.
  induction l as [|[a b] l IH]; [done|]. cbn.
  destruct (String.eqb k a); [done|]. intros Hl. by rewrite IH.
Qed.




(** *** The subscription flag *)

Lemma handleSubscribed_run (c : t) (data : value) (self_ : option PresenceInfo) :
  handleSubscribed data self_ c =
  (Done tt,
   set_subscribed true
     match ext c with
     | Some f =>
         set_ext (Some {| presence :=
                            if isPresenceData data then
                              {| count := num_of_nat
                                            (length (strings (presence_field data "ids")));
                                 ids := strings (presence_field data "ids");
                                 hash := obj_or_empty (presence_field data "hash") |}
                            else empty_presence;
                          self := self_ |}) c
     | None => c
     end,
   match ext c with
   | Some _ =>
       if isPresenceData data || nullish data then []
       else [Warn ("PresenceChannel " +:+ quoted (name c) +:+
                   " received malformed presence snapshot in realtime:subscription_succeeded")]
   | None => []
   end ++ ((fun g => Call g data) <$> listeners c "realtime:subscription_succeeded")).
Proof.
  unfold handleSubscribed. rewrite run_gets.
  destruct (ext c) as [f|] eqn:Hx; [|by rewrite super_handleSubscribed_run].
  unfold presence_handleSubscribed.
  assert (isPresenceData data = true -> isArray (presence_field data "ids") = true) as Harr.
  { unfold isPresenceData, presence_field. intros Hp.
    destruct (negb (truthy data) || negb (is_object data)); [done|].
    destruct (prop data "presence") as [p|]; [|done]. cbn.
    destruct (negb (truthy p) || negb (is_object p)); [done|].
    destruct (prop p "count"), (prop p "ids") as [i|], (prop p "hash"); try done.
    cbn. by destruct (is_number _), (isArray i). }
  destruct (isPresenceData data) eqn:Hp.
  - rewrite run_modify, super_handleSubscribed_run. rewrite (Harr eq_refl).
    cbn [orb app]. by destruct self_.
  - rewrite run_assoc, run_modify. cbn [orb].
    destruct (nullish data) eqn:Hn.
    + rewrite run_ret, super_handleSubscribed_run. by destruct self_.
    + rewrite run_assoc, run_gets, run_tell, super_handleSubscribed_run.
      by destruct self_.
Qed.

(** A subscription success marks the channel subscribed and calls the
    [realtime:subscription_succeeded] callbacks with the data as received,
    also when a presence channel finds the snapshot malformed: it then
    holds no member, and warns unless there was no data at all.  A
    subscription error marks the channel unsubscribed and calls the
    [realtime:subscription_error] callbacks.  Neither changes a binding. *)
Theorem subscription_flag_follows_the_server (c : t) (data : value)
    (self_ : option PresenceInfo) :
  let ok := handleSubscribed data self_ c in
  let ko := handleError data c in
  subscribed (stateOf ok) = true /\ bindings (stateOf ok) = bindings c /\
  called (traceOf ok) =
    (fun g => (g, data)) <$> listeners c "realtime:subscription_succeeded" /\
  (isPresenceData data = false -> forall f, ext c = Some f ->
     ext (stateOf ok) = Some {| presence := empty_presence; self := self_ |} /\
     length (warnings (traceOf ok)) = if nullish data then 0 else 1) /\
  (isPresenceData data = true \/ ext c = None -> warnings (traceOf ok) = []) /\
  subscribed (stateOf ko) = false /\ bindings (stateOf ko) = bindings c /\
  ext (stateOf ko) = ext c /\
  called (traceOf ko) = (fun g => (g, data)) <$> listeners c "realtime:subscription_error".
Proof.
  cbn zeta.
  assert (handleError data c =
          (Done tt, set_subscribed false c,
           (fun g => Call g data) <$> listeners c "realtime:subscription_error")) as ->.
  { unfold handleError. rewrite run_modify. by rewrite emit_run. }
  rewrite handleSubscribed_run. cbn [stateOf traceOf fst snd].
  rewrite called_app, !called_calls.
  split; [done|]. split; [by destruct (ext c)|].
  split; [by destruct (ext c), (isPresenceData data), (nullish data)|].
  split.
  { intros Hp f Hx. rewrite Hx, Hp. cbn [orb]. split; [done|].
    unfold warnings. rewrite omap_app. fold (warnings ((fun g => Call g data) <$>
      listeners c "realtime:subscription_succeeded")). rewrite warnings_calls.
    by destruct (nullish data). }
  split.
  { unfold warnings. rewrite omap_app. fold (warnings ((fun g => Call g data) <$>
      listeners c "realtime:subscription_succeeded")). rewrite warnings_calls.
    intros [Hp|Hx]; [rewrite Hp; by destruct (ext c)|by rewrite Hx]. }
  done.
Qed.

End Facts.
(** *** On the examples of the test suite *)

(** A callback bound twice is called once. *)
Lemma bind_adds_a_callback_once_witness :
  let c := stateOf (bind "my-event" (UserCallback 1) (new "my-channel")) in
  listeners c "my-event" = [UserCallback 1] /\
  listeners (stateOf (bind "my-event" (UserCallback 1) c)) "my-event" = [UserCallback 1].
Proof.
  cbn zeta.
  destruct (bind_adds_a_callback_once (new "my-channel") "my-event" (UserCallback 1)
              VUndefined) as (_ & Hnew & _ & _ & _ & Hsame & _).
  split.
  - apply Hnew, not_elem_of_nil.
  - rewrite Hsame. apply Hnew, not_elem_of_nil.
Defined.

(** Binding a callback and unbinding it leaves the bindings as they were. *)
Lemma unbind_removes_callbacks_witness :
  listeners (stateOf (unbind "my-event" (Some (UserCallback 1))
                        (stateOf (bind "my-event" (UserCallback 1) (new "my-channel")))))
    "my-event" = [].
Proof.
  apply (unbind_removes_callbacks (new "my-channel") "my-event" (UserCallback 1)).
  apply not_elem_of_nil.
Defined.

(** Alice joins an empty presence channel. *)
Lemma member_added_is_upserted_witness :
  exists f',
    ext (stateOf (handleMemberAdded Host.alice (newPresence "presence-room"))) = Some f' /\
    ids (presence f') = ["1"] /\ getMember f' "1" = Some Host.alice.
Proof.
  destruct (member_added_is_upserted (newPresence "presence-room")
              {| presence := empty_presence; self := None |} Host.alice eq_refl)
    as (f' & Hext & _ & Hids & _ & _ & Hget & _).
  exists f'. split; [exact Hext|]. split.
  - apply Hids, not_elem_of_nil.
  - by apply Hget.
Defined.


(** The snapshot of the test suite, on a presence channel. *)
Lemma subscription_flag_follows_the_server_witness :
  let ok := handleSubscribed Host.alice_alone None (newPresence "presence-room") in
  subscribed (stateOf ok) = true /\ warnings (traceOf ok) = [] /\
  subscribed (stateOf (handleError VUndefined (stateOf ok))) = false.
Proof.
  cbn zeta.
  destruct (subscription_flag_follows_the_server (newPresence "presence-room")
              Host.alice_alone None) as (Hsub & _ & _ & _ & Hquiet & _).
  split; [exact Hsub|]. split; [apply Hquiet; by left|].
  apply (subscription_flag_follows_the_server
           (stateOf (handleSubscribed Host.alice_alone None (newPresence "presence-room")))
           VUndefined None).
Defined.

End ChannelProps.


Module ClientProps.
Import MonFacts Client ClientFacts MonProps.

Section Facts.
Context `{JSRuntime}.

Lemma frames_app (t1 t2 : list effect) : frames (t1 ++ t2) = frames t1 ++ frames t2.
Proof. apply omap_app. Qed.

Lemma globals_app (t1 t2 : list effect) : globals (t1 ++ t2) = globals t1 ++ globals t2.
Proof. apply omap_app. Qed.

Lemma fetches_app (t1 t2 : list effect) : fetches (t1 ++ t2) = fetches t1 ++ fetches t2.
Proof. apply omap_app. Qed.

Lemma connection_send_open (msg : value) (a : t) :
  connection_send msg a = (Done tt, a, if socket_open a then [Conn (Connection.WsSend msg)] else []).
Proof.
  rewrite connection_send_run. unfold socket_open.
  by destruct (Connection.ws (connection a)) as [[u []]|].
Qed.

(** What a channel effect amounts to: it is recorded, a forwarding closure
    writes at most a frame, and the client is as before. *)
Lemma channel_effect_run (ref : nat) (e : Channel.effect) (a : t) :
  let r := channel_effect ref e a in
  outcomeOf r = Done tt /\ stateOf r = a /\
  calls ref (traceOf r) = Channel.called [e] /\
  globals (traceOf r) = [] /\ fetches (traceOf r) = [] /\
  (forwards e = false -> traceOf r = [Chan ref e]) /\
  (socket_open a = false -> frames (traceOf r) = []).
Proof.
  cbn zeta. unfold channel_effect. rewrite run_tell.
  destruct e as [[n|n] payload|text];
    try (cbn; rewrite ?bool_decide_true by done; by repeat split).
  unfold catch, forwardTrigger.
  destruct (prop payload "event") as [event|];
    [|cbn; rewrite ?bool_decide_true by done; by repeat split].
  rewrite run_some.
  destruct (prop payload "data") as [data|];
    [|cbn; rewrite ?bool_decide_true by done; by repeat split].
  rewrite run_some, connection_send_open.
  destruct (socket_open a); cbn; rewrite ?bool_decide_true by done; by repeat split.
Qed.

Lemma channel_effects_run (ref : nat) (tr : list Channel.effect) (a : t) :
  let r := forEach tr (channel_effect ref) a in
  outcomeOf r = Done tt /\ stateOf r = a /\
  calls ref (traceOf r) = Channel.called tr /\
  globals (traceOf r) = [] /\ fetches (traceOf r) = [] /\
  (forallb (fun e => negb (forwards e)) tr = true -> traceOf r = Chan ref <$> tr) /\
  (socket_open a = false -> frames (traceOf r) = []).
Proof.
  induction tr as [|e tr IH]; [by repeat split|].
  destruct IH as (Ho & Hs & Hc & Hg & Hq & Hp & Hcl).
  destruct (channel_effect_run ref e a) as (Ho1 & Hs1 & Hc1 & Hg1 & Hq1 & Hp1 & Hcl1).
  cbn zeta in *. cbn [forEach].
  rewrite (run_done _ _ a tt a (traceOf (channel_effect ref e a)))
    by (rewrite (result_eta (channel_effect ref e a)) at 1; by rewrite Ho1, Hs1).
  cbn [outcomeOf stateOf traceOf fst snd].
  rewrite calls_app, globals_app, fetches_app, frames_app, Hc, Hg, Hq, Hc1, Hg1, Hq1.
  split; [done|]. split; [done|].
  split; [by destruct e|]. split; [done|]. split; [done|]. split.
  - intros Hno. cbn [forallb] in Hno. apply andb_true_iff in Hno as [He1 Hno].
    apply negb_true_iff in He1. by rewrite (Hp1 He1), (Hp Hno).
  - intros Hcl'. by rewrite (Hcl Hcl'), (Hcl1 Hcl').
Qed.

(** [channel.m(...)]: the instance is replaced by what the method leaves of
    it, the callbacks it called are called, and nothing else changes. *)
Lemma onChannel_run {A} (ref : nat) (m : Channel.Meth A) (ch : Channel.t) (a : t) :
  heap a !! ref = Some ch ->
  let r := onChannel ref m a in
  outcomeOf r = outcomeOf (m ch) /\
  stateOf r = set_heap (<[ref := stateOf (m ch)]> (heap a)) (nextRef a) a /\
  calls ref (traceOf r) = Channel.called (traceOf (m ch)) /\
  globals (traceOf r) = [] /\ fetches (traceOf r) = [] /\
  (forallb (fun e => negb (forwards e)) (traceOf (m ch)) = true ->
     traceOf r = Chan ref <$> traceOf (m ch)) /\
  (socket_open a = false -> frames (traceOf r) = []).
Proof.
  intros Hh. cbn zeta. unfold onChannel. rewrite run_gets, Hh, run_some.
  destruct (m ch) as [[o ch'] tr] eqn:Hm. rewrite run_modify.
  set (a1 := set_heap _ _ a).
  destruct (channel_effects_run ref tr a1) as (Ho & Hs & Hc & Hg & Hq & Hp & Hcl).
  cbn zeta in *.
  rewrite (run_done _ _ a1 tt a1 (traceOf (forEach tr (channel_effect ref) a1)))
    by (rewrite (result_eta (forEach tr (channel_effect ref) a1)) at 1; by rewrite Ho, Hs).
  cbn [outcomeOf stateOf traceOf fst snd].
  destruct o as [x|x]; cbn [ret raise outcomeOf stateOf traceOf fst snd];
    rewrite app_nil_r; by repeat split.
Qed.

(** *** subscribe *)

Lemma sendSubscribe_run (ref : nat) (ch : Channel.t) (a : t) :
  heap a !! ref = Some ch ->
  let n := Channel.name ch in
  sendSubscribe ref a =
  if needs_auth n then
    match authEndpoint (options a) with
    | Some endpoint =>
        if String.eqb endpoint "" then
          onChannel ref (Channel.handleError (AuthError "No auth endpoint configured")) a
        else if negb (truthy (Connection.id (connection a))) then
          onChannel ref (Channel.handleError (AuthError "Not connected")) a
        else
          (Done tt, set_awaiting (awaiting a ++ [(nextReq a, ref)]) (S (nextReq a)) a,
           [FetchAuth (nextReq a) (Connection.id (connection a)) n endpoint])
    | None =>
        onChannel ref (Channel.handleError (AuthError "No auth endpoint configured")) a
    end
  else (Done tt, a,
        if socket_open a
        then [Conn (Connection.WsSend (subscribe_frame [("channel", VStr n)]))] else []).
Proof.
  intros Hh. cbn zeta. unfold sendSubscribe, needs_auth.
  rewrite run_gets, Hh, run_some. cbn zeta.
  destruct (startsWith "private-" (Channel.name ch) || startsWith "presence-" (Channel.name ch));
    [|apply connection_send_open].
  rewrite run_gets. destruct (authEndpoint (options a)) as [ep|]; [|done].
  destruct (String.eqb ep ""); [done|]. rewrite run_gets.
  destruct (negb (truthy _)); [done|]. by rewrite run_gets, run_tell.
Qed.

Lemma subscribe_fresh_run (n : string) (a : t) :
  channel n a = None ->
  let ref := nextRef a in
  let ch := stateOf (Channel.bind "__internal_trigger" (ForwardTrigger n)
                       (if startsWith "presence-" n then Channel.newPresence n
                        else Channel.new n)) in
  let a3 := set_heap (<[ref := ch]> (heap a)) (S ref)
              (set_channels (channels a ++ [(n, ref)]) a) in
  subscribe n a =
  if bool_decide (state a = Connection.connected)
  then (match outcomeOf (sendSubscribe ref a3) with
        | Done _ => Done ref
        | Raised e => Raised e
        end, stateOf (sendSubscribe ref a3), traceOf (sendSubscribe ref a3))
  else (Done ref, a3, []).
Proof.
  unfold channel, subscribe. intros Hl. cbn zeta.
  rewrite run_gets, Hl, run_gets, run_modify, run_modify.
  set (ch0 := if startsWith "presence-" n then _ else _).
  set (a2 := set_channels _ _).
  assert (heap a2 !! nextRef a = Some ch0) as Hh by (cbn; by rewrite lookup_insert_eq).
  destruct (onChannel_run (nextRef a)
              (Channel.bind "__internal_trigger" (ForwardTrigger n)) ch0 a2 Hh)
    as (Ho & Hs & _ & _ & _ & Htr & _).
  specialize (Htr eq_refl).
  rewrite (run_done _ _ a2 tt (stateOf (onChannel (nextRef a)
             (Channel.bind "__internal_trigger" (ForwardTrigger n)) a2)) [])
    by (rewrite (result_eta (onChannel _ _ a2)) at 1; by rewrite Ho, Hs, Htr).
  rewrite Hs. cbn [outcomeOf stateOf traceOf fst snd app].
  assert (set_heap (<[nextRef a := stateOf (Channel.bind "__internal_trigger"
                                              (ForwardTrigger n) ch0)]> (heap a2))
            (nextRef a2) a2
          = set_heap (<[nextRef a := stateOf (Channel.bind "__internal_trigger"
                                                (ForwardTrigger n) ch0)]> (heap a))
              (S (nextRef a)) (set_channels (channels a ++ [(n, nextRef a)]) a)) as ->.
  { subst a2. cbn. by rewrite insert_insert_eq. }
  set (a3 := set_heap _ _ _).
  rewrite run_gets. change (state a3) with (state a).
  destruct (bool_decide (state a = Connection.connected)); [|done].
  unfold andThen. destruct (sendSubscribe (nextRef a) a3) as [[[x|x] s1] t1]; cbn; [|done].
  by rewrite app_nil_r.
Qed.

(** [subscribe] on a name that is not registered, while the connection is
    not [connected]: a new instance is registered under the name, a
    [PresenceChannel] exactly when the name starts with [presence-], not yet
    subscribed and with no callback but the forwarding closure; nothing is
    written to the socket and no authentication is requested.  The other
    names, the connection and the pending identities are untouched. *)
Theorem subscribe_before_connected_only_registers (n : string) (a : t) :
  channel n a = None -> state a <> Connection.connected ->
  let r := subscribe n a in
  outcomeOf r = Done (nextRef a) /\ traceOf r = [] /\
  channel n (stateOf r) = Some (nextRef a) /\
  (exists ch,
     heap (stateOf r) !! nextRef a = Some ch /\
     Channel.name ch = n /\ Channel.subscribed ch = false /\
     Channel.instanceofPresenceChannel ch = startsWith "presence-" n /\
     forall ev, Channel.listeners ch ev =
                if decide (ev = "__internal_trigger") then [ForwardTrigger n] else []) /\
  (forall k, k <> n -> channel k (stateOf r) = channel k a) /\
  connection (stateOf r) = connection a /\
  pendingPresenceSelf (stateOf r) = pendingPresenceSelf a /\
  awaiting (stateOf r) = awaiting a.
Proof.
  intros Hl Hs. cbn zeta. rewrite (subscribe_fresh_run n a Hl). cbn zeta.
  rewrite bool_decide_false by done. cbn [outcomeOf stateOf traceOf fst snd].
  split; [done|]. split; [done|].
  split; [unfold channel; cbn [channels set_heap set_channels];
          by apply lookup_channel_app_r|].
  split.
  - eexists. split; [cbn [heap set_heap]; by rewrite lookup_insert_eq|].
    split; [by destruct (startsWith "presence-" n)|].
    split; [by destruct (startsWith "presence-" n)|].
    split; [by destruct (startsWith "presence-" n)|].
    intros ev. unfold Channel.listeners, Channel.bind, modify, stateOf.
    cbn [fst snd Channel.bindings Channel.set_bindings].
    destruct (decide (ev = "__internal_trigger")) as [->|Hne].
    + rewrite lookup_insert_eq. by destruct (startsWith "presence-" n).
    + rewrite lookup_insert_ne by done. by destruct (startsWith "presence-" n).
  - split; [|done]. intros k Hk. unfold channel. cbn [channels set_heap set_channels].
    clear -Hk. induction (channels a) as [|[k' r] l IH]; cbn.
    + apply String.eqb_neq in Hk. by rewrite Hk.
    + by destruct (String.eqb k k').
Qed.

(** The subscribe handshake of a registered channel, up to the
    authentication.  A public channel has its subscribe frame written at
    once, if the socket is open.  A private or presence channel has not:
    without an auth endpoint, or without a socket id, its
    [realtime:subscription_error] callbacks are called with an [AuthError]
    and nothing is requested; otherwise exactly one authentication is
    requested, for this socket id and channel, and no frame is written
    before it settles. *)
Theorem subscribe_handshake_starts_with_auth (ref : nat) (ch : Channel.t) (a : t) :
  heap a !! ref = Some ch ->
  let n := Channel.name ch in
  let r := sendSubscribe ref a in
  let sid := Connection.id (connection a) in
  (needs_auth n = false ->
     r = (Done tt, a,
          if socket_open a
          then [Conn (Connection.WsSend (subscribe_frame [("channel", VStr n)]))]
          else [])) /\
  (needs_auth n = true ->
     subscribe_frames (traceOf r) = [] /\ outcomeOf r = Done tt /\
     (authEndpoint (options a) = None \/ authEndpoint (options a) = Some "" ->
        fetches (traceOf r) = [] /\
        calls ref (traceOf r) =
          (fun f => (f, AuthError "No auth endpoint configured"))
            <$> Channel.listeners ch "realtime:subscription_error" /\
        heap (stateOf r) !! ref = Some (Channel.set_subscribed false ch)) /\
     (forall endpoint,
        authEndpoint (options a) = Some endpoint -> endpoint <> "" ->
        (truthy sid = false ->
           fetches (traceOf r) = [] /\
           calls ref (traceOf r) =
             (fun f => (f, AuthError "Not connected"))
               <$> Channel.listeners ch "realtime:subscription_error" /\
           heap (stateOf r) !! ref = Some (Channel.set_subscribed false ch)) /\
        (truthy sid = true ->
           traceOf r = [FetchAuth (nextReq a) sid n endpoint] /\
           awaiting (stateOf r) = awaiting a ++ [(nextReq a, ref)] /\
           heap (stateOf r) = heap a))).
Proof.
  intros Hh. cbn zeta. rewrite (sendSubscribe_run ref ch a Hh). cbn zeta.
  split; [by intros ->|]. intros ->.
  assert (forall why,
            let r := onChannel ref (Channel.handleError (AuthError why)) a in
            subscribe_frames (traceOf r) = [] /\ outcomeOf r = Done tt /\
            fetches (traceOf r) = [] /\
            calls ref (traceOf r) =
              (fun f => (f, AuthError why))
                <$> Channel.listeners ch "realtime:subscription_error" /\
            heap (stateOf r) !! ref = Some (Channel.set_subscribed false ch)) as Herr.
  { intros why. cbn zeta.
    destruct (signal_error_run ref ch why a Hh) as (Ho & Hs & Hc & Hf).
    destruct (onChannel_run ref (Channel.handleError (AuthError why)) ch a Hh)
      as (_ & _ & _ & _ & Hq & _).
    cbn zeta in *. rewrite Hs. cbn. by rewrite lookup_insert_eq. }
  destruct (authEndpoint (options a)) as [ep|] eqn:Hep.
  - destruct (String.eqb ep "") eqn:Hemp.
    + apply String.eqb_eq in Hemp as ->.
      destruct (Herr "No auth endpoint configured") as (H1 & H2 & H3 & H4 & H5).
      split; [done|]. split; [done|]. split; [done|].
      intros endpoint [= <-] Hne. done.
    + apply String.eqb_neq in Hemp.
      destruct (truthy (Connection.id (connection a))) eqn:Hsid; cbn [negb].
      * split; [done|]. split; [done|]. split; [intros [?|[= ?]]; done|].
        intros endpoint [= <-] _. split; [done|]. intros _. done.
      * destruct (Herr "Not connected") as (H1 & H2 & H3 & H4 & H5).
        split; [done|]. split; [done|]. split; [intros [?|[= ?]]; done|].
        intros endpoint [= <-] _. split; [done|]. intros ?. done.
  - destruct (Herr "No auth endpoint configured") as (H1 & H2 & H3 & H4 & H5).
    split; [done|]. split; [done|]. split; [done|]. intros endpoint ?. done.
Qed.

(** *** unsubscribe, and frames for a name that is not registered *)

Lemma onChannel_silent {A} (ref : nat) (m : Channel.Meth A) (ch ch' : Channel.t) (x : A)
    (a : t) :
  heap a !! ref = Some ch -> m ch = (Done x, ch', []) ->
  onChannel ref m a = (Done x, set_heap (<[ref := ch']> (heap a)) (nextRef a) a, []).
Proof.
  intros Hh Hm. unfold onChannel. rewrite run_gets, Hh, run_some, Hm, run_modify.
  cbn [forEach]. by rewrite run_ret.
Qed.

Lemma unsubscribe_run (n : string) (ref : nat) (ch : Channel.t) (a : t) :
  channel n a = Some ref -> heap a !! ref = Some ch ->
  unsubscribe n a =
  (Done tt,
   set_channels (delete_channel n (channels a))
     (set_heap (<[ref := Channel.set_bindings ∅
                           (Channel.set_ext (Channel.clearPresenceState <$> Channel.ext ch) ch)]>
                  (heap a)) (nextRef a)
        (set_pendingPresenceSelf (delete n (pendingPresenceSelf a)) a)),
   if socket_open a then [Conn (Connection.WsSend (unsubscribe_frame n))] else []).
Proof.
  unfold channel, unsubscribe. intros Hl Hh. rewrite run_gets, Hl.
  rewrite (run_done _ _ a tt a _ (connection_send_open _ a)).
  unfold pending_delete. rewrite run_modify.
  set (a1 := set_pendingPresenceSelf _ a).
  rewrite (run_done _ _ a1 tt _ []
             (onChannel_silent ref channel_clearPresenceState ch _ tt a1 Hh eq_refl)).
  set (a2 := set_heap _ _ a1).
  assert (heap a2 !! ref = Some (Channel.set_ext
            (Channel.clearPresenceState <$> Channel.ext ch) ch)) as Hh2
      by (subst a2; cbn; by rewrite lookup_insert_eq).
  rewrite (run_done _ _ a2 tt _ []
             (onChannel_silent ref Channel.unbindAll _ _ tt a2 Hh2 eq_refl)).
  cbn [outcomeOf stateOf traceOf fst snd modify]. rewrite !app_nil_r.
  subst a2 a1. cbn. by rewrite insert_insert_eq.
Qed.

Lemma handleMessage_unregistered (msg raw : value) (e n : string) (a : t) :
  prop msg "event" = Some (VStr e) -> prop msg "data" = Some raw ->
  prop msg "channel" = Some (VStr n) -> channel n a = None ->
  handleMessage msg a =
  (Done tt, a, (fun f => Global f (parseData raw)) <$> global_listeners a e).
Proof.
  intros He Hd Hc Hl. unfold handleMessage, global_listeners.
  rewrite He, run_some, Hd, run_some, run_gets.
  assert (forall l, forEach l (fun f => tell (Global f (parseData raw))) a =
                    (Done tt, a, (fun f => Global f (parseData raw)) <$> l)) as Hfe
      by (intros l; apply ChannelFacts.forEach_tell).
  unfold channel in Hl.
  destruct (globalBindings a !! e) as [l|]; cbn [default].
  - rewrite (run_done _ _ a tt a _ (Hfe l)). rewrite Hc, run_some.
    destruct (truthy (VStr n)); [|by rewrite app_nil_r].
    rewrite run_gets, Hl. by rewrite app_nil_r.
  - rewrite run_ret, Hc, run_some. destruct (truthy (VStr n)); [|done].
    by rewrite run_gets, Hl.
Qed.

(** [unsubscribe] takes the channel out of the registry: its unsubscribe
    frame is written if the socket is open, its pending identity is dropped,
    the instance loses every binding and its presence state, and the other
    names keep their instances.  From then on a frame for that name reaches
    the global callbacks bound to its event, and nothing else: no channel
    callback is called and nothing changes.  [unsubscribe] of a name that
    is not registered does nothing. *)
Theorem unsubscribe_forgets_the_channel (n : string) (a : t) :
  (channel n a = None -> unsubscribe n a = (Done tt, a, [])) /\
  (forall ref ch,
     channel n a = Some ref -> heap a !! ref = Some ch ->
     let r := unsubscribe n a in
     let a' := stateOf r in
     outcomeOf r = Done tt /\
     traceOf r = (if socket_open a
                  then [Conn (Connection.WsSend (unsubscribe_frame n))] else []) /\
     channel n a' = None /\
     (forall k, k <> n -> channel k a' = channel k a) /\
     pendingPresenceSelf a' !! n = None /\
     (exists ch',
        heap a' !! ref = Some ch' /\
        (forall ev, Channel.listeners ch' ev = []) /\
        Channel.ext ch' = Channel.clearPresenceState <$> Channel.ext ch /\
        Channel.subscribed ch' = Channel.subscribed ch) /\
     (forall msg raw e,
        prop msg "event" = Some (VStr e) -> prop msg "data" = Some raw ->
        prop msg "channel" = Some (VStr n) ->
        handleMessage msg a' =
        (Done tt, a', (fun f => Global f (parseData raw)) <$> global_listeners a' e))).
Proof.
  split.
  { unfold channel, unsubscribe. intros Hl. by rewrite run_gets, Hl. }
  intros ref ch Hl Hh. cbn zeta. rewrite (unsubscribe_run n ref ch a Hl Hh).
  cbn [outcomeOf stateOf traceOf fst snd].
  assert (lookup_channel n (delete_channel n (channels a)) = None) as Hgone.
  { clear. unfold delete_channel. induction (channels a) as [|[k r] l IH]; [done|].
    destruct (decide (k = n)) as [->|Hne].
    - by rewrite filter_cons_False by (cbn; tauto).
    - rewrite filter_cons_True by done. cbn.
      assert (n <> k) as Hne' by congruence. apply String.eqb_neq in Hne'. by rewrite Hne'. }
  split; [done|]. split; [done|].
  split; [exact Hgone|].
  split; [intros k Hk; unfold channel; cbn; by apply lookup_delete_channel_ne|].
  split; [cbn; by rewrite lookup_delete_eq|].
  split.
  { eexists. split; [cbn; by rewrite lookup_insert_eq|]. by repeat split. }
  intros msg raw e He Hd Hc.
  by apply (handleMessage_unregistered msg raw e n).
Qed.

(** *** trigger *)

Lemma set_heap_same (ref : nat) (ch : Channel.t) (a : t) :
  heap a !! ref = Some ch -> set_heap (<[ref := ch]> (heap a)) (nextRef a) a = a.
Proof. intros Hh. rewrite insert_id by done. by destruct a. Qed.

Lemma channel_trigger_run (ev : string) (data : value) (ch : Channel.t) :
  Channel.trigger ev data ch =
  if negb (startsWith "client-" ev) then
    (Raised (Error ("Client events must be prefixed with " +:+ quoted "client-")), ch, [])
  else if negb (needs_auth (Channel.name ch)) then
    (Raised (Error "Client events can only be triggered on private or presence channels"),
     ch, [])
  else (Done tt, ch,
        (fun g => Channel.Call g (VObj [("event", VStr ev); ("data", data)]))
          <$> Channel.listeners ch "__internal_trigger").
Proof.
  unfold Channel.trigger, needs_auth. destruct (negb (startsWith "client-" ev)); [done|].
  rewrite run_gets. rewrite <- negb_orb.
  destruct (negb (_ || _)); [done|]. by rewrite ChannelFacts.emit_run.
Qed.

Lemma forward_effect_run (ref : nat) (n ev : string) (data : value) (a : t) :
  let payload := VObj [("event", VStr ev); ("data", data)] in
  channel_effect ref (Channel.Call (ForwardTrigger n) payload) a =
  (Done tt, a,
   Chan ref (Channel.Call (ForwardTrigger n) payload)
   :: if socket_open a
      then [Conn (Connection.WsSend
                    (VObj [("event", VStr ev); ("channel", VStr n);
                           ("data", VStr (JSON_stringify data))]))]
      else []).
Proof.
  cbn zeta. unfold channel_effect. rewrite run_tell. cbn beta.
  unfold catch, forwardTrigger.
  change (prop (VObj [("event", VStr ev); ("data", data)]) "event") with (Some (VStr ev)).
  change (prop (VObj [("event", VStr ev); ("data", data)]) "data") with (Some data).
  rewrite !run_some, connection_send_open. by destruct (socket_open a).
Qed.

(** [trigger] sends a client event when everything is in place: the event
    name starts with [client-], the channel is registered, the server has
    confirmed its subscription and it is a private or presence channel.  The
    frame carries the event, the channel name and the data as JSON text, and
    is written if the socket is open and dropped in silence otherwise.  In
    every other case [trigger] throws, with an error that tells which
    condition failed; then no frame is written and nothing changes. *)
Theorem trigger_sends_a_client_event (n ev : string) (data : value) (a : t) :
  let r := trigger n ev data a in
  (startsWith "client-" ev = false ->
     r = (Raised (Error ("Client events must be prefixed with " +:+ quoted "client-")),
          a, [])) /\
  (startsWith "client-" ev = true ->
     (channel n a = None ->
        r = (Raised (Error ("Channel " +:+ quoted n +:+ " is not subscribed")), a, [])) /\
     (forall ref ch,
        channel n a = Some ref -> heap a !! ref = Some ch ->
        (Channel.subscribed ch = false ->
           r = (Raised (Error ("Channel " +:+ quoted n +:+ " is not yet subscribed")),
                a, [])) /\
        (Channel.subscribed ch = true -> needs_auth (Channel.name ch) = false ->
           r = (Raised (Error
                  "Client events can only be triggered on private or presence channels"),
                a, [])) /\
        (Channel.subscribed ch = true -> needs_auth (Channel.name ch) = true ->
         Channel.listeners ch "__internal_trigger" = [ForwardTrigger n] ->
           outcomeOf r = Done tt /\ stateOf r = a /\
           frames (traceOf r) =
             if socket_open a
             then [VObj [("event", VStr ev); ("channel", VStr n);
                         ("data", VStr (JSON_stringify data))]]
             else []))).
Proof.
  cbn zeta. unfold trigger. split; [by intros ->|]. intros Hcl. rewrite Hcl. cbn [negb].
  rewrite run_gets. unfold channel. split; [by intros ->|].
  intros ref ch -> Hh. rewrite run_gets, Hh, run_some.
  split; [by intros ->|].
  split.
  - intros -> Hpub. cbn [negb]. unfold onChannel.
    rewrite run_gets, Hh, run_some, channel_trigger_run, Hcl, Hpub.
    cbn [negb]. rewrite run_modify. cbn [forEach]. rewrite run_ret.
    cbn [raise]. by rewrite (set_heap_same ref ch a Hh).
  - intros -> Hauth Hl. cbn [negb]. unfold onChannel.
    rewrite run_gets, Hh, run_some, channel_trigger_run, Hcl, Hauth, Hl.
    cbn [negb fmap list_fmap]. rewrite run_modify.
    rewrite (set_heap_same ref ch a Hh). cbn [forEach].
    rewrite run_assoc, (run_done _ _ a tt a _ (forward_effect_run ref n ev data a)).
    cbn beta. rewrite run_ret. cbn [stateOf traceOf outcomeOf fst snd ret].
    rewrite app_nil_r. by destruct (socket_open a).
Qed.

(** *** The handshake, once the authentication has settled *)

(** The fields of the subscribe frame of an authenticated channel. *)
Lemma sendSubscribe_resume_resolved (ref : nat) (ch : Channel.t) (resp : AuthResponse)
    (a : t) :
  heap a !! ref = Some ch ->
  let n := Channel.name ch in
  let base := [("channel", VStr n); ("auth", VStr (auth resp))] in
  (startsWith "presence-" n = false ->
     sendSubscribe_resume ref (Resolved resp) a =
     (Done tt, a,
      if socket_open a
      then [Conn (Connection.WsSend
                    (subscribe_frame
                       (base ++ match channel_data resp with
                                | Some cd => if String.eqb cd "" then []
                                             else [("channel_data", VStr cd)]
                                | None => []
                                end)))]
      else [])) /\
  (forall cd self_,
     startsWith "presence-" n = true -> channel_data resp = Some cd -> cd <> "" ->
     parsePresenceSelf cd = Some self_ ->
     sendSubscribe_resume ref (Resolved resp) a =
     (Done tt, set_pendingPresenceSelf (<[n := self_]> (pendingPresenceSelf a)) a,
      if socket_open a
      then [Conn (Connection.WsSend
                    (subscribe_frame (base ++ [("channel_data", VStr cd)])))]
      else [])).
Proof.
  intros Hh. cbn zeta. unfold sendSubscribe_resume.
  rewrite run_gets, Hh, run_some. cbn zeta. split.
  - intros ->. destruct (channel_data resp) as [cd|].
    + destruct (String.eqb cd ""); rewrite connection_send_open; [by rewrite app_nil_r|done].
    + rewrite connection_send_open. by rewrite app_nil_r.
  - intros cd self_ -> -> Hne Hp. apply String.eqb_neq in Hne. rewrite Hne.
    rewrite Hp, run_modify. by rewrite connection_send_open.
Qed.

(** When the authentication has settled, the handshake goes on from its
    outcome.  A rejection is signalled to the channel's
    [realtime:subscription_error] callbacks as an [AuthError] carrying the
    error's text, and no subscribe frame is written.  A response for a
    private channel has the subscribe frame written with the channel, the
    [auth] signature and, if the response has a non-empty one, the
    [channel_data]; a response for a presence channel whose [channel_data]
    decodes has the frame written with the [channel_data] as received, and
    the identity decoded from it is kept for the confirmation. *)
Theorem auth_outcome_decides_the_handshake (ref : nat) (ch : Channel.t) (a : t) :
  heap a !! ref = Some ch ->
  let n := Channel.name ch in
  (forall err,
     let r := sendSubscribe_resume ref (Rejected err) a in
     outcomeOf r = Done tt /\
     calls ref (traceOf r) =
       (fun f => (f, VObj [("type", VStr "AuthError"); ("error", VStr err);
                           ("status", VNum 403)]))
         <$> Channel.listeners ch "realtime:subscription_error" /\
     subscribe_frames (traceOf r) = [] /\
     pendingPresenceSelf (stateOf r) !! n = None /\
     heap (stateOf r) !! ref = Some (Channel.set_subscribed false ch)) /\
  (forall resp,
     startsWith "presence-" n = false ->
     sendSubscribe_resume ref (Resolved resp) a =
     (Done tt, a,
      if socket_open a
      then [Conn (Connection.WsSend
                    (subscribe_frame
                       ([("channel", VStr n); ("auth", VStr (auth resp))]
                        ++ match channel_data resp with
                           | Some cd => if String.eqb cd "" then []
                                        else [("channel_data", VStr cd)]
                           | None => []
                           end)))]
      else [])) /\
  (forall resp cd self_,
     startsWith "presence-" n = true -> channel_data resp = Some cd -> cd <> "" ->
     parsePresenceSelf cd = Some self_ ->
     sendSubscribe_resume ref (Resolved resp) a =
     (Done tt, set_pendingPresenceSelf (<[n := self_]> (pendingPresenceSelf a)) a,
      if socket_open a
      then [Conn (Connection.WsSend
                    (subscribe_frame
                       [("channel", VStr n); ("auth", VStr (auth resp));
                        ("channel_data", VStr cd)]))]
      else [])).
Proof.
  intros Hh. cbn zeta. split; [|split].
  - intros err. cbn zeta.
    assert (sendSubscribe_resume ref (Rejected err) a =
            andThen (pending_delete (Channel.name ch))
              (fun _ => onChannel ref (Channel.handleError (AuthError err))) a) as ->.
    { unfold sendSubscribe_resume. by rewrite run_gets, Hh, run_some. }
    exact (refuse_run ref ch err a Hh).
  - intros resp. exact (proj1 (sendSubscribe_resume_resolved ref ch resp a Hh)).
  - intros resp. exact (proj2 (sendSubscribe_resume_resolved ref ch resp a Hh)).
Qed.

(** *** Frames for a registered channel *)

Lemma handleMessage_registered (msg raw : value) (e n : string) (ref : nat) (a : t) :
  prop msg "event" = Some (VStr e) -> prop msg "data" = Some raw ->
  prop msg "channel" = Some (VStr n) -> n <> "" -> channel n a = Some ref ->
  let r := route n ref (VStr e) (parseData raw) a in
  handleMessage msg a =
  (outcomeOf r, stateOf r,
   ((fun f => Global f (parseData raw)) <$> global_listeners a e) ++ traceOf r).
Proof.
  intros He Hd Hc Hn Hl. cbn zeta. unfold handleMessage, global_listeners.
  rewrite He, run_some, Hd, run_some, run_gets.
  assert (forall l, forEach l (fun f => tell (Global f (parseData raw))) a =
                    (Done tt, a, (fun f => Global f (parseData raw)) <$> l)) as Hfe
      by (intros l; apply ChannelFacts.forEach_tell).
  assert (truthy (VStr n) = true) as Ht.
  { cbn. apply negb_true_iff. by apply String.eqb_neq. }
  unfold channel in Hl.
  destruct (globalBindings a !! e) as [l|]; cbn [default].
  - rewrite (run_done _ _ a tt a _ (Hfe l)). by rewrite Hc, run_some, Ht, run_gets, Hl.
  - rewrite run_ret, Hc, run_some, Ht, run_gets, Hl. cbn [fmap list_fmap app].
    apply result_eta.
Qed.

Lemma signal_error_run_any (ref : nat) (ch : Channel.t) (data : value) (a : t) :
  heap a !! ref = Some ch ->
  let r := onChannel ref (Channel.handleError data) a in
  outcomeOf r = Done tt /\
  stateOf r = set_heap (<[ref := Channel.set_subscribed false ch]> (heap a)) (nextRef a) a /\
  calls ref (traceOf r) =
    (fun g => (g, data)) <$> Channel.listeners ch "realtime:subscription_error" /\
  globals (traceOf r) = [].
Proof.
  intros Hh. cbn zeta.
  destruct (onChannel_run ref (Channel.handleError data) ch a Hh) as (Ho & Hs & Hc & Hg & _).
  cbn zeta in *. rewrite Ho, Hs, Hc, Hg, handleError_run.
  cbn [outcomeOf stateOf traceOf fst snd]. by rewrite ChannelProps.called_calls.
Qed.

(** The confirmation of a presence subscription hands the channel the
    identity kept from the authentication, and the entry kept is dropped;
    a subscription error drops the entry too, empties the presence state
    and marks the channel unsubscribed.  Either way the callbacks of the
    event are called with the decoded data, after the global callbacks. *)
Theorem pending_identity_is_consumed (msg raw : value) (n : string) (ref : nat)
    (ch : Channel.t) (f : Channel.PresenceFields) (a : t) :
  prop msg "data" = Some raw -> prop msg "channel" = Some (VStr n) -> n <> "" ->
  channel n a = Some ref -> heap a !! ref = Some ch -> Channel.ext ch = Some f ->
  let r := handleMessage msg a in
  let data := parseData raw in
  (prop msg "event" = Some (VStr "realtime:subscription_succeeded") ->
     outcomeOf r = Done tt /\
     pendingPresenceSelf (stateOf r) = delete n (pendingPresenceSelf a) /\
     (exists ch',
        heap (stateOf r) !! ref = Some ch' /\
        Channel.subscribed ch' = true /\
        exists f', Channel.ext ch' = Some f' /\
                   Channel.me f' = pendingPresenceSelf a !! n /\
                   Channel.ids (Channel.presence f') =
                     if Channel.isPresenceData data
                     then Channel.strings (Channel.presence_field data "ids") else []) /\
     calls ref (traceOf r) =
       (fun g => (g, data)) <$> Channel.listeners ch "realtime:subscription_succeeded" /\
     globals (traceOf r) =
       (fun g => (g, data)) <$> global_listeners a "realtime:subscription_succeeded") /\
  (prop msg "event" = Some (VStr "realtime:subscription_error") ->
     outcomeOf r = Done tt /\
     pendingPresenceSelf (stateOf r) = delete n (pendingPresenceSelf a) /\
     heap (stateOf r) !! ref =
       Some (Channel.set_subscribed false
               (Channel.set_ext (Some (Channel.clearPresenceState f)) ch)) /\
     calls ref (traceOf r) =
       (fun g => (g, data)) <$> Channel.listeners ch "realtime:subscription_error" /\
     globals (traceOf r) =
       (fun g => (g, data)) <$> global_listeners a "realtime:subscription_error").
Proof.
  intros Hd Hc Hn Hl Hh Hx. cbn zeta.
  assert (forall (d : value) (l : list EventCallback),
            globals ((fun g => Global g d) <$> l) = (fun g => (g, d)) <$> l) as Hgl.
  { intros d l. induction l as [|g l IH]; [done|]. cbn. by f_equal. }
  assert (forall (d : value) (l : list EventCallback),
            calls ref ((fun g => Global g d) <$> l) = []) as Hcl
      by (intros d l; by induction l).
  split; intros He; rewrite (handleMessage_registered msg raw _ n ref a He Hd Hc Hn Hl);
    cbn zeta; cbn [outcomeOf stateOf traceOf fst snd];
    rewrite calls_app, globals_app, Hgl, Hcl; cbn [app];
    unfold route; rewrite run_gets, Hh, run_some; cbn zeta;
    unfold Channel.instanceofPresenceChannel; rewrite Hx.
  - change (is_str (VStr "realtime:subscription_succeeded")
              "realtime:subscription_succeeded") with true. cbn match.
    rewrite run_gets.
    pose proof (ChannelProps.handleSubscribed_run ch (parseData raw)
                  (pendingPresenceSelf a !! n)) as Hm.
    rewrite Hx in Hm.
    destruct (onChannel_run ref (Channel.handleSubscribed (parseData raw)
                                   (pendingPresenceSelf a !! n)) ch a Hh)
      as (Ho & Hs & Hca & Hg & _).
    cbn zeta in *. rewrite Hm in Ho, Hs, Hca. cbn [outcomeOf stateOf traceOf fst snd] in *.
    rewrite (run_done _ _ a tt _ _
               (eq_trans (result_eta _) (f_equal2 (fun o s => (o, s, _)) Ho Hs))).
    unfold pending_delete, modify. cbn [outcomeOf stateOf traceOf fst snd].
    rewrite app_nil_r, Hca, Hg, app_nil_r.
    split; [reflexivity|]. split; [reflexivity|]. split.
    + eexists. split; [cbn [heap set_heap set_pendingPresenceSelf];
                       by rewrite lookup_insert_eq|].
      split; [done|]. eexists. split; [reflexivity|].
      split; [done|]. cbn [Channel.presence Channel.ids].
      by destruct (Channel.isPresenceData (parseData raw)).
    + split; [|done]. rewrite ChannelProps.called_app, ChannelProps.called_calls.
      by destruct (Channel.isPresenceData _), (nullish _).
  - change (is_str (VStr "realtime:subscription_error")
              "realtime:subscription_succeeded") with false.
    change (is_str (VStr "realtime:subscription_error")
              "realtime:subscription_error") with true. cbn match.
    unfold pending_delete. rewrite run_modify.
    set (a1 := set_pendingPresenceSelf _ a).
    rewrite (run_done _ _ a1 tt _ []
               (onChannel_silent ref channel_clearPresenceState ch _ tt a1 Hh eq_refl)).
    rewrite Hx. cbn [fmap option_fmap option_map].
    set (a2 := set_heap _ _ a1).
    assert (heap a2 !! ref = Some (Channel.set_ext
              (Some (Channel.clearPresenceState f)) ch)) as Hh2
        by (subst a2; cbn; by rewrite lookup_insert_eq).
    destruct (signal_error_run_any ref _ (parseData raw) a2 Hh2) as (Ho & Hs & Hca & Hg).
    cbn zeta in *. cbn [outcomeOf stateOf traceOf fst snd app].
    rewrite Ho, Hs, Hca, Hg, app_nil_r. split; [done|]. split; [done|].
    split; [|done]. cbn [heap set_heap]. by rewrite lookup_insert_eq.
Qed.

(** *** State changes of the connection *)

Lemma cleared_idem (ch : Channel.t) : cleared (cleared ch) = cleared ch.
Proof. destruct ch as [n b s [f|]]; done. Qed.

Lemma clear_loop (l : list (string * nat)) (a : t) :
  (forall kr, kr ∈ l -> is_Some (heap a !! kr.2)) ->
  let r := forEach l (fun kr => onChannel kr.2 channel_clearPresenceState) a in
  outcomeOf r = Done tt /\ traceOf r = [] /\
  stateOf r = set_heap (heap (stateOf r)) (nextRef a) a /\
  forall r0, heap (stateOf r) !! r0 =
             if decide (r0 ∈ l.*2) then cleared <$> heap a !! r0
             else heap a !! r0.
Proof.
  revert a. induction l as [|[k r1] l IH]; intros a Hlive; cbn zeta.
  { split; [done|]. split; [done|]. split; [by destruct a|]. intros r0.
    rewrite decide_False; [done|]. apply not_elem_of_nil. }
  destruct (Hlive (k, r1) ltac:(left)) as [ch1 Hh1]. cbn in Hh1.
  cbn [forEach snd].
  rewrite (run_done _ _ a tt _ []
             (onChannel_silent r1 channel_clearPresenceState ch1 _ tt a Hh1 eq_refl)).
  set (a1 := set_heap _ _ a).
  assert (forall kr, kr ∈ l -> is_Some (heap a1 !! kr.2)) as Hlive1.
  { intros kr Hin. subst a1. cbn. destruct (decide (kr.2 = r1)) as [->|Hne].
    - rewrite lookup_insert_eq. by eexists.
    - rewrite lookup_insert_ne by done. apply Hlive. by right. }
  destruct (IH a1 Hlive1) as (Ho & Ht & Hs & Hheap). cbn zeta in *.
  cbn [outcomeOf stateOf traceOf fst snd app].
  split; [done|]. split; [done|]. split.
  { rewrite Hs at 1. by subst a1. }
  intros r0. rewrite Hheap. subst a1. cbn [heap set_heap fmap list_fmap].
  destruct (decide (r0 = r1)) as [->|Hne].
  - rewrite lookup_insert_eq, Hh1. rewrite (decide_True (P := r1 ∈ r1 :: l.*2)) by left.
    cbn [fmap option_fmap option_map]. fold (cleared ch1).
    case_decide; [by rewrite cleared_idem|done].
  - rewrite lookup_insert_ne by done.
    destruct (decide (r0 ∈ l.*2)) as [Hin|Hnin].
    + by rewrite decide_True by (by right).
    + rewrite decide_False; [done|]. intros Hin. apply elem_of_cons in Hin as [?|?]; done.
Qed.

Lemma clearPresenceState_run (a : t) :
  registry_ok a ->
  let r := clearPresenceState a in
  outcomeOf r = Done tt /\ traceOf r = [] /\
  stateOf r = set_heap (heap (stateOf r)) (nextRef a) (set_pendingPresenceSelf ∅ a) /\
  forall r0, heap (stateOf r) !! r0 =
             if decide (r0 ∈ (channels a).*2) then cleared <$> heap a !! r0
             else heap a !! r0.
Proof.
  intros [_ Hok]. cbn zeta. unfold clearPresenceState. rewrite run_modify, run_gets.
  apply (clear_loop (channels a) (set_pendingPresenceSelf ∅ a)).
  intros [k r] Hin. destruct (Hok k r Hin) as [_ Hn]. cbn.
  destruct (heap a !! r); [by eexists|done].
Qed.

Lemma globals_tell (d : value) (l : list EventCallback) (a : t) :
  forEach l (fun f => tell (Global f d)) a = (Done tt, a, (fun f => Global f d) <$> l).
Proof. apply ChannelFacts.forEach_tell. Qed.

Lemma state_change_callbacks (prev curr : Connection.ConnectionState) (a : t) :
  (let* cbs := gets (fun a => globalBindings a !! "state_change") in
   match cbs with
   | Some l =>
       forEach l (fun f =>
         tell (Global f (VObj [("previous", VStr (state_name prev));
                               ("current", VStr (state_name curr))])))
   | None => ret tt
   end)%mon a =
  (Done tt, a,
   (fun f => Global f (VObj [("previous", VStr (state_name prev));
                             ("current", VStr (state_name curr))]))
     <$> global_listeners a "state_change").
Proof.
  rewrite run_gets. unfold global_listeners.
  destruct (globalBindings a !! "state_change"); [apply globals_tell|done].
Qed.

(** When the connection is lost or closed (the state becomes
    [disconnected] or [unavailable], or falls back from [connected] to
    [connecting]), every pending identity is dropped and every registered
    presence channel is emptied of its members and of [me].  Nothing is
    written to the socket, and the channels keep their callbacks and their
    subscribed flag: a channel the server had confirmed still reads as
    subscribed.  The [state_change] callbacks are then called with the two
    state names. *)
Theorem losing_the_connection_clears_presence (prev curr : Connection.ConnectionState)
    (a : t) :
  registry_ok a ->
  curr = Connection.disconnected \/ curr = Connection.unavailable \/
  (prev = Connection.connected /\ curr = Connection.connecting) ->
  let r := handleStateChange prev curr a in
  outcomeOf r = Done tt /\
  pendingPresenceSelf (stateOf r) = ∅ /\
  channels (stateOf r) = channels a /\ connection (stateOf r) = connection a /\
  (forall n ref ch,
     (n, ref) ∈ channels a -> heap a !! ref = Some ch ->
     exists ch',
       heap (stateOf r) !! ref = Some ch' /\
       Channel.ext ch' = Channel.clearPresenceState <$> Channel.ext ch /\
       Channel.subscribed ch' = Channel.subscribed ch /\
       Channel.bindings ch' = Channel.bindings ch) /\
  traceOf r =
    (fun f => Global f (VObj [("previous", VStr (state_name prev));
                              ("current", VStr (state_name curr))]))
      <$> global_listeners a "state_change".
Proof.
  intros Hok Hcase. cbn zeta. unfold handleStateChange.
  assert (bool_decide (prev = Connection.connected) && bool_decide (curr = Connection.connecting)
          || bool_decide (curr = Connection.disconnected)
          || bool_decide (curr = Connection.unavailable) = true) as ->.
  { destruct Hcase as [->|[->|[-> ->]]]; cbn; by rewrite ?orb_true_r. }
  assert (bool_decide (curr = Connection.connected) = false) as ->.
  { destruct Hcase as [->|[->|[-> ->]]]; done. }
  destruct (clearPresenceState_run a Hok) as (Ho & Ht & Hs & Hheap). cbn zeta in *.
  rewrite (run_done _ _ a tt _ []
             (eq_trans (result_eta _)
                (f_equal3 (fun o s t => (o, s, t)) Ho eq_refl Ht))).
  rewrite run_ret, state_change_callbacks.
  cbn [outcomeOf stateOf traceOf fst snd app].
  split; [done|]. split; [by rewrite Hs|]. split; [by rewrite Hs|].
  split; [by rewrite Hs|]. split.
  - intros n ref ch Hin Hh. rewrite Hheap, Hh.
    rewrite decide_True by (apply list_elem_of_fmap; by exists (n, ref)).
    eexists. split; [reflexivity|]. done.
  - unfold global_listeners. by rewrite Hs.
Qed.

Lemma resubscribe_loop (endpoint : string) (l : list (string * nat)) (a : t) :
  (forall k r, (k, r) ∈ l -> Channel.name <$> heap a !! r = Some k) ->
  forallb (fun kr => negb (needs_auth kr.1)) l = true \/
  (authEndpoint (options a) = Some endpoint /\ endpoint <> "" /\
   truthy (Connection.id (connection a)) = true) ->
  let r := forEach l (fun kr => sendSubscribe kr.2) a in
  outcomeOf r = Done tt /\
  stateOf r = set_awaiting (awaiting (stateOf r)) (nextReq (stateOf r)) a /\
  frames (traceOf r) =
    (if socket_open a
     then (fun kr => subscribe_frame [("channel", VStr kr.1)])
            <$> List.filter (fun kr => negb (needs_auth kr.1)) l
     else []) /\
  fetches (traceOf r) =
    (fun kr => (Connection.id (connection a), kr.1, endpoint))
      <$> List.filter (fun kr => needs_auth kr.1) l /\
  globals (traceOf r) = [] /\
  awaiting (stateOf r) =
    awaiting a ++ zip (seq (nextReq a) (length (List.filter (fun kr => needs_auth kr.1) l)))
                      ((List.filter (fun kr => needs_auth kr.1) l).*2).
Proof.
  revert a. induction l as [|[k r1] l IH]; intros a Hlive Hcfg; cbn zeta.
  { cbn. rewrite app_nil_r. split; [done|]. split; [by destruct a|].
    by destruct (socket_open a). }
  destruct (heap a !! r1) as [ch|] eqn:Hh;
    [|by specialize (Hlive k r1 ltac:(left)); rewrite Hh in Hlive].
  assert (Channel.name ch = k) as Hname.
  { specialize (Hlive k r1 ltac:(left)). rewrite Hh in Hlive. by injection Hlive. }
  cbn [forEach snd]. pose proof (sendSubscribe_run r1 ch a Hh) as Hrun.
  cbn zeta in Hrun. rewrite Hname in Hrun.
  cbn [List.filter fst]. destruct (needs_auth k) eqn:Hauth; cbn [negb].
  - destruct Hcfg as [Hpub|(Hep & Hne & Hsid)];
      [cbn in Hpub; by rewrite Hauth in Hpub|].
    rewrite Hep, Hsid in Hrun. apply String.eqb_neq in Hne as Hne'.
    rewrite Hne' in Hrun. cbn [negb] in Hrun.
    rewrite (run_done _ _ a tt _ _ Hrun).
    set (a1 := set_awaiting _ _ a).
    destruct (IH a1) as (Ho & Hs & Hf & Hq & Hg & Haw);
      [intros k' r' Hin; apply Hlive; by right|by right|].
    cbn zeta in *. cbn [outcomeOf stateOf traceOf fst snd].
    change (?x :: ?t) with ([x] ++ t) at 1.
    rewrite frames_app, fetches_app, globals_app, Hf, Hq, Hg.
    split; [done|]. split.
    { etransitivity; [exact Hs|]. by subst a1. }
    split; [done|]. split; [done|]. split; [done|].
    rewrite Haw. subst a1. cbn [awaiting nextReq set_awaiting length fmap list_fmap snd seq zip zip_with].
    by rewrite <- app_assoc.
  - rewrite (run_done _ _ a tt _ _ Hrun).
    destruct (IH a) as (Ho & Hs & Hf & Hq & Hg & Haw).
    { intros k' r' Hin. apply Hlive. by right. }
    { destruct Hcfg as [Hpub|?]; [left|by right]. cbn in Hpub. by rewrite Hauth in Hpub. }
    cbn zeta in *. cbn [outcomeOf stateOf traceOf fst snd].
    rewrite frames_app, fetches_app, globals_app, Hf, Hq, Hg.
    split; [done|]. split; [done|].
    split; [by destruct (socket_open a)|]. split; [by destruct (socket_open a)|].
    split; [by destruct (socket_open a)|]. done.
Qed.

(** When the connection becomes [connected], the client subscribes every
    registered channel again, in the order of their registration: each
    public channel has its subscribe frame written, if the socket is open,
    and each private or presence channel has one authentication requested,
    for the socket id of the connection.  No channel is touched, and the
    [state_change] callbacks are called afterwards. *)
Theorem connected_resubscribes_every_channel (prev : Connection.ConnectionState)
    (endpoint : string) (a : t) :
  registry_ok a ->
  forallb (fun kr => negb (needs_auth kr.1)) (channels a) = true \/
  (authEndpoint (options a) = Some endpoint /\ endpoint <> "" /\
   truthy (Connection.id (connection a)) = true) ->
  let r := handleStateChange prev Connection.connected a in
  let public := List.filter (fun kr => negb (needs_auth kr.1)) (channels a) in
  let authed := List.filter (fun kr => needs_auth kr.1) (channels a) in
  outcomeOf r = Done tt /\
  frames (traceOf r) =
    (if socket_open a
     then (fun kr => subscribe_frame [("channel", VStr kr.1)]) <$> public else []) /\
  fetches (traceOf r) =
    (fun kr => (Connection.id (connection a), kr.1, endpoint)) <$> authed /\
  globals (traceOf r) =
    (fun f => (f, VObj [("previous", VStr (state_name prev));
                        ("current", VStr "connected")]))
      <$> global_listeners a "state_change" /\
  heap (stateOf r) = heap a /\ channels (stateOf r) = channels a /\
  pendingPresenceSelf (stateOf r) = pendingPresenceSelf a /\
  awaiting (stateOf r) = awaiting a ++ zip (seq (nextReq a) (length authed)) authed.*2.
Proof.
  intros [_ Hok] Hcfg. cbn zeta. unfold handleStateChange.
  rewrite andb_false_r. cbn [orb bool_decide decide_rel]. 
  change (bool_decide (Connection.connected = Connection.disconnected)) with false.
  change (bool_decide (Connection.connected = Connection.unavailable)) with false.
  change (bool_decide (Connection.connected = Connection.connected)) with true.
  cbn [orb]. rewrite run_ret, run_assoc, run_gets.
  destruct (resubscribe_loop endpoint (channels a) a) as (Ho & Hs & Hf & Hq & Hg & Haw).
  { intros k r Hin. by destruct (Hok k r Hin). }
  { done. }
  cbn zeta in *.
  rewrite (run_done _ _ a tt _ _
             (eq_trans (result_eta _) (f_equal2 (fun o s => (o, s, _)) Ho eq_refl))).
  rewrite state_change_callbacks.
  cbn [outcomeOf stateOf traceOf fst snd].
  rewrite frames_app, fetches_app, globals_app, Hf, Hq, Hg.
  assert (forall (d : value) (l : list EventCallback),
            globals ((fun g => Global g d) <$> l) = (fun g => (g, d)) <$> l
            /\ frames ((fun g => Global g d) <$> l) = []
            /\ fetches ((fun g => Global g d) <$> l) = []) as Hgl.
  { intros d l. induction l as [|g l (IH1 & IH2 & IH3)]; [done|]. cbn.
    split; [by f_equal|]. done. }
  destruct (Hgl (VObj [("previous", VStr (state_name prev));
                       ("current", VStr (state_name Connection.connected))])
              (global_listeners
                 (stateOf (forEach (channels a) (fun kr => sendSubscribe kr.2) a))
                 "state_change")) as (-> & -> & ->).
  rewrite !app_nil_r. cbn [app].
  split; [done|]. split; [done|]. split; [done|].
  split; [unfold global_listeners; by rewrite Hs|].
  split; [by rewrite Hs|]. split; [by rewrite Hs|]. split; [by rewrite Hs|]. done.
Qed.

(** *** Global callbacks *)

Ltac hush_by known :=
  repeat first
    [ known
    | apply quiet_ret | apply quiet_raise | apply quiet_gets | apply quiet_modify
    | apply quiet_orThrow
    | (apply quiet_tell; reflexivity)
    | (apply quiet_andThen; [|intros ?])
    | (apply quiet_forEach; intros ?)
    | (apply quiet_catch; [|intros ?])
    | match goal with |- quiet _ (match ?x with _ => _ end) => destruct x end
    | match goal with |- quiet _ (if ?x then _ else _) => destruct x end
    | match goal with |- quiet _ (let (_, _) := ?x in _) => destruct x end ].

Ltac hush := hush_by fail.

Lemma quiet_connection_send (msg : value) : quiet not_global (connection_send msg).
Proof. intros a. rewrite connection_send_open. by destruct (socket_open a). Qed.

Lemma quiet_channel_effect (ref : nat) (e : Channel.effect) :
  quiet not_global (channel_effect ref e).
Proof.
  unfold channel_effect, forwardTrigger.
  hush_by ltac:(apply quiet_connection_send).
Qed.

Lemma quiet_onChannel {A} (ref : nat) (m : Channel.Meth A) : quiet not_global (onChannel ref m).
Proof.
  unfold onChannel. apply quiet_andThen; [hush|intros h].
  apply quiet_andThen; [hush|intros ch]. destruct (m ch) as [[r ch'] tr].
  apply quiet_andThen; [hush|intros _].
  apply quiet_andThen; [|intros _; destruct r; hush].
  apply quiet_forEach. intros e. apply quiet_channel_effect.
Qed.

Lemma quiet_route (n : string) (ref : nat) (event data : value) :
  quiet not_global (route n ref event data).
Proof.
  unfold route, pending_delete. hush_by ltac:(apply quiet_onChannel).
Qed.

Lemma quiet_globals (tr : list effect) : forallb not_global tr = true -> globals tr = [].
Proof.
  induction tr as [|e tr IH]; [done|]. cbn. intros Hq.
  apply andb_true_iff in Hq as [He Hq]. destruct e; try done; by apply IH.
Qed.

(** Every frame the connection forwards is handed to the global callbacks
    bound to its event, each once, with its data decoded (or as the text it
    is, if it does not decode), before anything is done for its channel and
    whether or not that channel is registered. *)
Theorem global_callbacks_see_every_frame (msg raw : value) (e : string) (a : t) :
  prop msg "event" = Some (VStr e) -> prop msg "data" = Some raw ->
  let r := handleMessage msg a in
  let data := default raw (JSON_parse (ToString raw)) in
  exists rest,
    traceOf r = ((fun f => Global f data) <$> global_listeners a e) ++ rest /\
    globals rest = [] /\
    globals (traceOf r) = (fun f => (f, data)) <$> global_listeners a e.
Proof.
  intros He Hd. cbn zeta.
  change (default raw (JSON_parse (ToString raw))) with (parseData raw).
  set (rest_ :=
    (let* chan := orThrow TypeError (prop msg "channel") in
     if truthy chan then
       let* l := gets channels in
       match chan with
       | VStr channelName =>
           match lookup_channel channelName l with
           | Some ref => route channelName ref (VStr e) (parseData raw)
           | None => ret tt
           end
       | _ => ret tt
       end
     else ret tt)%mon).
  assert (quiet not_global rest_) as Hq.
  { subst rest_. hush_by ltac:(apply quiet_route). }
  assert (forall (d : value) (l : list EventCallback),
            globals ((fun g => Global g d) <$> l) = (fun g => (g, d)) <$> l) as Hgl.
  { intros d l. induction l as [|g l IH]; [done|]. cbn. by f_equal. }
  exists (traceOf (rest_ a)).
  assert (traceOf (handleMessage msg a) =
          ((fun f => Global f (parseData raw)) <$> global_listeners a e)
          ++ traceOf (rest_ a)) as ->.
  { unfold handleMessage, global_listeners.
    rewrite He, run_some, Hd, run_some, run_gets.
    destruct (globalBindings a !! e) as [l|]; cbn [default].
    - by rewrite (run_done _ _ a tt a _ (globals_tell (parseData raw) l a)).
    - by rewrite run_ret. }
  split; [done|]. rewrite globals_app, Hgl, (quiet_globals _ (Hq a)).
  by rewrite app_nil_r.
Qed.

(** *** The two checks of an identity *)

Lemma pretty_N_go_ne_u (x : N) (s s' : string) :
  s <> "u" +:+ s' -> pretty_N_go x s <> "u" +:+ s'.
Proof.
  revert s. induction (N.lt_wf_0 x) as [x _ IH]; intros s Hs.
  assert (x = 0 \/ 0 < x)%N as [->|Hx] by lia.
  - by rewrite pretty_N_go_0.
  - rewrite pretty_N_go_step by done. apply IH.
    + by apply N.div_lt.
    + unfold pretty_N_char. by repeat case_match.
Qed.

Lemma indexed_user_id (items : list value) : indexed items "user_id" = VUndefined.
Proof.
  unfold indexed. change (String.eqb "user_id" "length") with false. cbv iota.
  generalize 0. induction items as [|x items IH]; intros i; [done|].
  cbn [index_from]. destruct (String.eqb_spec "user_id" (pretty i)) as [E|_]; [|apply IH].
  exfalso. symmetry in E. revert E. unfold pretty, pretty_nat, pretty, pretty_N.
  case_decide; [done|]. by apply pretty_N_go_ne_u.
Qed.

(** [parsePresenceSelf] accepts a [channel_data] exactly when it decodes to
    what [isPresenceInfo] accepts as a member, and returns that member; what
    [isPresenceInfo] accepts is an object with a [user_id] that is not empty
    and an object that is not an array as [user_info], which
    [isPresenceMemberRemovedData] accepts too; an array or a string is
    accepted by neither. *)
Theorem identity_checks_agree :
  (forall cd,
     parsePresenceSelf cd =
     match JSON_parse cd with
     | Some parsed => if isPresenceInfo parsed then Some (asPresenceInfo parsed) else None
     | None => None
     end) /\
  (forall data, isPresenceInfo data = true ->
     isPresenceMemberRemovedData data = true /\ user_id_of data <> "" /\
     exists fields info, data = VObj fields /\
                         assoc "user_info" fields = Some (VObj info)) /\
  (forall data, isPresenceMemberRemovedData data = true ->
     user_id_of data <> "" /\ exists fields, data = VObj fields).
Proof.
  split; [|split].
  - intros cd. unfold parsePresenceSelf, isPresenceInfo, asPresenceInfo, user_id_of.
    destruct (JSON_parse cd) as [parsed|]; cbn [mbind option_bind]; [|done].
    destruct parsed as [| |b|q|s|items|fields]; cbn [prop mbind option_bind]; try done.
    + by destruct (negb (truthy (VBool b)) || negb (is_object (VBool b))).
    + by destruct (negb (truthy (VNum q)) || negb (is_object (VNum q))).
    + rewrite indexed_user_id. by destruct (negb (truthy (VStr s)) || _).
    + by rewrite indexed_user_id.
    + cbn [truthy is_object negb orb].
      destruct (default VUndefined (assoc "user_id" fields)) as [| | | |u| |]; try done.
      destruct (String.eqb u ""); cbn [orb negb andb]; [done|].
      cbn [default].
      destruct (truthy _), (is_object _), (isArray _); done.
  - intros data. unfold isPresenceInfo, isPresenceMemberRemovedData, user_id_of.
    destruct data as [| |b|q|s|items|fields]; cbn [prop truthy is_object negb orb];
      rewrite ?indexed_user_id, ?orb_true_r; try done.
    destruct (default VUndefined (assoc "user_id" fields)) as [| | | |u| |]; try done.
    { destruct (String.eqb u "") eqn:E; [done|]. cbn [negb andb]. intros Hi.
      split; [done|]. split; [by apply String.eqb_neq|].
      exists fields. destruct (assoc "user_info" fields) as [[| |b|q|s|items|info]|];
        cbn in Hi; try done; rewrite ?andb_false_r in Hi; try done. by exists info. }
  - intros data. unfold isPresenceMemberRemovedData, user_id_of.
    destruct data as [| |b|q|s|items|fields]; cbn [prop truthy is_object negb orb];
      rewrite ?indexed_user_id, ?orb_true_r; try done.
    destruct (default VUndefined (assoc "user_id" fields)) as [| | | |u| |]; try done.
    destruct (String.eqb u "") eqn:E; [done|]. intros _.
    split; [by apply String.eqb_neq|]. by exists fields.
Qed.

End Facts.
(** *** On the example host *)

(** A channel subscribed on a client that never connected. *)
Lemma subscribe_before_connected_only_registers_witness :
  let r := subscribe (H := Host.example) "my-channel" (new Host.opts) in
  outcomeOf r = Done 0 /\ traceOf r = [] /\ channel "my-channel" (stateOf r) = Some 0.
Proof.
  cbn zeta.
  destruct (subscribe_before_connected_only_registers (H := Host.example)
              "my-channel" (new Host.opts)) as (Hout & Htr & Hch & _);
    [reflexivity | by vm_compute |].
  split; [exact Hout|]. split; [exact Htr | exact Hch].
Defined.

(** The handshake of the presence channel on the established client asks
    the endpoint for a signature, with the socket id. *)
Lemma subscribe_handshake_starts_with_auth_witness :
  fetches (traceOf (sendSubscribe (H := Host.example) 0 Host.identified))
  = [(VStr "123.456", "presence-room", "/auth")].
Proof.
  destruct (subscribe_handshake_starts_with_auth (H := Host.example) 0
              (default (Channel.new "") (heap Host.identified !! 0)) Host.identified)
    as (_ & Hauth); [by vm_compute|].
  destruct Hauth as (_ & _ & _ & Hend); [by vm_compute|].
  destruct (Hend "/auth") as (_ & Hfetch); [by vm_compute | done |].
  destruct Hfetch as (Htr & _); [by vm_compute|].
  rewrite Htr. by vm_compute.
Defined.

(** The presence channel of the example client, unsubscribed. *)
Lemma unsubscribe_forgets_the_channel_witness :
  let r := unsubscribe (H := Host.example) "presence-room" Host.identified in
  channel "presence-room" (stateOf r) = None /\
  pendingPresenceSelf (stateOf r) !! "presence-room" = None /\
  frames (traceOf r) = [unsubscribe_frame (H := Host.example) "presence-room"].
Proof.
  cbn zeta.
  destruct (proj2 (unsubscribe_forgets_the_channel (H := Host.example)
                     "presence-room" Host.identified)
              0 (default (Channel.new "") (heap Host.identified !! 0)))
    as (_ & Htr & Hch & _ & Hp & _); [by vm_compute | by vm_compute |].
  split; [exact Hch|]. split; [exact Hp|]. rewrite Htr. by vm_compute.
Defined.

(** An event without the prefix, and one on a channel not yet subscribed. *)
Lemma trigger_sends_a_client_event_witness :
  outcomeOf (trigger (H := Host.example) "presence-room" "my-event" VNull Host.identified)
  = Raised (Error ("Client events must be prefixed with " +:+ quoted "client-")) /\
  outcomeOf (trigger (H := Host.example) "presence-room" "client-typing" VNull
               Host.identified)
  = Raised (Error ("Channel " +:+ quoted "presence-room" +:+ " is not yet subscribed")).
Proof.
  split.
  - destruct (trigger_sends_a_client_event (H := Host.example)
                "presence-room" "my-event" VNull Host.identified) as (Hno & _).
    rewrite Hno; [reflexivity | by vm_compute].
  - destruct (trigger_sends_a_client_event (H := Host.example)
                "presence-room" "client-typing" VNull Host.identified) as (_ & Hyes).
    destruct Hyes as (_ & Hreg); [by vm_compute|].
    destruct (Hreg 0 (default (Channel.new "") (heap Host.identified !! 0)))
      as (Hnot & _); [by vm_compute | by vm_compute |].
    rewrite Hnot; [reflexivity | by vm_compute].
Defined.

(** The authentication in flight is rejected: the callback bound to the
    subscription errors of the channel is called, and no frame is sent. *)
Lemma auth_outcome_decides_the_handshake_witness :
  let r := sendSubscribe_resume (H := Host.example) 0 (Rejected "Auth failed: 403 Forbidden")
             Host.awaiting_auth in
  calls 0 (traceOf r) = [(UserCallback 7, AuthError "Auth failed: 403 Forbidden")] /\
  subscribe_frames (traceOf r) = [].
Proof.
  cbn zeta.
  destruct (auth_outcome_decides_the_handshake (H := Host.example) 0
              (default (Channel.new "") (heap Host.awaiting_auth !! 0)) Host.awaiting_auth)
    as (Hrej & _); [by vm_compute|].
  destruct (Hrej "Auth failed: 403 Forbidden") as (_ & Hc & Hf & _).
  split; [|exact Hf]. rewrite Hc. by vm_compute.
Defined.

(** The identity of Alice is consumed by the success of her subscription. *)
Lemma pending_identity_is_consumed_witness :
  let r := handleMessage (H := Host.example) Host.room_succeeded Host.identified in
  pendingPresenceSelf Host.identified !! "presence-room" = Some Host.alice /\
  pendingPresenceSelf (stateOf r) !! "presence-room" = None /\
  exists ch' f',
    heap (stateOf r) !! 0 = Some ch' /\ Channel.ext ch' = Some f' /\
    Channel.me f' = Some Host.alice /\ Channel.ids (Channel.presence f') = ["1"].
Proof.
  cbn zeta. split; [by vm_compute|].
  destruct (pending_identity_is_consumed (H := Host.example)
              Host.room_succeeded (VStr (Host.stringify Host.alice_alone))
              "presence-room" 0
              (default (Channel.new "") (heap Host.identified !! 0))
              {| Channel.presence := Channel.empty_presence; Channel.self := None |}
              Host.identified) as (Hok & _);
    [by vm_compute | by vm_compute | done | by vm_compute | by vm_compute
    | by vm_compute |].
  destruct Hok as (_ & Hp & (ch' & Hh & _ & f' & Hext & Hme & Hids) & _);
    [by vm_compute|].
  split; [rewrite Hp; apply lookup_delete_eq|].
  exists ch', f'. split; [exact Hh|]. split; [exact Hext|].
  split; [rewrite Hme; by vm_compute | rewrite Hids; by vm_compute].
Defined.

(** The example client is disconnected: the identity of Alice is dropped. *)
Lemma losing_the_connection_clears_presence_witness :
  let r := handleStateChange (H := Host.example) Connection.connected
             Connection.disconnected Host.identified in
  pendingPresenceSelf Host.identified !! "presence-room" = Some Host.alice /\
  pendingPresenceSelf (stateOf r) = ∅ /\ channels (stateOf r) = [("presence-room", 0)].
Proof.
  cbn zeta. split; [by vm_compute|].
  destruct (losing_the_connection_clears_presence (H := Host.example)
              Connection.connected Connection.disconnected Host.identified)
    as (_ & Hp & Hch & _).
  - apply (registry_ok_run (H := Host.example)), (registry_ok_run (H := Host.example)),
      (registry_ok_run (H := Host.example)), registry_ok_new.
  - by left.
  - split; [exact Hp|]. rewrite Hch. by vm_compute.
Defined.

(** The example client connects again: its presence channel is authenticated
    anew. *)
Lemma connected_resubscribes_every_channel_witness :
  let r := handleStateChange (H := Host.example) Connection.connecting
             Connection.connected Host.identified in
  fetches (traceOf r) = [(VStr "123.456", "presence-room", "/auth")] /\
  frames (traceOf r) = [].
Proof.
  cbn zeta.
  destruct (connected_resubscribes_every_channel (H := Host.example)
              Connection.connecting "/auth" Host.identified)
    as (_ & Hfr & Hfe & _).
  - apply (registry_ok_run (H := Host.example)), (registry_ok_run (H := Host.example)),
      (registry_ok_run (H := Host.example)), registry_ok_new.
  - right. split; [by vm_compute|]. split; [done | by vm_compute].
  - split; [rewrite Hfe | rewrite Hfr]; by vm_compute.
Defined.

(** A frame for no channel reaches the global callback bound to its event. *)
Lemma global_callbacks_see_every_frame_witness :
  globals (traceOf (handleMessage (H := Host.example) (Message "my-event" None "{}")
                      Host.identified))
  = [(UserCallback 3, VObj [])].
Proof.
  destruct (global_callbacks_see_every_frame (H := Host.example)
              (Message "my-event" None "{}") (VStr "{}") "my-event" Host.identified)
    as (rest & _ & _ & Hg); [reflexivity | reflexivity |].
  rewrite Hg. by vm_compute.
Defined.

(** The identity of Alice passes both checks. *)
Lemma identity_checks_agree_witness :
  isPresenceInfo (PresenceInfo_value Host.alice) = true /\
  isPresenceMemberRemovedData (PresenceInfo_value Host.alice) = true /\
  parsePresenceSelf (H := Host.example) (Host.stringify (PresenceInfo_value Host.alice))
  = Some Host.alice.
Proof.
  split; [reflexivity|]. split.
  - by apply (proj1 (proj2 (identity_checks_agree (H := Host.example)))).
  - rewrite (proj1 (identity_checks_agree (H := Host.example))). reflexivity.
Defined.

End ClientProps.


Module AuthProps.
Import MonFacts Auth.

Section Facts.
Context `{JSRuntime}.

Lemma header_put (k k' v : string) (l : list (string * string)) :
  header k' (put k v l) = if decide (k' = k) then Some v else header k' l.
Proof.
  induction l as [|[a b] l IH]; cbn.
  - destruct (decide (k' = k)) as [->|Hne]; [by rewrite String.eqb_refl|].
    apply String.eqb_neq in Hne. by rewrite Hne.
  - destruct (String.eqb k a) eqn:E.
    + apply String.eqb_eq in E as <-. cbn.
      destruct (decide (k' = k)) as [->|Hne]; [by rewrite String.eqb_refl|].
      apply String.eqb_neq in Hne. by rewrite Hne.
    + cbn. rewrite IH. destruct (decide (k' = k)) as [->|Hne]; [by rewrite E|done].
Qed.



Lemma header_assign (k : string) (a b : list (string * string)) :
  NoDup b.*1 ->
  header k (assign a b) = match header k b with Some v => Some v | None => header k a end.
Proof.
  unfold assign. revert a. induction b as [|[x y] b IH]; intros a Hnd; [done|].
  cbn in Hnd. apply NoDup_cons in Hnd as [Hx Hnd]. cbn [foldl fst snd].
  rewrite IH by done. cbn [header]. rewrite header_put.
  destruct (String.eqb k x) eqn:E.
  - apply String.eqb_eq in E as ->. rewrite decide_True by done.
    assert (header x b = None) as ->; [|done].
    clear -Hx. induction b as [|[u w] b IH]; [done|]. cbn in *.
    apply not_elem_of_cons in Hx as [Hne Hx]. apply String.eqb_neq in Hne.
    rewrite Hne. by apply IH.
  - apply String.eqb_neq in E. by rewrite decide_False.
Qed.

(** [fetchAuth] posts the socket id and the channel name as JSON to the
    endpoint.  Every custom header is sent with its value, and the request
    says [Content-Type: application/json] unless a custom header of that
    name says otherwise.  A response that is not [ok] is thrown as an error
    naming the status, whatever its body holds; the body of one that is
    [ok] is decoded and returned as it is. *)
Theorem fetchAuth_posts_and_reports_refusal (socketId : value) (channelName : string)
    (options : AuthOptions) :
  NoDup (default [] (headers options)).*1 ->
  let r := request socketId channelName options in
  url r = endpoint options /\ method r = "POST" /\
  body r = JSON_stringify (VObj [("socket_id", socketId);
                                 ("channel_name", VStr channelName)]) /\
  (forall k v, header k (default [] (headers options)) = Some v ->
     header k (request_headers r) = Some v) /\
  (header "Content-Type" (default [] (headers options)) = None ->
     header "Content-Type" (request_headers r) = Some "application/json") /\
  (forall k, k <> "Content-Type" ->
     header k (request_headers r) = header k (default [] (headers options))) /\
  (forall response,
     ok response = false ->
     settle (Some response) =
     Raised (Error ("Auth failed: " +:+ pretty (status response) +:+ " "
                    +:+ statusText response))) /\
  (forall response,
     ok response = true ->
     settle (Some response) =
     match JSON_parse (text response) with Some v => Done v | None => Raised SyntaxError end).
Proof.
  intros Hnd. cbn zeta. unfold request. cbn [url method body request_headers].
  split; [done|]. split; [done|]. split; [done|].
  split; [intros k v Hk; by rewrite header_assign, Hk|].
  split; [intros Hk; by rewrite header_assign, Hk|].
  split.
  - intros k Hk. rewrite header_assign by done. cbn [header].
    apply String.eqb_neq in Hk. rewrite Hk. by destruct (header k _).
  - split; intros response Hok; unfold settle; by rewrite Hok.
Qed.

End Facts.

(** The request of the test suite, with a bearer token. *)
Lemma fetchAuth_posts_and_reports_refusal_witness :
  let r := request (H := Host.example) (VStr "123.456") "private-ch"
             {| endpoint := "/auth";
                headers := Some [("Authorization", "Bearer token123")] |} in
  request_headers r =
    [("Content-Type", "application/json"); ("Authorization", "Bearer token123")] /\
  header "Authorization" (request_headers r) = Some "Bearer token123".
Proof.
  split; [reflexivity|].
  refine (proj1 (proj2 (proj2 (proj2
            (fetchAuth_posts_and_reports_refusal (H := Host.example) (VStr "123.456")
               "private-ch"
               {| endpoint := "/auth";
                  headers := Some [("Authorization", "Bearer token123")] |} _))))
            "Authorization" "Bearer token123" eq_refl).
  cbn. apply NoDup_singleton.
Defined.

End AuthProps.
